(** * Conditional checkout checkbox: a shallow embedding of [Checkout.jsx]

    The development follows
    [extensions/checkout-ui/src/Checkout.jsx]: the settings accessors
    ([getStringSetting], [getBooleanSetting], [extractTextFromRichText]),
    the rich-text label renderer ([parseRichTextLabel]), the visibility
    test ([shouldShowCheckbox]), the buyer-journey intercept handler and
    the body of the [Extension] component.

    Modelling conventions.
    - JavaScript values are of type [value]: the JSON values read
      from the host (settings, cart lines) and the JSX elements the
      renderer builds.  Numbers are integers ([Z]); fractional numbers,
      [NaN] and infinities are outside the model, and an integer is
      printed in decimal digits, as [String] prints the safe integers.
    - Property reads are own-property reads on JSON objects
      ([getProp]); prototype properties play no part.
    - Strings are [String.string].  [trim] and [toUpperCase] are the
      ASCII parts of the JavaScript functions, which is what variant
      ids and ISO country codes use.
    - A JavaScript exception is the [Throw] outcome of [completion].
    - The mutable counter [nodeIndex] of [parseRichTextLabel] and the
      console are threaded explicitly.
    - Module [Exact] has the accessor, the renderer, the filters and
      the component once more, for every string and every value:
      [String.prototype.trim] and [String.prototype.toUpperCase] are
      parameters there, and [join] raises on an object with an own
      [toString] property, as the engine's does. *)

From Stdlib Require Import List String Ascii ZArith Bool Arith Lia DecimalString.
From Stdlib Require DecimalPos DecimalZ.
Import ListNotations.
Local Open Scope string_scope.
Local Open Scope list_scope.

(** ** JavaScript values *)

Module JS.

(** JavaScript values: the JSON values, and the two kinds of JSX
    element the renderer builds, [<s-text key emphasis>] and
    [<s-link key href target>], each with what stands between its
    tags. *)
Unset Elimination Schemes.
Inductive value : Type :=
| VUndef
| VNull
| VBool (b : bool)
| VNum (n : Z)
| VStr (s : string)
| VArr (items : list value)
| VObj (fields : list (string * value))
| VSText (key emphasis : string) (content : list value)
| VSLink (key : string) (href : value) (target : string) (content : value).
Set Elimination Schemes.

(** Induction with the hypothesis available on every element of an
    array, every field value of an object and the content of an
    element. *)
Section ValueInd.
Variable P : value -> Prop.
Hypothesis HUndef : P VUndef.
Hypothesis HNull : P VNull.
Hypothesis HBool : forall b, P (VBool b).
Hypothesis HNum : forall n, P (VNum n).
Hypothesis HStr : forall s, P (VStr s).
Hypothesis HArr : forall items, Forall P items -> P (VArr items).
Hypothesis HObj :
  forall fields, Forall (fun kv => P (snd kv)) fields -> P (VObj fields).
Hypothesis HSText :
  forall key emphasis content,
    Forall P content -> P (VSText key emphasis content).
Hypothesis HSLink :
  forall key href target content,
    P href -> P content -> P (VSLink key href target content).

Fixpoint value_ind (v : value) : P v :=
  let all :=
    fix all (l : list value) : Forall P l :=
      match l with
      | [] => Forall_nil P
      | x :: r => Forall_cons x (value_ind x) (all r)
      end in
  match v with
  | VUndef => HUndef
  | VNull => HNull
  | VBool b => HBool b
  | VNum n => HNum n
  | VStr s => HStr s
  | VArr items => HArr items (all items)
  | VObj fields =>
      HObj fields
        ((fix allf (l : list (string * value))
            : Forall (fun kv => P (snd kv)) l :=
            match l with
            | [] => Forall_nil _
            | kv :: r =>
                Forall_cons (P := fun kv => P (snd kv)) kv
                  (value_ind (snd kv)) (allf r)
            end) fields)
  | VSText key emphasis content => HSText key emphasis content (all content)
  | VSLink key href target content =>
      HSLink key href target content (value_ind href) (value_ind content)
  end.
End ValueInd.

(** [typeof v] *)
Inductive jstype := TUndefined | TObject | TBoolean | TNumber | TString.

Definition typeof (v : value) : jstype :=
  match v with
  | VUndef => TUndefined
  | VBool _ => TBoolean
  | VNum _ => TNumber
  | VStr _ => TString
  | VNull | VArr _ | VObj _ | VSText _ _ _ | VSLink _ _ _ _ => TObject
  end.

Definition isObject (v : value) : bool :=
  match typeof v with TObject => true | _ => false end.

Definition isString (v : value) : bool :=
  match typeof v with TString => true | _ => false end.

(** ToBoolean *)
Definition truthy (v : value) : bool :=
  match v with
  | VUndef | VNull => false
  | VBool b => b
  | VNum n => negb (Z.eqb n 0)
  | VStr s => negb (String.eqb s "")
  | VArr _ | VObj _ | VSText _ _ _ | VSLink _ _ _ _ => true
  end.

(** [a || b] *)
Definition or_else (a b : value) : value := if truthy a then a else b.

(** Own-property lookup in the field list of an object. *)
Fixpoint get (k : string) (fields : list (string * value)) : value :=
  match fields with
  | [] => VUndef
  | (k', v) :: rest => if String.eqb k k' then v else get k rest
  end.

(** [v.k] for a [v] that is neither [null] nor [undefined]; reading a
    property of a primitive or of an array under a name that is not one
    of its own gives [undefined].  Of a JSX element only [type] (its
    tag) and [key] are read here. *)
Definition getProp (v : value) (k : string) : value :=
  match v with
  | VObj fields => get k fields
  | VSText key _ _ =>
      if String.eqb k "type" then VStr "s-text"
      else if String.eqb k "key" then VStr key else VUndef
  | VSLink key _ _ _ =>
      if String.eqb k "type" then VStr "s-link"
      else if String.eqb k "key" then VStr key else VUndef
  | _ => VUndef
  end.

(** [v?.k] *)
Definition optProp (v : value) (k : string) : value :=
  match v with
  | VUndef | VNull => VUndef
  | _ => getProp v k
  end.

(** [v === s] for a string [s]. *)
Definition strictEqStr (v : value) (s : string) : bool :=
  match v with
  | VStr t => String.eqb t s
  | _ => false
  end.

(** [Array.isArray(v)] *)
Definition isArray (v : value) : bool :=
  match v with VArr _ => true | _ => false end.

(** Decimal rendering of an integer, as [String(n)] and template
    literals print it. *)
Definition string_of_Z (n : Z) : string := NilZero.string_of_int (Z.to_int n).
Definition string_of_nat (n : nat) : string := string_of_Z (Z.of_nat n).

(** ToString, and [Array.prototype.join], which prints [null] and
    [undefined] elements as the empty string. *)
Fixpoint ToString (v : value) : string :=
  match v with
  | VUndef => "undefined"
  | VNull => "null"
  | VBool true => "true"
  | VBool false => "false"
  | VNum n => string_of_Z n
  | VStr s => s
  | VArr items =>
      String.concat ","
        (map (fun x => match x with
                       | VUndef | VNull => ""
                       | _ => ToString x
                       end) items)
  | VObj _ | VSText _ _ _ | VSLink _ _ _ _ => "[object Object]"
  end.

Definition joinItem (v : value) : string :=
  match v with
  | VUndef | VNull => ""
  | _ => ToString v
  end.

Definition join (sep : string) (items : list value) : string :=
  String.concat sep (map joinItem items).

(** Outcome of evaluating an expression that may raise. *)
Inductive completion (A : Type) : Type :=
| Return (a : A)
| Throw.
Arguments Return {A} a.
Arguments Throw {A}.

Definition cbind {A B} (c : completion A) (k : A -> completion B)
  : completion B :=
  match c with
  | Return a => k a
  | Throw => Throw
  end.

(** The test [x && Array.isArray(x)] on the [children] property of an
    object, with the array handed to [ifArray] when it holds.  The
    lookup is written as a recursion on the field list so that
    functions defined by recursion on a node may be applied to the
    children found. *)
Definition withChildrenArray {R : Type}
    (ifArray : list value -> R) (otherwise : R)
  : list (string * value) -> R :=
  fix go (fields : list (string * value)) : R :=
    match fields with
    | [] => otherwise
    | (k, v) :: rest =>
        if String.eqb "children" k then
          match v with
          | VArr children => ifArray children
          | _ => otherwise
          end
        else go rest
    end.

End JS.
Import JS.

Notation "x <- c ;; k" := (cbind c (fun x => k))
  (at level 61, c at next level, right associativity).
Notation "' pat <- c ;; k" := (cbind c (fun x => match x with pat => k end))
  (at level 61, pat pattern, c at next level, right associativity).

(** ** String operations *)

Module Str.

(** White space removed by [trim] (tab, line feed, vertical tab, form
    feed, carriage return, space). *)
Definition isWhite (c : ascii) : bool :=
  let n := nat_of_ascii c in
  ((9 <=? n)%nat && (n <=? 13)%nat) || (n =? 32)%nat.

Fixpoint trimStart (s : string) : string :=
  match s with
  | EmptyString => EmptyString
  | String c r => if isWhite c then trimStart r else s
  end.

Fixpoint trimEnd (s : string) : string :=
  match s with
  | EmptyString => EmptyString
  | String c r =>
      match trimEnd r with
      | EmptyString => if isWhite c then EmptyString else String c EmptyString
      | r' => String c r'
      end
  end.

Definition trim (s : string) : string := trimEnd (trimStart s).

Definition upperChar (c : ascii) : ascii :=
  let n := nat_of_ascii c in
  if (97 <=? n)%nat && (n <=? 122)%nat then ascii_of_nat (n - 32) else c.

Fixpoint toUpperCase (s : string) : string :=
  match s with
  | EmptyString => EmptyString
  | String c r => String (upperChar c) (toUpperCase r)
  end.

(** [s.split(sep)] for a one-character separator: never the empty
    list, and [[""]] on the empty string. *)
Fixpoint split (sep : ascii) (s : string) : list string :=
  match s with
  | EmptyString => [EmptyString]
  | String c r =>
      if Ascii.eqb c sep then EmptyString :: split sep r
      else match split sep r with
           | piece :: pieces => String c piece :: pieces
           | [] => [String c EmptyString]
           end
  end.

(** [s.startsWith(p)] *)
Fixpoint startsWith (s p : string) {struct p} : bool :=
  match p with
  | EmptyString => true
  | String c p' =>
      match s with
      | EmptyString => false
      | String d s' => Ascii.eqb c d && startsWith s' p'
      end
  end.

(** [s.includes(sub)] *)
Fixpoint includes (s sub : string) : bool :=
  startsWith s sub ||
  match s with
  | EmptyString => false
  | String _ r => includes r sub
  end.

End Str.
Import Str.

(** ** Settings accessors (lines 11-51) *)

Definition settings_t := list (string * value).

(** [node.value || node.text || ''], the text of a node. *)
Definition nodeText (fields : list (string * value)) : value :=
  or_else (get "value" fields) (or_else (get "text" fields) (VStr "")).

Fixpoint extractFromNode (node : value) : value :=
  if negb (truthy node) then VStr ""
  else
    match node with
    | VStr _ => node
    | VObj fields =>
        if strictEqStr (get "type" fields) "text" then nodeText fields
        else if strictEqStr (get "type" fields) "root"
                && truthy (get "children" fields)
        then
          (* extractFromChildren(node.children) *)
          withChildrenArray
            (fun children => VStr (join "" (map extractFromNode children)))
            (VStr "") fields
        else
          (* node.children && Array.isArray(node.children) *)
          withChildrenArray
            (fun children => VStr (join "" (map extractFromNode children)))
            (VStr "") fields
    | VArr _ | VSText _ _ _ | VSLink _ _ _ _ =>
        (* an object whose [type] is not 'text' or 'root' and that has
           no [children] *)
        VStr ""
    | _ => VStr "" (* typeof node !== 'object' *)
    end.

Definition extractFromChildren (children : value) : value :=
  match children with
  | VArr items => VStr (join "" (map extractFromNode items))
  | _ => VStr ""
  end.

Definition extractTextFromRichText (richTextObj : value) : value :=
  if isString richTextObj then richTextObj
  else if negb (truthy richTextObj) || negb (isObject richTextObj) then VStr ""
  else extractFromNode richTextObj.

Definition getStringSetting (settings : settings_t) (key : string)
    (defaultValue : string) : completion string :=
  let value := get key settings in
  match value with
  | VNull | VUndef => Return defaultValue
  | VStr s => Return s
  | VBool _ | VNum _ => Return (ToString value)
  | _ =>
      let extracted := extractTextFromRichText value in
      if truthy extracted then
        match extracted with
        | VStr s =>
            Return (if negb (String.eqb (trim s) "") then s else defaultValue)
        | _ => Throw (* extracted.trim is not a function *)
        end
      else Return defaultValue
  end.

Definition getBooleanSetting (settings : settings_t) (key : string)
    (defaultValue : bool) : bool :=
  match get key settings with
  | VBool b => b
  | _ => defaultValue
  end.


(** ** Rich-text renderer (lines 66-158) *)

(** Computations over the counter [nodeIndex]. *)
Definition M (A : Type) : Type := nat -> completion (A * nat).

Definition ret {A} (a : A) : M A := fun i => Return (a, i).

Definition bind {A B} (m : M A) (k : A -> M B) : M B :=
  fun i =>
    match m i with
    | Return (a, i') => k a i'
    | Throw => Throw
    end.

Definition lift {A} (c : completion A) : M A :=
  fun i => cbind c (fun a => Return (a, i)).

(** [nodeIndex++] *)
Definition postIncr : M nat := fun i => Return (i, S i).

(** [items.map((x, i) => f(x, i))]; [mapFrom f k] numbers the items
    from [k]. *)
Definition mapFrom {A B} (f : A -> nat -> M B) : nat -> list A -> M (list B) :=
  fix go (k : nat) (items : list A) : M (list B) :=
    match items with
    | [] => ret []
    | x :: rest =>
        bind (f x k) (fun y =>
        bind (go (S k) rest) (fun ys => ret (y :: ys)))
    end.

Definition mapWithIndex {A B} (f : A -> nat -> M B) : list A -> M (list B) :=
  mapFrom f 0.

(** [url?.startsWith(p)]; calling [startsWith] on a value that is not
    a string raises. *)
Definition optStartsWith (url : value) (p : string) : completion value :=
  match url with
  | VUndef | VNull => Return VUndef
  | VStr s => Return (VBool (startsWith s p))
  | _ => Throw
  end.

Fixpoint convertNode (node : value) (keyPrefix : string) : M value :=
  if negb (truthy node) then ret VNull
  else
    match node with
    | VStr _ => ret node
    | VObj fields =>
        let type := get "type" fields in
        if strictEqStr type "text" then ret (nodeText fields)
        else if strictEqStr type "bold" then
          bind
            (withChildrenArray
               (fun children =>
                  bind
                    (mapWithIndex
                       (fun child i =>
                          convertNode child
                            (keyPrefix ++ "-bold-" ++ string_of_nat i))
                       children)
                    (fun converted => ret (filter truthy converted)))
               (ret [nodeText fields]) fields)
            (fun boldContent =>
          bind postIncr (fun n =>
          let boldKey := ("bold-" ++ keyPrefix ++ "-" ++ string_of_nat n)%string in
          ret (VSText boldKey "bold" boldContent)))
        else if strictEqStr type "italic" then
          bind
            (withChildrenArray
               (fun children =>
                  bind
                    (mapWithIndex
                       (fun child i =>
                          convertNode child
                            (keyPrefix ++ "-italic-" ++ string_of_nat i))
                       children)
                    (fun converted => ret (filter truthy converted)))
               (ret [nodeText fields]) fields)
            (fun italicContent =>
          bind postIncr (fun n =>
          let italicKey := ("italic-" ++ keyPrefix ++ "-" ++ string_of_nat n)%string in
          ret (VSText italicKey "italic" italicContent)))
        else if strictEqStr type "link" then
          let url := get "url" fields in
          bind
            (withChildrenArray
               (fun children =>
                  bind
                    (mapWithIndex
                       (fun child i =>
                          convertNode child
                            (keyPrefix ++ "-link-child-" ++ string_of_nat i))
                       children)
                    (fun converted =>
                       ret (VStr (join "" (filter truthy converted)))))
               (ret (or_else (get "value" fields)
                       (or_else (get "text" fields)
                          (or_else url (VStr "")))))
               fields)
            (fun linkText =>
          bind postIncr (fun n =>
          let linkKey := ("link-" ++ keyPrefix ++ "-" ++ string_of_nat n)%string in
          bind (lift (optStartsWith url "http")) (fun isExternal =>
          ret (VSLink linkKey
                 (or_else url (VStr "#"))
                 (if truthy isExternal then "_blank" else "_self")
                 (or_else linkText (or_else url (VStr "link")))))))
        else
          withChildrenArray
            (fun children =>
               bind
                 (mapWithIndex
                    (fun child i =>
                       convertNode child (keyPrefix ++ "-" ++ string_of_nat i))
                    children)
                 (fun converted => ret (VArr (filter truthy converted))))
            (ret VNull) fields
    | VArr _ | VSText _ _ _ | VSLink _ _ _ _ =>
        (* an object whose [type] is none of the four and that has no
           [children] *)
        ret VNull
    | _ => ret (VStr (ToString node)) (* typeof node !== 'object' *)
    end.

Definition isBlank (item : value) : bool :=
  (* item === null || item === undefined || item === '' *)
  match item with
  | VNull | VUndef => true
  | VStr s => String.eqb s ""
  | _ => false
  end.

Fixpoint flatten (arr : value) : list value :=
  match arr with
  | VArr items =>
      fold_left
        (fun acc item =>
           if isBlank item then acc
           else if isArray item then acc ++ flatten item
           else acc ++ [item])
        items []
  | _ => [arr]
  end.

Definition defaultLabel : string := "I agree to the terms and conditions".

(** Lines written by [console.log]. *)
Definition console := list (string * list value).

Definition parseRichTextLabel (richTextObj : value) (log : console)
  : completion (list value * console) :=
  if negb (truthy richTextObj) || negb (isObject richTextObj) then
    Return (if isString richTextObj then [richTextObj]
            else [VStr defaultLabel],
            log)
  else
    cbind (convertNode richTextObj "label" 0) (fun '(result, _) =>
    let flattened :=
      filter (fun item => negb (isBlank item)) (flatten result) in
    let log' := log ++ [("Parsed rich text label elements:", flattened)] in
    Return (if (0 <? List.length flattened)%nat then flattened
            else [VStr defaultLabel],
            log')).


(** ** Visibility (lines 193-244) *)

(** [line?.merchandise?.id || line?.merchandise?.variant?.id ||
    line?.variant?.id || ''] *)
Definition lineVariantId (line : value) : value :=
  or_else (optProp (optProp line "merchandise") "id")
    (or_else (optProp (optProp (optProp line "merchandise") "variant") "id")
       (or_else (optProp (optProp line "variant") "id") (VStr ""))).

Definition cartVariantIds (cartLines : list value) : list value :=
  filter truthy (map lineVariantId cartLines).

(** [variantSelection.split(',').map(v => v.trim()).filter(v => v.length > 0)] *)
Definition selectedVariants (variantSelection : string) : list string :=
  filter (fun v => (0 <? String.length v)%nat)
    (map trim (split "," variantSelection)).

(** [cartVariantId === selectedVariant ||
     cartVariantId.includes(selectedVariant) ||
     selectedVariant.includes(cartVariantId)].
    On an array [includes] is membership and the array is printed for
    [String.prototype.includes]; a number, a boolean or an object has
    no [includes], and the call raises. *)
Definition variantMatches (cartVariantId : value) (selectedVariant : string)
  : completion bool :=
  if strictEqStr cartVariantId selectedVariant then Return true
  else
    match cartVariantId with
    | VStr id =>
        Return (includes id selectedVariant || includes selectedVariant id)
    | VArr items =>
        Return (existsb (fun x => strictEqStr x selectedVariant) items
                || includes selectedVariant (ToString cartVariantId))
    | _ => Throw
    end.

(** [items.some(f)] and [items.every(f)] for a callback that may raise. *)
Fixpoint some {A} (f : A -> completion bool) (items : list A)
  : completion bool :=
  match items with
  | [] => Return false
  | x :: rest => b <- f x ;; if b then Return true else some f rest
  end.

Fixpoint every {A} (f : A -> completion bool) (items : list A)
  : completion bool :=
  match items with
  | [] => Return true
  | x :: rest => b <- f x ;; if b then every f rest else Return false
  end.

(** Lines 200-233: the value of [variantMatch]. *)
Definition variantFilter (variantSelection : string) (matchAnyVariant : bool)
    (cartLines : list value) : completion bool :=
  if negb (String.eqb variantSelection "") then
    let selected := selectedVariants variantSelection in
    if (0 <? List.length selected)%nat then
      let ids := cartVariantIds cartLines in
      if matchAnyVariant then
        some (fun selectedVariant =>
                some (fun cartVariantId =>
                        variantMatches cartVariantId selectedVariant) ids)
          selected
      else
        every (fun selectedVariant =>
                 some (fun cartVariantId =>
                         variantMatches cartVariantId selectedVariant) ids)
          selected
    else Return true
  else Return true.

(** [countrySelection.split(',').map(c => c.trim().toUpperCase()).filter(c => c)] *)
Definition selectedCountries (countrySelection : string) : list string :=
  filter (fun c => negb (String.eqb c ""))
    (map (fun c => toUpperCase (trim c)) (split "," countrySelection)).

(** [arr.includes(s)] on an array of strings. *)
Definition arrayIncludes (arr : list string) (s : string) : bool :=
  existsb (String.eqb s) arr.

(** Lines 235-241: the value of [countryMatch]. *)
Definition countryFilter (countrySelection countryCode : string) : bool :=
  if negb (String.eqb countrySelection "") && negb (String.eqb countryCode "")
  then
    let selected := selectedCountries countrySelection in
    (List.length selected =? 0)%nat
    || arrayIncludes selected (toUpperCase countryCode)
  else true.

Definition shouldShowCheckbox (settings : settings_t)
    (variantSelection : string) (matchAnyVariant : bool)
    (cartLines : list value) (countryCode : string) : completion bool :=
  countrySelection <- getStringSetting settings "country_selection" "" ;;
  variantMatch <- variantFilter variantSelection matchAnyVariant cartLines ;;
  let countryMatch := countryFilter countrySelection countryCode in
  Return (variantMatch && countryMatch).

(** ** Buyer-journey intercept (lines 249-278) and the component *)

(** State held by the hooks of the component.  [cartLines] starts as
    the empty array and the source has no call of [setCartLines];
    [countryCode] starts empty and follows the shipping address. *)
Record state : Type := {
  isChecked : bool;
  showError : bool;
  cartLines : list value;
  countryCode : string
}.

Definition setShowError (b : bool) (st : state) : state :=
  {| isChecked := isChecked st; showError := b;
     cartLines := cartLines st; countryCode := countryCode st |}.

Inductive behavior := allow | block.

(** What the handler returns.  [perform] is the callback the host
    calls with the final result of the interception. *)
Record decision : Type := {
  behavior_of : behavior;
  reason : option string;
  errors : list string;
  perform : option (behavior -> state -> state)
}.

Definition interceptHandler (shouldShow checkboxRequired isChecked : bool)
    (blockErrorMessage : string) (canBlockProgress : bool) : decision :=
  if negb shouldShow then
    {| behavior_of := allow; reason := None; errors := []; perform := None |}
  else if canBlockProgress && checkboxRequired && negb isChecked then
    {| behavior_of := block;
       reason := Some "Checkbox not checked";
       errors := [blockErrorMessage];
       perform :=
         Some (fun result st =>
                 match result with
                 | block => setShowError true st
                 | allow => st
                 end) |}
  else
    {| behavior_of := allow; reason := None; errors := [];
       perform := Some (fun _ st => setShowError false st) |}.

(** The host finalises a decision by calling its [perform], when it has
    one, with the final result. *)
Definition finalize (d : decision) (result : behavior) (st : state) : state :=
  match perform d with
  | Some f => f result st
  | None => st
  end.

(** What a render of the component hands to the host: the view, and
    the intercept handler when one was registered. *)
Inductive view : Type :=
| NoView
| WarningBanner
| CheckboxView (checked defaultChecked required : bool)
    (error : option string) (label : list value).

Record rendered : Type := {
  view_of : view;
  intercept : option (bool -> decision)
}.

(** The part of the host the component reads besides the settings. *)
Record host : Type := { canUpdateAttributes : bool }.

Definition Extension (settings : settings_t) (h : host) (st : state)
    (log : console) : completion (rendered * console) :=
  let hideCheckbox := getBooleanSetting settings "hide_checkbox" false in
  let defaultChecked :=
    getBooleanSetting settings "checkbox_default_checked" false in
  let checkboxRequired := getBooleanSetting settings "checkbox_required" false in
  blockErrorMessage <-
    getStringSetting settings "block_error_message"
      "Please accept the terms to continue" ;;
  variantSelection <- getStringSetting settings "variant_selection" "" ;;
  let matchAnyVariant := getBooleanSetting settings "match_any_variant" true in
  if hideCheckbox then
    Return ({| view_of := NoView; intercept := None |}, log)
  else if negb (canUpdateAttributes h) then
    Return ({| view_of := WarningBanner; intercept := None |}, log)
  else
    shouldShow <-
      shouldShowCheckbox settings variantSelection matchAnyVariant
        (cartLines st) (countryCode st) ;;
    let handler :=
      interceptHandler shouldShow checkboxRequired (isChecked st)
        blockErrorMessage in
    if negb shouldShow then
      Return ({| view_of := NoView; intercept := Some handler |}, log)
    else
      let rawCheckboxLabel := get "checkbox_label" settings in
      let log1 := log ++ [("Raw checkbox label:", [rawCheckboxLabel])] in
      '(parsedLabelElements, log2) <- parseRichTextLabel rawCheckboxLabel log1 ;;
      let log3 := log2 ++ [("Parsed label elements:", parsedLabelElements)] in
      Return ({| view_of :=
                   CheckboxView (isChecked st) defaultChecked checkboxRequired
                     (if showError st then Some blockErrorMessage else None)
                     parsedLabelElements;
                 intercept := Some handler |},
              log3).

(** The state of the hooks at the first render: [useState(defaultChecked)],
    [useState(false)], [useState([])], [useState('')]. *)
Definition initialState (settings : settings_t) : state :=
  {| isChecked := getBooleanSetting settings "checkbox_default_checked" false;
     showError := false;
     cartLines := [];
     countryCode := "" |}.

(** What the host does with a progression attempt after a render: it
    asks the registered handler, and proceeds when there is none. *)
Definition progression (r : completion (rendered * console))
    (canBlockProgress : bool) : behavior :=
  match r with
  | Return (out, _) =>
      match intercept out with
      | Some handler => behavior_of (handler canBlockProgress)
      | None => allow
      end
  | Throw => allow
  end.

Definition rendersCheckbox (r : completion (rendered * console)) : bool :=
  match r with
  | Return (out, _) =>
      match view_of out with CheckboxView _ _ _ _ _ => true | _ => false end
  | Throw => false
  end.


(** ** The toggle handler (lines 290-303) *)

(** Own keys of the field list of an object. *)
Definition hasOwn (k : string) (fields : list (string * value)) : bool :=
  existsb (fun kv => String.eqb k (fst kv)) fields.

(** ['k' in v] for a name [k] that is neither an index nor [length]:
    it raises unless [v] is an object.  Of a JSX element only [type]
    and [key] are modelled. *)
Definition inOp (k : string) (v : value) : completion bool :=
  match v with
  | VObj fields => Return (hasOwn k fields)
  | VArr _ => Return false
  | VSText _ _ _ | VSLink _ _ _ _ =>
      Return (String.eqb k "type" || String.eqb k "key")
  | _ => Throw
  end.

(** [typeof v === 'boolean'] *)
Definition isBoolean (v : value) : bool :=
  match typeof v with TBoolean => true | _ => false end.

Definition setIsChecked (b : bool) (st : state) : state :=
  {| isChecked := b; showError := showError st;
     cartLines := cartLines st; countryCode := countryCode st |}.

(** The value of [checked] at line 302. *)
Definition eventChecked (event : value) : completion bool :=
  if truthy event then
    hasChecked <- inOp "checked" event ;;
    if hasChecked && isBoolean (getProp event "checked") then
      Return (truthy (getProp event "checked"))
    else
      hasTarget <- inOp "target" event ;;
      if hasTarget && truthy (getProp event "target") then
        let target := getProp event "target" in
        targetHasChecked <- inOp "checked" target ;;
        if targetHasChecked && isBoolean (getProp target "checked") then
          Return (truthy (getProp target "checked"))
        else Return false
      else Return false
  else Return false.

Definition handleCheckboxChange (event : value) (st : state)
  : completion state :=
  checked <- eventChecked event ;;
  Return (setIsChecked checked st).

(** ** The shipping address (lines 163-178) *)

Definition setCountryCode (code : string) (st : state) : state :=
  {| isChecked := isChecked st; showError := showError st;
     cartLines := cartLines st; countryCode := code |}.

(** [if (address?.countryCode) setCountryCode(address.countryCode)],
    the callback given to [shippingAddress.subscribe].  The country
    codes of the host are strings; on a truthy country code that is
    not a string the state would leave the model, and the result is
    [None]. *)
Definition addressUpdate (address : value) (st : state) : option state :=
  let code := optProp address "countryCode" in
  if truthy code then
    match code with
    | VStr c => Some (setCountryCode c st)
    | _ => None
    end
  else Some st.

(** The first reading, at mount:
    [shopify.shippingAddress?.value?.countryCode]. *)
Definition mountAddress (shippingAddress : value) (st : state)
  : option state :=
  addressUpdate (optProp shippingAddress "value") st.

(** The updates delivered by the subscription, in order. *)
Fixpoint addressUpdates (addresses : list value) (st : state)
  : option state :=
  match addresses with
  | [] => Some st
  | address :: rest =>
      match addressUpdate address st with
      | Some st' => addressUpdates rest st'
      | None => None
      end
  end.

(** ** Conversions to string that raise *)

(** [items.map(f)] for a callback that may raise. *)
Definition mapC {A B} (f : A -> completion B)
  : list A -> completion (list B) :=
  fix go (items : list A) : completion (list B) :=
    match items with
    | [] => Return []
    | x :: rest => y <- f x ;; ys <- go rest ;; Return (y :: ys)
    end.

(** [String(v)] and [Array.prototype.join] with the case in which they
    raise on a JSON value: an object with an own [toString] property,
    which cannot be a function, has no primitive value (TypeError).
    [ToString] and [join] above print such an object as they print any
    other, "[object Object]". *)
Fixpoint ToStringC (v : value) : completion string :=
  match v with
  | VObj fields =>
      if hasOwn "toString" fields then Throw else Return "[object Object]"
  | VArr items =>
      printed <- mapC (fun x => match x with
                                | VUndef | VNull => Return ""
                                | _ => ToStringC x
                                end) items ;;
      Return (String.concat "," printed)
  | _ => Return (ToString v)
  end.

Definition joinItemC (v : value) : completion string :=
  match v with
  | VUndef | VNull => Return ""
  | _ => ToStringC v
  end.

Definition joinC (sep : string) (items : list value) : completion string :=
  printed <- mapC joinItemC items ;;
  Return (String.concat sep printed).

(** ** The code on every string and every value

    The definitions above read strings as ASCII strings and print every
    object: they are the code on ASCII strings and on values without an
    own [toString] property.  The definitions of this module are the
    same lines of the source without the two restrictions.
    - [String.prototype.trim] and [String.prototype.toUpperCase] are
      parameters, [trimFn] and [upperFn]: [trim] also removes the white
      space outside ASCII (no-break space, byte order mark, the Unicode
      space separators) and [toUpperCase] also maps the letters outside
      ASCII, and nothing is assumed of them here.
    - [join] is [joinC], which raises where the engine's does.
    What differs from the definitions above is at the calls of [trim],
    [toUpperCase], [join] and [String.prototype.includes] on an
    array. *)

Module Exact.
Section Library.
Variable trimFn : string -> string.
Variable upperFn : string -> string.

(** Lines 13-35. *)
Fixpoint extractFromNode (node : value) : completion value :=
  if negb (truthy node) then Return (VStr "")
  else
    match node with
    | VStr _ => Return node
    | VObj fields =>
        if strictEqStr (get "type" fields) "text" then
          Return (nodeText fields)
        else if strictEqStr (get "type" fields) "root"
                && truthy (get "children" fields)
        then
          (* extractFromChildren(node.children) *)
          withChildrenArray
            (fun children =>
               texts <- mapC extractFromNode children ;;
               text <- joinC "" texts ;;
               Return (VStr text))
            (Return (VStr "")) fields
        else
          (* node.children && Array.isArray(node.children) *)
          withChildrenArray
            (fun children =>
               texts <- mapC extractFromNode children ;;
               text <- joinC "" texts ;;
               Return (VStr text))
            (Return (VStr "")) fields
    | VArr _ | VSText _ _ _ | VSLink _ _ _ _ =>
        (* an object whose [type] is not 'text' or 'root' and that has
           no [children] *)
        Return (VStr "")
    | _ => Return (VStr "") (* typeof node !== 'object' *)
    end.

Definition extractTextFromRichText (richTextObj : value) : completion value :=
  if isString richTextObj then Return richTextObj
  else if negb (truthy richTextObj) || negb (isObject richTextObj)
  then Return (VStr "")
  else extractFromNode richTextObj.

(** Lines 37-46. *)
Definition getStringSetting (settings : settings_t) (key : string)
    (defaultValue : string) : completion string :=
  let value := get key settings in
  match value with
  | VNull | VUndef => Return defaultValue
  | VStr s => Return s
  | VBool _ | VNum _ => Return (ToString value)
  | _ =>
      extracted <- extractTextFromRichText value ;;
      if truthy extracted then
        match extracted with
        | VStr s =>
            Return (if negb (String.eqb (trimFn s) "") then s else defaultValue)
        | _ => Throw (* extracted.trim is not a function *)
        end
      else Return defaultValue
  end.

(** Lines 73-141. *)
Fixpoint convertNode (node : value) (keyPrefix : string) : M value :=
  if negb (truthy node) then ret VNull
  else
    match node with
    | VStr _ => ret node
    | VObj fields =>
        let type := get "type" fields in
        if strictEqStr type "text" then ret (nodeText fields)
        else if strictEqStr type "bold" then
          bind
            (withChildrenArray
               (fun children =>
                  bind
                    (mapWithIndex
                       (fun child i =>
                          convertNode child
                            (keyPrefix ++ "-bold-" ++ string_of_nat i))
                       children)
                    (fun converted => ret (filter truthy converted)))
               (ret [nodeText fields]) fields)
            (fun boldContent =>
          bind postIncr (fun n =>
          let boldKey := ("bold-" ++ keyPrefix ++ "-" ++ string_of_nat n)%string in
          ret (VSText boldKey "bold" boldContent)))
        else if strictEqStr type "italic" then
          bind
            (withChildrenArray
               (fun children =>
                  bind
                    (mapWithIndex
                       (fun child i =>
                          convertNode child
                            (keyPrefix ++ "-italic-" ++ string_of_nat i))
                       children)
                    (fun converted => ret (filter truthy converted)))
               (ret [nodeText fields]) fields)
            (fun italicContent =>
          bind postIncr (fun n =>
          let italicKey := ("italic-" ++ keyPrefix ++ "-" ++ string_of_nat n)%string in
          ret (VSText italicKey "italic" italicContent)))
        else if strictEqStr type "link" then
          let url := get "url" fields in
          bind
            (withChildrenArray
               (fun children =>
                  bind
                    (mapWithIndex
                       (fun child i =>
                          convertNode child
                            (keyPrefix ++ "-link-child-" ++ string_of_nat i))
                       children)
                    (fun converted =>
                       bind (lift (joinC "" (filter truthy converted)))
                         (fun joined => ret (VStr joined))))
               (ret (or_else (get "value" fields)
                       (or_else (get "text" fields)
                          (or_else url (VStr "")))))
               fields)
            (fun linkText =>
          bind postIncr (fun n =>
          let linkKey := ("link-" ++ keyPrefix ++ "-" ++ string_of_nat n)%string in
          bind (lift (optStartsWith url "http")) (fun isExternal =>
          ret (VSLink linkKey
                 (or_else url (VStr "#"))
                 (if truthy isExternal then "_blank" else "_self")
                 (or_else linkText (or_else url (VStr "link")))))))
        else
          withChildrenArray
            (fun children =>
               bind
                 (mapWithIndex
                    (fun child i =>
                       convertNode child (keyPrefix ++ "-" ++ string_of_nat i))
                    children)
                 (fun converted => ret (VArr (filter truthy converted))))
            (ret VNull) fields
    | VArr _ | VSText _ _ _ | VSLink _ _ _ _ =>
        (* an object whose [type] is none of the four and that has no
           [children] *)
        ret VNull
    | _ => ret (VStr (ToString node)) (* typeof node !== 'object' *)
    end.

(** Lines 66-158. *)
Definition parseRichTextLabel (richTextObj : value) (log : console)
  : completion (list value * console) :=
  if negb (truthy richTextObj) || negb (isObject richTextObj) then
    Return (if isString richTextObj then [richTextObj]
            else [VStr defaultLabel],
            log)
  else
    cbind (convertNode richTextObj "label" 0) (fun '(result, _) =>
    let flattened :=
      filter (fun item => negb (isBlank item)) (flatten result) in
    let log' := log ++ [("Parsed rich text label elements:", flattened)] in
    Return (if (0 <? List.length flattened)%nat then flattened
            else [VStr defaultLabel],
            log')).

(** Lines 217-219; [selectedVariant.includes(cartVariantId)] prints an
    array before it searches for it. *)
Definition variantMatches (cartVariantId : value) (selectedVariant : string)
  : completion bool :=
  if strictEqStr cartVariantId selectedVariant then Return true
  else
    match cartVariantId with
    | VStr id =>
        Return (includes id selectedVariant || includes selectedVariant id)
    | VArr items =>
        if existsb (fun x => strictEqStr x selectedVariant) items
        then Return true
        else
          printed <- ToStringC cartVariantId ;;
          Return (includes selectedVariant printed)
    | _ => Throw
    end.

(** [variantSelection.split(',').map(v => v.trim()).filter(v => v.length > 0)] *)
Definition selectedVariants (variantSelection : string) : list string :=
  filter (fun v => (0 <? String.length v)%nat)
    (map trimFn (split "," variantSelection)).

(** Lines 200-233: the value of [variantMatch]. *)
Definition variantFilter (variantSelection : string) (matchAnyVariant : bool)
    (cartLines : list value) : completion bool :=
  if negb (String.eqb variantSelection "") then
    let selected := selectedVariants variantSelection in
    if (0 <? List.length selected)%nat then
      let ids := cartVariantIds cartLines in
      if matchAnyVariant then
        some (fun selectedVariant =>
                some (fun cartVariantId =>
                        variantMatches cartVariantId selectedVariant) ids)
          selected
      else
        every (fun selectedVariant =>
                 some (fun cartVariantId =>
                         variantMatches cartVariantId selectedVariant) ids)
          selected
    else Return true
  else Return true.

(** [countrySelection.split(',').map(c => c.trim().toUpperCase()).filter(c => c)] *)
Definition selectedCountries (countrySelection : string) : list string :=
  filter (fun c => negb (String.eqb c ""))
    (map (fun c => upperFn (trimFn c)) (split "," countrySelection)).

(** Lines 235-241: the value of [countryMatch]. *)
Definition countryFilter (countrySelection countryCode : string) : bool :=
  if negb (String.eqb countrySelection "") && negb (String.eqb countryCode "")
  then
    let selected := selectedCountries countrySelection in
    (List.length selected =? 0)%nat
    || arrayIncludes selected (upperFn countryCode)
  else true.

(** Lines 193-244. *)
Definition shouldShowCheckbox (settings : settings_t)
    (variantSelection : string) (matchAnyVariant : bool)
    (cartLines : list value) (countryCode : string) : completion bool :=
  countrySelection <- getStringSetting settings "country_selection" "" ;;
  variantMatch <- variantFilter variantSelection matchAnyVariant cartLines ;;
  let countryMatch := countryFilter countrySelection countryCode in
  Return (variantMatch && countryMatch).

(** Lines 10-321, a render of the component. *)
Definition Extension (settings : settings_t) (h : host) (st : state)
    (log : console) : completion (rendered * console) :=
  let hideCheckbox := getBooleanSetting settings "hide_checkbox" false in
  let defaultChecked :=
    getBooleanSetting settings "checkbox_default_checked" false in
  let checkboxRequired := getBooleanSetting settings "checkbox_required" false in
  blockErrorMessage <-
    getStringSetting settings "block_error_message"
      "Please accept the terms to continue" ;;
  variantSelection <- getStringSetting settings "variant_selection" "" ;;
  let matchAnyVariant := getBooleanSetting settings "match_any_variant" true in
  if hideCheckbox then
    Return ({| view_of := NoView; intercept := None |}, log)
  else if negb (canUpdateAttributes h) then
    Return ({| view_of := WarningBanner; intercept := None |}, log)
  else
    shouldShow <-
      shouldShowCheckbox settings variantSelection matchAnyVariant
        (cartLines st) (countryCode st) ;;
    let handler :=
      interceptHandler shouldShow checkboxRequired (isChecked st)
        blockErrorMessage in
    if negb shouldShow then
      Return ({| view_of := NoView; intercept := Some handler |}, log)
    else
      let rawCheckboxLabel := get "checkbox_label" settings in
      let log1 := log ++ [("Raw checkbox label:", [rawCheckboxLabel])] in
      '(parsedLabelElements, log2) <- parseRichTextLabel rawCheckboxLabel log1 ;;
      let log3 := log2 ++ [("Parsed label elements:", parsedLabelElements)] in
      Return ({| view_of :=
                   CheckboxView (isChecked st) defaultChecked checkboxRequired
                     (if showError st then Some blockErrorMessage else None)
                     parsedLabelElements;
                 intercept := Some handler |},
              log3).

End Library.
End Exact.

(** ** Notions used to state the properties *)

(** The result of a computation that returned, mapped through [f]. *)
Definition cmap {A B} (f : A -> B) (c : completion A) : completion B :=
  match c with
  | Return a => Return (f a)
  | Throw => Throw
  end.



(** [RichText node s]: [node] is a node of a rich-text document and [s]
    is the concatenation of the values of its [text] nodes in document
    order.  A [text] node holds a string; any other node either holds
    an array of child nodes ([bold], [italic], [link], [root],
    [paragraph] and other containers) or holds none and carries no
    text. *)
Unset Elimination Schemes.
Inductive RichText : value -> string -> Prop :=
| RichText_text fields s :
    get "type" fields = VStr "text" ->
    nodeText fields = VStr s ->
    RichText (VObj fields) s
| RichText_children fields children texts :
    strictEqStr (get "type" fields) "text" = false ->
    get "children" fields = VArr children ->
    Forall2 RichText children texts ->
    RichText (VObj fields) (String.concat "" texts)
| RichText_leaf fields :
    strictEqStr (get "type" fields) "text" = false ->
    isArray (get "children" fields) = false ->
    RichText (VObj fields) "".

Section RichTextInd.
Variable P : value -> string -> Prop.
Hypothesis Htext :
  forall fields s,
    get "type" fields = VStr "text" -> nodeText fields = VStr s ->
    P (VObj fields) s.
Hypothesis Hchildren :
  forall fields children texts,
    strictEqStr (get "type" fields) "text" = false ->
    get "children" fields = VArr children ->
    Forall2 RichText children texts ->
    Forall2 P children texts ->
    P (VObj fields) (String.concat "" texts).
Hypothesis Hleaf :
  forall fields,
    strictEqStr (get "type" fields) "text" = false ->
    isArray (get "children" fields) = false ->
    P (VObj fields) "".

Fixpoint RichText_ind (v : value) (s : string) (H : RichText v s) : P v s :=
  match H with
  | RichText_text fields s Ht Hv => Htext fields s Ht Hv
  | RichText_children fields children texts Ht Hc Hall =>
      Hchildren fields children texts Ht Hc Hall
        ((fix all (l : list value) (ts : list string)
              (Hl : Forall2 RichText l ts) : Forall2 P l ts :=
            match Hl with
            | Forall2_nil _ => Forall2_nil P
            | Forall2_cons x t Hx Hr =>
                Forall2_cons x t (RichText_ind x t Hx) (all _ _ Hr)
            end) children texts Hall)
  | RichText_leaf fields Ht Hc => Hleaf fields Ht Hc
  end.
End RichTextInd.

(** A node of a document in which every leaf is a [text] node and every
    other node is a plain container: neither [bold], nor [italic], nor
    [link]. *)
Inductive TextOnly : value -> Prop :=
| TextOnly_text fields s :
    get "type" fields = VStr "text" ->
    nodeText fields = VStr s ->
    TextOnly (VObj fields)
| TextOnly_container fields children :
    strictEqStr (get "type" fields) "text" = false ->
    strictEqStr (get "type" fields) "bold" = false ->
    strictEqStr (get "type" fields) "italic" = false ->
    strictEqStr (get "type" fields) "link" = false ->
    get "children" fields = VArr children ->
    Forall TextOnly children ->
    TextOnly (VObj fields).
Set Elimination Schemes.

Section TextOnlyInd.
Variable P : value -> Prop.
Hypothesis Htext :
  forall fields s,
    get "type" fields = VStr "text" -> nodeText fields = VStr s ->
    P (VObj fields).
Hypothesis Hcontainer :
  forall fields children,
    strictEqStr (get "type" fields) "text" = false ->
    strictEqStr (get "type" fields) "bold" = false ->
    strictEqStr (get "type" fields) "italic" = false ->
    strictEqStr (get "type" fields) "link" = false ->
    get "children" fields = VArr children ->
    Forall TextOnly children ->
    Forall P children ->
    P (VObj fields).

Fixpoint TextOnly_ind (v : value) (H : TextOnly v) : P v :=
  match H with
  | TextOnly_text fields s Ht Hv => Htext fields s Ht Hv
  | TextOnly_container fields children Ht Hb Hi Hl Hc Hall =>
      Hcontainer fields children Ht Hb Hi Hl Hc Hall
        ((fix all (l : list value) (Hl : Forall TextOnly l) : Forall P l :=
            match Hl with
            | Forall_nil _ => Forall_nil P
            | Forall_cons x Hx Hr =>
                Forall_cons x (TextOnly_ind x Hx) (all _ Hr)
            end) children Hall)
  end.
End TextOnlyInd.

(** Every character of [s] is white space. *)
Fixpoint allWhite (s : string) : bool :=
  match s with
  | EmptyString => true
  | String c r => isWhite c && allWhite r
  end.

(** The fragments the renderer keeps of a converted value: its
    flattening without the blank entries. *)
Definition fragments (v : value) : list value :=
  filter (fun item => negb (isBlank item)) (flatten v).

(** [rendersText r s]: the converted value [r] is a string or an array
    whose kept fragments join to [s], and there are none when [s] is
    empty. *)
Definition rendersText (r : value) (s : string) : Prop :=
  isString r || isArray r = true
  /\ join "" (fragments r) = s
  /\ (s = "" -> fragments r = []).

(** A url the renderer can test: absent, [null] or a string. *)
Definition isUrl (v : value) : bool :=
  match v with
  | VUndef | VNull | VStr _ => true
  | _ => false
  end.

(** [SafeLinks node]: every [link] node met when [node] is converted
    has a url that is absent, [null] or a string. *)
Unset Elimination Schemes.
Inductive SafeLinks : value -> Prop :=
| SafeLinks_plain v :
    (forall fields, v <> VObj fields) ->
    SafeLinks v
| SafeLinks_children fields children :
    (strictEqStr (get "type" fields) "link" = true ->
     isUrl (get "url" fields) = true) ->
    get "children" fields = VArr children ->
    Forall SafeLinks children ->
    SafeLinks (VObj fields)
| SafeLinks_leaf fields :
    (strictEqStr (get "type" fields) "link" = true ->
     isUrl (get "url" fields) = true) ->
    isArray (get "children" fields) = false ->
    SafeLinks (VObj fields).
Set Elimination Schemes.

Section SafeLinksInd.
Variable P : value -> Prop.
Hypothesis Hplain : forall v, (forall fields, v <> VObj fields) -> P v.
Hypothesis Hchildren :
  forall fields children,
    (strictEqStr (get "type" fields) "link" = true ->
     isUrl (get "url" fields) = true) ->
    get "children" fields = VArr children ->
    Forall SafeLinks children ->
    Forall P children ->
    P (VObj fields).
Hypothesis Hleaf :
  forall fields,
    (strictEqStr (get "type" fields) "link" = true ->
     isUrl (get "url" fields) = true) ->
    isArray (get "children" fields) = false ->
    P (VObj fields).

Fixpoint SafeLinks_ind (v : value) (H : SafeLinks v) : P v :=
  match H with
  | SafeLinks_plain v Hv => Hplain v Hv
  | SafeLinks_children fields children Hu Hc Hall =>
      Hchildren fields children Hu Hc Hall
        ((fix all (l : list value) (Hl : Forall SafeLinks l) : Forall P l :=
            match Hl with
            | Forall_nil _ => Forall_nil P
            | Forall_cons x Hx Hr =>
                Forall_cons x (SafeLinks_ind x Hx) (all _ Hr)
            end) children Hall)
  | SafeLinks_leaf fields Hu Hc => Hleaf fields Hu Hc
  end.
End SafeLinksInd.

(** The keys of the JSX elements in a converted value, those inside
    the content of an element included. *)
Fixpoint keysOf (v : value) : list string :=
  match v with
  | VArr items => flat_map keysOf items
  | VSText key _ content => key :: flat_map keysOf content
  | VSLink key _ _ content => key :: keysOf content
  | _ => []
  end.

(** A JSON value: no JSX element in it. *)
Fixpoint plain (v : value) : bool :=
  match v with
  | VArr items => forallb plain items
  | VObj fields => forallb (fun kv => plain (snd kv)) fields
  | VSText _ _ _ | VSLink _ _ _ _ => false
  | _ => true
  end.

(** [keysWithin i i' keys]: the keys are pairwise distinct and each
    ends with a dash and a value that [nodeIndex] took from [i] up to,
    not including, [i']. *)
Definition keysWithin (i i' : nat) (keys : list string) : Prop :=
  NoDup keys
  /\ Forall
       (fun key =>
          exists before n,
            key = (before ++ "-" ++ string_of_nat n)%string
            /\ i <= n < i')
       keys.

(** A selection made of commas and white space only. *)
Fixpoint blankSelection (s : string) : bool :=
  match s with
  | EmptyString => true
  | String c r => (isWhite c || Ascii.eqb c ",") && blankSelection r
  end.

(** A string of ASCII characters: every code is below 128. *)
Definition isAsciiChar (c : ascii) : bool := (nat_of_ascii c <? 128)%nat.

Fixpoint isAscii (s : string) : bool :=
  match s with
  | EmptyString => true
  | String c r => isAsciiChar c && isAscii r
  end.

(** What is used of the library's [trim] and [toUpperCase]: on an ASCII
    string they give what [Str.trim] and [Str.toUpperCase] give. *)
Definition trimsAscii (trimFn : string -> string) : Prop :=
  forall s, isAscii s = true -> trimFn s = trim s.

Definition uppercasesAscii (upperFn : string -> string) : Prop :=
  forall s, isAscii s = true -> upperFn s = toUpperCase s.

(** The integers that a number of the language holds exactly and that
    [String] prints in plain decimal digits: those of absolute value at
    most 2^53 - 1. *)
Definition safeInteger (n : Z) : bool := (Z.abs n <=? 9007199254740991)%Z.

(** The value reached from [v] by following the property names [names]
    through nested objects, and [undefined] when a step is missing or
    is taken on something that is not an object. *)
Fixpoint valueAt (v : value) (names : list string) : value :=
  match names with
  | [] => v
  | name :: rest =>
      match v with
      | VObj fields => valueAt (get name fields) rest
      | _ => VUndef
      end
  end.

(** A value that [ToString] and [join] print as the engine does: no
    object in it, at any depth, has an own [toString] property, and
    its numbers are safe integers. *)
Fixpoint printable (v : value) : bool :=
  match v with
  | VNum n => safeInteger n
  | VArr items => forallb printable items
  | VObj fields =>
      negb (hasOwn "toString" fields)
      && forallb (fun kv => printable (snd kv)) fields
  | _ => true
  end.


(** * Properties *)

(** ** The intercept handler *)

Lemma finalize_hidden required checked msg canBlock result st :
  finalize (interceptHandler false required checked msg canBlock) result st
  = st.
Proof. reflexivity. Qed.

(** C1, as first stated, fails when the checkbox is not to be shown:
    the handler then returns [allow] without a [perform] callback, and
    an error shown before stays as it was. *)
Lemma intercept_hidden_keeps_error :
  let st := {| isChecked := false; showError := true;
               cartLines := []; countryCode := "FR" |} in
  let d := interceptHandler false true false "Please accept" true in
  behavior_of d = allow /\ showError (finalize d allow st) = true.
Proof. split; reflexivity. Qed.

(** C1 (amended): when the checkbox is to be shown, the handler blocks
    exactly when blocking is permitted, the checkbox is required and it
    is not checked; the block decision carries the reason
    "Checkbox not checked" and one error, the configured message, and
    finalising it as [block] sets [showError]; any other decision of a
    shown checkbox is [allow] and finalising it clears [showError].
    When the checkbox is not to be shown the handler returns [allow]
    with no error and no callback, and finalising leaves the state as
    it was. *)
Theorem intercept_decision
    (shouldShow required checked canBlock : bool) (msg : string)
    (result : behavior) (st : state) :
  let d := interceptHandler shouldShow required checked msg canBlock in
  if shouldShow then
    if canBlock && required && negb checked then
      behavior_of d = block
      /\ reason d = Some "Checkbox not checked"
      /\ errors d = [msg]
      /\ showError (finalize d block st) = true
    else
      behavior_of d = allow
      /\ errors d = []
      /\ showError (finalize d result st) = false
  else
    behavior_of d = allow
    /\ errors d = []
    /\ finalize d result st = st.
Proof.
  destruct shouldShow; cbn.
  - destruct (canBlock && required && negb checked); cbn; auto.
  - auto.
Qed.

(** The handler a render registers is [interceptHandler] at the value
    of [shouldShowCheckbox], the [checkbox_required] setting, the
    checked state and the configured [block_error_message]. *)
Lemma Extension_intercept settings h st log out log' handler :
  Extension settings h st log = Return (out, log') ->
  intercept out = Some handler ->
  exists shouldShow variantSelection blockErrorMessage,
    getStringSetting settings "block_error_message"
      "Please accept the terms to continue" = Return blockErrorMessage
    /\ getStringSetting settings "variant_selection" ""
       = Return variantSelection
    /\ shouldShowCheckbox settings variantSelection
         (getBooleanSetting settings "match_any_variant" true)
         (cartLines st) (countryCode st) = Return shouldShow
    /\ handler
       = interceptHandler shouldShow
           (getBooleanSetting settings "checkbox_required" false)
           (isChecked st) blockErrorMessage.
Proof.
  unfold Extension.
  destruct (getStringSetting settings "block_error_message" _)
    as [blockErrorMessage |]; [| discriminate].
  destruct (getStringSetting settings "variant_selection" _)
    as [variantSelection |]; [| discriminate].
  cbn [cbind].
  destruct (getBooleanSetting settings "hide_checkbox" false).
  { intros [= <- _]. discriminate. }
  destruct (negb (canUpdateAttributes h)).
  { intros [= <- _]. discriminate. }
  destruct (shouldShowCheckbox _ _ _ _ _) as [shouldShow |] eqn:Eshow;
    [| discriminate].
  cbn [cbind]. intros Hout Hhandler.
  exists shouldShow, variantSelection, blockErrorMessage.
  do 2 (split; [reflexivity |]). split; [exact Eshow |].
  destruct shouldShow; cbn [negb] in Hout.
  - destruct (parseRichTextLabel _ _) as [[label log2] |]; [| discriminate].
    cbn [cbind] in Hout. injection Hout as <- _.
    cbn in Hhandler. now injection Hhandler as <-.
  - injection Hout as <- _. cbn in Hhandler. now injection Hhandler as <-.
Qed.

(** ** The hidden checkbox *)

Lemma getBooleanSetting_bool settings key b dflt :
  get key settings = VBool b -> getBooleanSetting settings key dflt = b.
Proof. unfold getBooleanSetting; intros ->; reflexivity. Qed.

Lemma Extension_hidden settings h st log :
  get "hide_checkbox" settings = VBool true ->
  Extension settings h st log = Throw
  \/ Extension settings h st log
     = Return ({| view_of := NoView; intercept := None |}, log).
Proof.
  intros Hhide. unfold Extension.
  rewrite (getBooleanSetting_bool _ _ _ _ Hhide).
  destruct (getStringSetting settings "block_error_message" _); cbn; auto.
  destruct (getStringSetting settings "variant_selection" _); cbn; auto.
Qed.

(** C5: with [hide_checkbox] set to [true], whatever the other
    settings, the host capabilities, the cart, the country and the
    state of the hooks, a render shows no checkbox and registers no
    intercept handler, so that a progression attempt is allowed. *)
Theorem hide_checkbox_allows
    (settings : settings_t) (h : host) (st : state) (log : console)
    (Hhide : get "hide_checkbox" settings = VBool true) :
  rendersCheckbox (Extension settings h st log) = false
  /\ (forall canBlockProgress,
        progression (Extension settings h st log) canBlockProgress = allow)
  /\ (forall out log',
        Extension settings h st log = Return (out, log') ->
        view_of out = NoView /\ intercept out = None).
Proof.
  destruct (Extension_hidden settings h st log Hhide) as [E | E];
    rewrite E; cbn; (split; [reflexivity | split; [reflexivity | ]]).
  - discriminate.
  - intros out log' [= <- <-]; split; reflexivity.
Qed.

Lemma hide_checkbox_allows_witness :
  let settings :=
    [("hide_checkbox", VBool true); ("checkbox_required", VBool true);
     ("variant_selection", VStr "A")] in
  let h := {| canUpdateAttributes := true |} in
  rendersCheckbox (Extension settings h (initialState settings) []) = false
  /\ progression (Extension settings h (initialState settings) []) true
     = allow.
Proof.
  intros settings h.
  destruct (hide_checkbox_allows settings h (initialState settings) []
              eq_refl) as (Hview & Hallow & _).
  split; [exact Hview | exact (Hallow true)].
Defined.

(** ** Strings *)



Lemma append_empty_r s : (s ++ "")%string = s.
Proof. induction s as [| c s IH]; cbn; [reflexivity | now rewrite IH]. Qed.

Lemma append_assoc s t u : ((s ++ t) ++ u)%string = (s ++ t ++ u)%string.
Proof. induction s as [| c s IH]; cbn; [reflexivity | now rewrite IH]. Qed.

Lemma arrayIncludes_In arr s : arrayIncludes arr s = true <-> In s arr.
Proof.
  unfold arrayIncludes. rewrite existsb_exists. split.
  - intros (x & Hin & Heq). apply String.eqb_eq in Heq. now subst.
  - intros Hin. exists s. split; [exact Hin | apply String.eqb_refl].
Qed.

Lemma isWhite_upperChar c : isWhite (upperChar c) = isWhite c.
Proof. destruct c as [[] [] [] [] [] [] [] []]; reflexivity. Qed.

Lemma upperChar_idem c : upperChar (upperChar c) = upperChar c.
Proof. destruct c as [[] [] [] [] [] [] [] []]; reflexivity. Qed.

Lemma toUpperCase_idem s : toUpperCase (toUpperCase s) = toUpperCase s.
Proof.
  induction s as [| c s IH]; cbn; [reflexivity |].
  now rewrite upperChar_idem, IH.
Qed.

Lemma toUpperCase_trimStart s :
  trimStart (toUpperCase s) = toUpperCase (trimStart s).
Proof.
  induction s as [| c s IH]; cbn; [reflexivity |].
  rewrite isWhite_upperChar. destruct (isWhite c); [exact IH | reflexivity].
Qed.

Lemma toUpperCase_trimEnd s :
  trimEnd (toUpperCase s) = toUpperCase (trimEnd s).
Proof.
  induction s as [| c s IH]; cbn; [reflexivity |].
  rewrite IH, isWhite_upperChar.
  destruct (trimEnd s); cbn; [destruct (isWhite c) |]; reflexivity.
Qed.

Lemma toUpperCase_trim s : trim (toUpperCase s) = toUpperCase (trim s).
Proof.
  unfold trim. now rewrite toUpperCase_trimStart, toUpperCase_trimEnd.
Qed.

Lemma trimEnd_idem s : trimEnd (trimEnd s) = trimEnd s.
Proof.
  induction s as [| c s IH]; cbn; [reflexivity |].
  destruct (trimEnd s) as [| d t] eqn:E.
  - destruct (isWhite c) eqn:W; cbn; [reflexivity | now rewrite W].
  - cbn [trimEnd] in *. now rewrite IH.
Qed.

Lemma trimStart_head s :
  trimStart s = "" \/ exists c r, trimStart s = String c r /\ isWhite c = false.
Proof.
  induction s as [| c s IH]; cbn; [now left |].
  destruct (isWhite c) eqn:W; [exact IH |].
  right. exists c, s. now split.
Qed.

Lemma trimEnd_head c r :
  isWhite c = false -> exists r', trimEnd (String c r) = String c r'.
Proof.
  intros W. cbn. rewrite W. destruct (trimEnd r); eauto.
Qed.

Lemma trim_idem s : trim (trim s) = trim s.
Proof.
  unfold trim.
  destruct (trimStart_head s) as [-> | (c & r & -> & W)]; [reflexivity |].
  destruct (trimEnd_head c r W) as [r' E].
  assert (Hs : trimStart (trimEnd (String c r)) = trimEnd (String c r)).
  { rewrite E. cbn. now rewrite W. }
  rewrite Hs. apply trimEnd_idem.
Qed.

(** ** The country filter *)

Lemma selectedCountries_In countrySelection c :
  In c (selectedCountries countrySelection) <->
  c <> "" /\
  exists piece,
    In piece (split "," countrySelection) /\ c = toUpperCase (trim piece).
Proof.
  unfold selectedCountries. rewrite filter_In, in_map_iff, negb_true_iff.
  rewrite String.eqb_neq. split.
  - intros [(piece & <- & Hin) Hne]. split; [exact Hne | now exists piece].
  - intros [Hne (piece & Hin & ->)]. split; [now exists piece | exact Hne].
Qed.

Lemma selectedCountries_normal countrySelection c :
  In c (selectedCountries countrySelection) ->
  c <> "" /\ trim c = c /\ toUpperCase c = c.
Proof.
  rewrite selectedCountries_In. intros [Hne (piece & _ & ->)].
  split; [exact Hne |]. split.
  - now rewrite toUpperCase_trim, trim_idem.
  - apply toUpperCase_idem.
Qed.

Lemma countryFilter_iff countrySelection countryCode :
  countryFilter countrySelection countryCode = true <->
  selectedCountries countrySelection = []
  \/ countryCode = ""
  \/ In (toUpperCase countryCode) (selectedCountries countrySelection).
Proof.
  unfold countryFilter.
  destruct (String.eqb_spec countrySelection "") as [-> | Hsel]; cbn.
  { split; [now left | reflexivity]. }
  destruct (String.eqb_spec countryCode "") as [-> | Hcode]; cbn.
  { split; [now right; left | reflexivity]. }
  rewrite orb_true_iff, arrayIncludes_In, Nat.eqb_eq, length_zero_iff_nil.
  tauto.
Qed.

(** When [country_selection] holds a string, [shouldShowCheckbox] is
    the conjunction of the two filters. *)
Lemma shouldShowCheckbox_filters
    settings variantSelection matchAny lines countryCode countrySelection :
  get "country_selection" settings = VStr countrySelection ->
  shouldShowCheckbox settings variantSelection matchAny lines countryCode
  = cmap (fun variantMatch =>
            variantMatch && countryFilter countrySelection countryCode)
      (variantFilter variantSelection matchAny lines).
Proof.
  intros H. unfold shouldShowCheckbox, getStringSetting. rewrite H. cbn.
  destruct (variantFilter variantSelection matchAny lines); reflexivity.
Qed.

(** ** Cart lines and their variant ids *)

Lemma truthy_or_else a b : truthy (or_else a b) = truthy a || truthy b.
Proof. unfold or_else. destruct (truthy a) eqn:E; [exact E | reflexivity]. Qed.

Lemma cartVariantIds_app l1 l2 :
  cartVariantIds (l1 ++ l2) = cartVariantIds l1 ++ cartVariantIds l2.
Proof. unfold cartVariantIds. now rewrite map_app, filter_app. Qed.

Lemma cartVariantIds_cons line lines :
  cartVariantIds (line :: lines)
  = if truthy (lineVariantId line)
    then lineVariantId line :: cartVariantIds lines
    else cartVariantIds lines.
Proof. reflexivity. Qed.

Lemma variantFilter_ids variantSelection matchAny lines lines' :
  cartVariantIds lines = cartVariantIds lines' ->
  variantFilter variantSelection matchAny lines
  = variantFilter variantSelection matchAny lines'.
Proof. unfold variantFilter. now intros ->. Qed.

Lemma valueAt_undefined names :
  names <> [] -> valueAt VUndef names = VUndef.
Proof. destruct names; [congruence | reflexivity]. Qed.

(** An optional read of one of the three names of lines 207-209 is a
    step of [valueAt]. *)
Lemma optProp_valueAt v name rest :
  name = "merchandise" \/ name = "variant" \/ name = "id" ->
  valueAt (optProp v name) rest
  = valueAt v (name :: rest) \/ rest = [].
Proof.
  intros Hname.
  destruct rest as [| next rest]; [now right |]. left.
  destruct v; try reflexivity;
    destruct Hname as [-> | [-> | ->]]; reflexivity.
Qed.

Lemma optProp_id v : optProp v "id" = valueAt v ["id"].
Proof. destruct v; reflexivity. Qed.

Lemma lineVariantId_paths line :
  optProp (optProp line "merchandise") "id"
  = valueAt line ["merchandise"; "id"]
  /\ optProp (optProp (optProp line "merchandise") "variant") "id"
     = valueAt line ["merchandise"; "variant"; "id"]
  /\ optProp (optProp line "variant") "id" = valueAt line ["variant"; "id"].
Proof.
  rewrite !optProp_id.
  assert (H1 : forall v name,
             name = "merchandise" \/ name = "variant" \/ name = "id" ->
             forall next rest,
               valueAt (optProp v name) (next :: rest)
               = valueAt v (name :: next :: rest)).
  { intros v name Hname next rest.
    destruct (optProp_valueAt v name (next :: rest) Hname) as [E | E];
      [exact E | discriminate]. }
  split; [apply H1; now left |].
  split; [| apply H1; right; now left].
  rewrite (H1 (optProp line "merchandise") "variant"
             (or_intror (or_introl eq_refl))).
  apply H1. now left.
Qed.

(** C10: the variant id of a cart line is the first of the values at
    [merchandise.id], [merchandise.variant.id] and [variant.id], read
    through the nested objects of the line, that is present and not
    empty, and the empty string when there is none; a line with none
    adds nothing to the ids that are matched, so that the variant
    filter gives the same result with and without it, and any other
    line adds its id at its place. *)
Theorem line_variant_id (line : value) :
  let id1 := valueAt line ["merchandise"; "id"] in
  let id2 := valueAt line ["merchandise"; "variant"; "id"] in
  let id3 := valueAt line ["variant"; "id"] in
  lineVariantId line
  = (if truthy id1 then id1
     else if truthy id2 then id2
     else if truthy id3 then id3
     else VStr "")
  /\ (forall before after,
        cartVariantIds (before ++ line :: after)
        = if truthy id1 || truthy id2 || truthy id3
          then cartVariantIds before
               ++ lineVariantId line :: cartVariantIds after
          else cartVariantIds (before ++ after))
  /\ (forall before after variantSelection matchAny,
        truthy id1 || truthy id2 || truthy id3 = false ->
        variantFilter variantSelection matchAny (before ++ line :: after)
        = variantFilter variantSelection matchAny (before ++ after)).
Proof.
  intros id1 id2 id3.
  destruct (lineVariantId_paths line) as (P1 & P2 & P3).
  assert (Hid : lineVariantId line
                = if truthy id1 then id1
                  else if truthy id2 then id2
                  else if truthy id3 then id3 else VStr "").
  { unfold lineVariantId, or_else. rewrite P1, P2, P3. reflexivity. }
  assert (Htruthy : truthy (lineVariantId line)
                    = truthy id1 || truthy id2 || truthy id3).
  { rewrite Hid.
    destruct (truthy id1) eqn:E1; [exact E1 |].
    destruct (truthy id2) eqn:E2; [exact E2 |].
    destruct (truthy id3) eqn:E3; [exact E3 | reflexivity]. }
  assert (Hids : forall before after,
             cartVariantIds (before ++ line :: after)
             = if truthy id1 || truthy id2 || truthy id3
               then cartVariantIds before
                    ++ lineVariantId line :: cartVariantIds after
               else cartVariantIds (before ++ after)).
  { intros before after.
    rewrite !cartVariantIds_app, cartVariantIds_cons, Htruthy.
    destruct (truthy id1 || truthy id2 || truthy id3); reflexivity. }
  split; [exact Hid |]. split; [exact Hids |].
  intros before after variantSelection matchAny Hnone.
  apply variantFilter_ids. now rewrite Hids, Hnone.
Qed.

Lemma line_variant_id_witness :
  let full :=
    VObj [("merchandise",
           VObj [("id", VStr "gid-M");
                 ("variant", VObj [("id", VStr "gid-MV")])]);
          ("variant", VObj [("id", VStr "gid-V")])] in
  let nested :=
    VObj [("merchandise",
           VObj [("id", VStr "");
                 ("variant", VObj [("id", VStr "gid-MV")])]);
          ("variant", VObj [("id", VStr "gid-V")])] in
  let bare :=
    VObj [("merchandise", VNull); ("variant", VObj [("id", VStr "gid-V")])] in
  let noId :=
    VObj [("merchandise", VObj [("id", VStr "")]); ("variant", VNull)] in
  lineVariantId full = VStr "gid-M"
  /\ lineVariantId nested = VStr "gid-MV"
  /\ lineVariantId bare = VStr "gid-V"
  /\ cartVariantIds ([nested] ++ bare :: [noId])
     = cartVariantIds [nested] ++ VStr "gid-V" :: cartVariantIds [noId]
  /\ variantFilter "gid-M,gid-V" false ([full] ++ noId :: [bare])
     = variantFilter "gid-M,gid-V" false ([full] ++ [bare]).
Proof.
  intros full nested bare noId.
  split; [exact (proj1 (line_variant_id full)) |].
  split; [exact (proj1 (line_variant_id nested)) |].
  split; [exact (proj1 (line_variant_id bare)) |].
  split; [exact (proj1 (proj2 (line_variant_id bare)) [nested] [noId]) |].
  exact (proj2 (proj2 (line_variant_id noId)) [full] [bare]
           "gid-M,gid-V" false eq_refl).
Defined.

(** ** The variant filter *)

Lemma variantMatches_string id selector :
  variantMatches (VStr id) selector
  = Return (String.eqb id selector
            || includes id selector || includes selector id).
Proof.
  unfold variantMatches. cbn.
  destruct (String.eqb id selector); reflexivity.
Qed.


Lemma some_strings selector ids :
  some (fun cartVariantId => variantMatches cartVariantId selector)
    (map VStr ids)
  = Return (existsb
              (fun id => String.eqb id selector
                         || includes id selector || includes selector id)
              ids).
Proof.
  induction ids as [| id ids IH]; cbn [map some existsb]; [reflexivity |].
  rewrite variantMatches_string. cbn [cbind].
  destruct (String.eqb id selector
            || includes id selector || includes selector id);
    [reflexivity | exact IH].
Qed.

Lemma some_Return {A} (f : A -> completion bool) (g : A -> bool) items :
  (forall x, f x = Return (g x)) -> some f items = Return (existsb g items).
Proof.
  intros H. induction items as [| x items IH]; cbn; [reflexivity |].
  rewrite H. cbn. destruct (g x); [reflexivity | exact IH].
Qed.

Lemma every_Return {A} (f : A -> completion bool) (g : A -> bool) items :
  (forall x, f x = Return (g x)) -> every f items = Return (forallb g items).
Proof.
  intros H. induction items as [| x items IH]; cbn; [reflexivity |].
  rewrite H. cbn. destruct (g x); [exact IH | reflexivity].
Qed.


Lemma variantFilter_empty variantSelection matchAny lines :
  selectedVariants variantSelection = [] ->
  variantFilter variantSelection matchAny lines = Return true.
Proof.
  unfold variantFilter. intros ->. cbn.
  destruct (negb (String.eqb variantSelection "")); reflexivity.
Qed.

Lemma variantFilter_strings variantSelection matchAny lines ids :
  cartVariantIds lines = map VStr ids ->
  selectedVariants variantSelection <> [] ->
  variantFilter variantSelection matchAny lines
  = Return
      ((if matchAny then existsb (A := string) else forallb (A := string))
         (fun selector =>
            existsb
              (fun id => String.eqb id selector
                         || includes id selector || includes selector id)
              ids)
         (selectedVariants variantSelection)).
Proof.
  intros Hids Hsel. unfold variantFilter. rewrite Hids.
  destruct (String.eqb_spec variantSelection "") as [-> | Hne]; cbn [negb].
  { now contradiction Hsel. }
  destruct (selectedVariants variantSelection) as [| s l] eqn:E;
    [now contradiction Hsel |].
  cbn [List.length Nat.ltb Nat.leb].
  destruct matchAny.
  - apply some_Return. intros selector. apply some_strings.
  - apply every_Return. intros selector. apply some_strings.
Qed.

(** The component never calls [setCartLines], so that [cartLines] keeps
    its initial value, the empty array: over it the filter fails as
    soon as one selector is left after parsing. *)
Lemma variantFilter_no_lines variantSelection matchAny :
  selectedVariants variantSelection <> [] ->
  variantFilter variantSelection matchAny [] = Return false.
Proof.
  intros Hsel.
  rewrite (variantFilter_strings variantSelection matchAny [] [] eq_refl Hsel).
  f_equal. destruct (selectedVariants variantSelection) as [| s l];
    [now contradiction Hsel |].
  clear Hsel. destruct matchAny; cbn [existsb forallb orb andb];
    [| reflexivity].
  induction l as [| s' l IH]; [reflexivity | exact IH].
Qed.



(** ** The settings accessors *)

Lemma withChildrenArray_get {R} (f : list value -> R) o fields :
  withChildrenArray f o fields
  = match get "children" fields with
    | VArr children => f children
    | _ => o
    end.
Proof.
  induction fields as [| [k v] fields IH]; [reflexivity |].
  change (withChildrenArray f o ((k, v) :: fields))
    with (if String.eqb "children" k
          then match v with VArr children => f children | _ => o end
          else withChildrenArray f o fields).
  cbn [get].
  destruct (String.eqb "children" k); [reflexivity | exact IH].
Qed.

Lemma extractFromNode_object fields :
  extractFromNode (VObj fields)
  = if strictEqStr (get "type" fields) "text" then nodeText fields
    else match get "children" fields with
         | VArr children => VStr (join "" (map extractFromNode children))
         | _ => VStr ""
         end.
Proof.
  cbn [extractFromNode truthy negb]. rewrite !withChildrenArray_get.
  destruct (strictEqStr (get "type" fields) "text"); [reflexivity |].
  destruct (strictEqStr (get "type" fields) "root"
            && truthy (get "children" fields)); reflexivity.
Qed.

(** The body of [extractFromNode] on an object, with the calls to
    [extractFromChildren] as lines 22-26 have them. *)
Lemma extractFromNode_lines fields :
  extractFromNode (VObj fields)
  = let children := get "children" fields in
    if strictEqStr (get "type" fields) "text" then nodeText fields
    else if strictEqStr (get "type" fields) "root" && truthy children
    then extractFromChildren children
    else if truthy children && isArray children
    then extractFromChildren children
    else VStr "".
Proof.
  rewrite extractFromNode_object. cbv zeta. unfold extractFromChildren.
  destruct (strictEqStr (get "type" fields) "text"); [reflexivity |].
  destruct (get "children" fields) as [| | [] | | | | | |];
    destruct (strictEqStr (get "type" fields) "root"); cbn [andb truthy isArray];
    repeat match goal with |- context [if ?c then _ else _] => destruct c end;
    reflexivity.
Qed.

Lemma join_strings sep texts : join sep (map VStr texts) = String.concat sep texts.
Proof.
  unfold join. rewrite map_map. cbn [joinItem ToString]. now rewrite map_id.
Qed.

Lemma Forall2_map_eq {A B C} (f : A -> C) (g : B -> C) l l' :
  Forall2 (fun x y => f x = g y) l l' -> map f l = map g l'.
Proof.
  induction 1 as [| x y l l' Hxy _ IH]; [reflexivity |].
  cbn. now rewrite Hxy, IH.
Qed.

Lemma extractFromNode_RichText node s :
  RichText node s -> extractFromNode node = VStr s.
Proof.
  intros H.
  induction H as [fields s Htype Htext
                 | fields children texts Htype Hchildren _ IH
                 | fields Htype Hchildren] using RichText_ind;
    rewrite extractFromNode_object.
  - rewrite Htype. exact Htext.
  - rewrite Htype, Hchildren. f_equal.
    rewrite <- join_strings. f_equal.
    exact (Forall2_map_eq _ _ _ _ IH).
  - rewrite Htype. destruct (get "children" fields); try reflexivity.
    discriminate.
Qed.

Lemma trim_empty_iff s : trim s = "" <-> allWhite s = true.
Proof.
  unfold trim. induction s as [| c s IH]; cbn [trimStart allWhite].
  - split; reflexivity.
  - destruct (isWhite c) eqn:W; [exact IH |].
    destruct (trimEnd_head c s W) as [r' ->].
    split; discriminate.
Qed.

Lemma RichText_object node s :
  RichText node s -> exists fields, node = VObj fields.
Proof. intros H. inversion H; eauto. Qed.

Lemma getStringSetting_RichText settings key dflt s :
  RichText (get key settings) s ->
  getStringSetting settings key dflt
  = Return (if allWhite s then dflt else s).
Proof.
  intros H.
  pose proof (extractFromNode_RichText _ _ H) as Hx.
  destruct (RichText_object _ _ H) as [fields E].
  unfold getStringSetting. rewrite E in *.
  unfold extractTextFromRichText.
  cbn [isString typeof truthy negb isObject orb]. rewrite Hx. cbn [truthy].
  destruct (String.eqb_spec s "") as [-> | Hne]; cbn [negb];
    [reflexivity |].
  destruct (String.eqb_spec (trim s) "") as [Ht | Ht]; cbn [negb].
  - apply trim_empty_iff in Ht. now rewrite Ht.
  - destruct (allWhite s) eqn:Hw; [| reflexivity].
    apply trim_empty_iff in Hw. contradiction.
Qed.

(** ** The renderer: link nodes *)

Lemma convertNode_link fields keyPrefix :
  get "type" fields = VStr "link" ->
  convertNode (VObj fields) keyPrefix
  = bind
      match get "children" fields with
      | VArr children =>
          bind
            (mapWithIndex
               (fun child i =>
                  convertNode child
                    (keyPrefix ++ "-link-child-" ++ string_of_nat i))
               children)
            (fun converted => ret (VStr (join "" (filter truthy converted))))
      | _ =>
          ret (or_else (get "value" fields)
                 (or_else (get "text" fields)
                    (or_else (get "url" fields) (VStr ""))))
      end
      (fun linkText =>
         bind postIncr (fun n =>
         bind (lift (optStartsWith (get "url" fields) "http"))
           (fun isExternal =>
              ret (VSLink ("link-" ++ keyPrefix ++ "-" ++ string_of_nat n)
                     (or_else (get "url" fields) (VStr "#"))
                     (if truthy isExternal then "_blank" else "_self")
                     (or_else linkText
                        (or_else (get "url" fields) (VStr "link"))))))).
Proof.
  intros Ht.
  cbn [convertNode truthy negb]. rewrite Ht.
  change (strictEqStr (VStr "link") "text") with false.
  change (strictEqStr (VStr "link") "bold") with false.
  change (strictEqStr (VStr "link") "italic") with false.
  change (strictEqStr (VStr "link") "link") with true.
  cbv iota. now rewrite withChildrenArray_get.
Qed.

(** A [link] node without a [children] array takes its text from
    [value], [text] and [url], in that order, before the fallback to
    "link". *)
Lemma convertNode_link_childless fields keyPrefix nodeIndex url :
  get "type" fields = VStr "link" ->
  isArray (get "children" fields) = false ->
  get "url" fields = VStr url ->
  convertNode (VObj fields) keyPrefix nodeIndex
  = Return
      (VSLink ("link-" ++ keyPrefix ++ "-" ++ string_of_nat nodeIndex)
         (or_else (VStr url) (VStr "#"))
         (if startsWith url "http" then "_blank" else "_self")
         (or_else (get "value" fields)
            (or_else (get "text" fields)
               (or_else (VStr url) (VStr "link")))),
       S nodeIndex).
Proof.
  intros Htype Hchildren Hurl.
  rewrite (convertNode_link fields keyPrefix Htype), Hurl.
  unfold bind, ret, postIncr, lift, or_else.
  cbn [optStartsWith cbind truthy].
  destruct (get "children" fields); try discriminate Hchildren.
  all: destruct (truthy (get "value" fields)) eqn:Tv;
    [now rewrite Tv |].
  all: destruct (truthy (get "text" fields)) eqn:Tt;
    [now rewrite Tt |].
  all: destruct (String.eqb url "") eqn:U; cbn [negb truthy];
    rewrite ?U; reflexivity.
Qed.

(** ** The renderer: flattening *)

Lemma concat_cons x l :
  String.concat "" (x :: l) = (x ++ String.concat "" l)%string.
Proof.
  destruct l; cbn; [now rewrite append_empty_r | reflexivity].
Qed.

Lemma concat_app l1 l2 :
  String.concat "" (l1 ++ l2)
  = (String.concat "" l1 ++ String.concat "" l2)%string.
Proof.
  induction l1 as [| x l1 IH]; [reflexivity |].
  rewrite <- app_comm_cons, !concat_cons, IH. now rewrite append_assoc.
Qed.

Lemma join_app l1 l2 :
  join "" (l1 ++ l2) = (join "" l1 ++ join "" l2)%string.
Proof. unfold join. now rewrite map_app, concat_app. Qed.

Lemma join_flat_map {A} (f : A -> list value) l :
  join "" (flat_map f l) = String.concat "" (map (fun x => join "" (f x)) l).
Proof.
  induction l as [| x l IH]; [reflexivity |].
  cbn [flat_map map]. now rewrite join_app, concat_cons, IH.
Qed.

Lemma append_empty s t : (s ++ t)%string = "" -> s = "" /\ t = "".
Proof. destruct s; cbn; [auto | discriminate]. Qed.

Lemma concat_empty l : String.concat "" l = "" -> Forall (eq "") l.
Proof.
  induction l as [| x l IH]; [constructor |].
  rewrite concat_cons. intros H. apply append_empty in H as [-> H].
  constructor; auto.
Qed.

Lemma flatten_fold items acc :
  fold_left
    (fun acc item =>
       if isBlank item then acc
       else if isArray item then acc ++ flatten item
       else acc ++ [item])
    items acc
  = acc
    ++ flat_map
         (fun item =>
            if isBlank item then []
            else if isArray item then flatten item else [item])
         items.
Proof.
  revert acc. induction items as [| item items IH]; intros acc; cbn.
  - now rewrite app_nil_r.
  - rewrite IH. destruct (isBlank item); [reflexivity |].
    destruct (isArray item); now rewrite <- app_assoc.
Qed.

Lemma flatten_array items :
  flatten (VArr items)
  = flat_map
      (fun item =>
         if isBlank item then []
         else if isArray item then flatten item else [item])
      items.
Proof. cbn [flatten]. now rewrite flatten_fold. Qed.

Lemma flatten_not_array v : isArray v = false -> flatten v = [v].
Proof. destruct v; cbn; intros H; try reflexivity; discriminate. Qed.

Lemma flatten_array_not_blank v :
  isArray v = true -> Forall (fun item => isBlank item = false) (flatten v).
Proof.
  induction v as [| | | | | items IH | | |] using value_ind;
    try discriminate.
  intros _. rewrite flatten_array.
  induction IH as [| item items Hitem _ IHitems]; [constructor |].
  cbn [flat_map]. apply Forall_app. split; [| exact IHitems].
  destruct (isBlank item) eqn:B; [constructor |].
  destruct (isArray item) eqn:A; [now apply Hitem |].
  constructor; [exact B | constructor].
Qed.

Lemma filter_all {A} (p : A -> bool) l :
  Forall (fun x => p x = true) l -> filter p l = l.
Proof.
  induction 1 as [| x l Hx _ IH]; [reflexivity |].
  cbn. now rewrite Hx, IH.
Qed.

Lemma fragments_item item :
  (if isBlank item then []
   else if isArray item then flatten item else [item])
  = fragments item.
Proof.
  unfold fragments. destruct (isBlank item) eqn:B.
  - destruct item; try discriminate; cbn in *; try reflexivity.
    now rewrite B.
  - destruct (isArray item) eqn:A.
    + symmetry. apply filter_all.
      eapply Forall_impl; [| exact (flatten_array_not_blank item A)].
      cbn. now intros x ->.
    + rewrite (flatten_not_array item A). cbn. now rewrite B.
Qed.

Lemma fragments_array items :
  fragments (VArr items) = flat_map fragments items.
Proof.
  unfold fragments at 1. rewrite filter_all.
  - rewrite flatten_array. apply flat_map_ext. intros item.
    apply fragments_item.
  - eapply Forall_impl;
      [| exact (flatten_array_not_blank (VArr items) eq_refl)].
    cbn. now intros x ->.
Qed.

Lemma fragments_not_blank v :
  Forall (fun item => isBlank item = false) (fragments v).
Proof.
  unfold fragments. apply Forall_forall. intros x Hx.
  apply filter_In in Hx as [_ Hx]. now apply negb_true_iff.
Qed.

(** ** The renderer: the label *)

Lemma parseRichTextLabel_primitive richTextObj log :
  negb (truthy richTextObj) || negb (isObject richTextObj) = true ->
  parseRichTextLabel richTextObj log
  = Return (if isString richTextObj then [richTextObj]
            else [VStr defaultLabel], log).
Proof. unfold parseRichTextLabel. now intros ->. Qed.

Lemma parseRichTextLabel_object richTextObj log :
  negb (truthy richTextObj) || negb (isObject richTextObj) = false ->
  parseRichTextLabel richTextObj log
  = '(result, _) <- convertNode richTextObj "label" 0 ;;
    Return (match fragments result with
            | [] => [VStr defaultLabel]
            | flattened => flattened
            end,
            log ++ [("Parsed rich text label elements:", fragments result)]).
Proof.
  unfold parseRichTextLabel. intros ->.
  destruct (convertNode richTextObj "label" 0) as [[result n] |];
    [| reflexivity].
  cbn [cbind]. fold (fragments result).
  destruct (fragments result); reflexivity.
Qed.

(** Every label other than the empty string: the fragments returned
    are never none, and none of them is [null], [undefined] or the
    empty string; a label that is not a string and not an object, and
    a document that renders to nothing, give the default label. *)
Lemma parseRichTextLabel_fragments richTextObj log out log' :
  parseRichTextLabel richTextObj log = Return (out, log') ->
  richTextObj <> VStr "" ->
  out <> []
  /\ Forall (fun item => isBlank item = false) out
  /\ (isString richTextObj = false -> isObject richTextObj = false ->
      out = [VStr defaultLabel])
  /\ (forall result n,
        convertNode richTextObj "label" 0 = Return (result, n) ->
        isObject richTextObj = true -> fragments result = [] ->
        out = [VStr defaultLabel]).
Proof.
  intros Hparse Hne.
  destruct (negb (truthy richTextObj) || negb (isObject richTextObj)) eqn:E.
  - rewrite (parseRichTextLabel_primitive _ _ E) in Hparse.
    injection Hparse as <- <-.
    destruct (isString richTextObj) eqn:S; (split; [discriminate |]);
      (split; [| split]).
    + constructor; [| constructor].
      destruct richTextObj; try discriminate. cbn.
      apply String.eqb_neq. congruence.
    + discriminate.
    + intros result n _ Hobj'. destruct richTextObj; discriminate.
    + constructor; [reflexivity | constructor].
    + reflexivity.
    + reflexivity.
  - rewrite (parseRichTextLabel_object _ _ E) in Hparse.
    destruct (convertNode richTextObj "label" 0) as [[result n] |] eqn:C;
      [| discriminate].
    cbn [cbind] in Hparse. injection Hparse as <- <-.
    pose proof (fragments_not_blank result) as Hnb.
    apply orb_false_iff in E as [_ Hobj]. apply negb_false_iff in Hobj.
    destruct (fragments result) as [| x l] eqn:F;
      (split; [discriminate |]); (split; [| split]).
    + constructor; [reflexivity | constructor].
    + reflexivity.
    + reflexivity.
    + exact Hnb.
    + congruence.
    + intros result' n' H' _ H. injection H' as E1 E2. subst.
      congruence.
Qed.

(** C4 at the empty string: the label is returned as it is, as the one
    fragment, and that fragment is an empty string.  The renderer
    neither drops it nor falls back to the default label, as it does
    for a document that renders to nothing. *)
Theorem label_empty_string_kept (log : console) :
  parseRichTextLabel (VStr "") log = Return ([VStr ""], log)
  /\ isBlank (VStr "") = true
  /\ parseRichTextLabel (VObj [("type", VStr "text"); ("value", VStr "")]) log
     = Return ([VStr defaultLabel],
               log ++ [("Parsed rich text label elements:", [])])
  /\ cmap (fun r => view_of (fst r))
       (Extension [("checkbox_label", VStr "")]
          {| canUpdateAttributes := true |}
          (initialState [("checkbox_label", VStr "")]) [])
     = Return (CheckboxView false false false None [VStr ""]).
Proof. repeat split. Qed.

(** ** The renderer on documents of text nodes *)

Lemma convertNode_text fields keyPrefix :
  get "type" fields = VStr "text" ->
  convertNode (VObj fields) keyPrefix = ret (nodeText fields).
Proof.
  intros Ht. cbn [convertNode truthy negb]. now rewrite Ht.
Qed.

Lemma convertNode_container fields keyPrefix :
  strictEqStr (get "type" fields) "text" = false ->
  strictEqStr (get "type" fields) "bold" = false ->
  strictEqStr (get "type" fields) "italic" = false ->
  strictEqStr (get "type" fields) "link" = false ->
  convertNode (VObj fields) keyPrefix
  = match get "children" fields with
    | VArr children =>
        bind
          (mapWithIndex
             (fun child i =>
                convertNode child (keyPrefix ++ "-" ++ string_of_nat i))
             children)
          (fun converted => ret (VArr (filter truthy converted)))
    | _ => ret VNull
    end.
Proof.
  intros Ht Hb Hi Hl. cbn [convertNode truthy negb].
  rewrite Ht, Hb, Hi, Hl. apply withChildrenArray_get.
Qed.

(** A [bold] or [italic] node becomes an [s-text] element around its
    converted children, or around its own text when it has no
    [children] array. *)
Lemma convertNode_styled fields keyPrefix emphasis :
  emphasis = "bold" \/ emphasis = "italic" ->
  get "type" fields = VStr emphasis ->
  convertNode (VObj fields) keyPrefix
  = bind
      match get "children" fields with
      | VArr children =>
          bind
            (mapWithIndex
               (fun child i =>
                  convertNode child
                    (keyPrefix ++ "-" ++ emphasis ++ "-" ++ string_of_nat i))
               children)
            (fun converted => ret (filter truthy converted))
      | _ => ret [nodeText fields]
      end
      (fun content =>
         bind postIncr (fun n =>
         ret (VSText (emphasis ++ "-" ++ keyPrefix ++ "-" ++ string_of_nat n)
                emphasis content))).
Proof.
  intros [-> | ->] Ht; cbn [convertNode truthy negb]; rewrite Ht.
  - change (strictEqStr (VStr "bold") "text") with false.
    change (strictEqStr (VStr "bold") "bold") with true.
    cbv iota. now rewrite withChildrenArray_get.
  - change (strictEqStr (VStr "italic") "text") with false.
    change (strictEqStr (VStr "italic") "bold") with false.
    change (strictEqStr (VStr "italic") "italic") with true.
    cbv iota. now rewrite withChildrenArray_get.
Qed.

Lemma fragments_string s :
  fragments (VStr s) = if String.eqb s "" then [] else [VStr s].
Proof. unfold fragments. cbn. destruct (String.eqb s ""); reflexivity. Qed.

Lemma rendersText_string s : rendersText (VStr s) s.
Proof.
  unfold rendersText. rewrite fragments_string.
  split; [reflexivity |].
  destruct (String.eqb_spec s "") as [-> | Hne]; split; auto.
  contradiction.
Qed.

Lemma rendersText_falsy r s :
  rendersText r s -> truthy r = false -> fragments r = [].
Proof.
  intros (Hkind & _ & _) Hfalsy.
  destruct r; try discriminate. cbn in Hfalsy.
  apply negb_false_iff in Hfalsy. rewrite fragments_string. now rewrite Hfalsy.
Qed.

Lemma rendersText_filter rs texts :
  Forall2 rendersText rs texts ->
  flat_map fragments (filter truthy rs) = flat_map fragments rs.
Proof.
  induction 1 as [| r s rs texts Hr _ IH]; [reflexivity |].
  cbn [filter flat_map]. destruct (truthy r) eqn:T.
  - cbn [flat_map]. now rewrite IH.
  - now rewrite (rendersText_falsy r s Hr T), IH.
Qed.

Lemma rendersText_array rs texts :
  Forall2 rendersText rs texts ->
  rendersText (VArr (filter truthy rs)) (String.concat "" texts).
Proof.
  intros H. unfold rendersText at 1.
  rewrite fragments_array, (rendersText_filter rs texts H).
  split; [reflexivity |]. split.
  - rewrite join_flat_map. f_equal.
    induction H as [| r s rs texts (_ & Hr & _) _ IH]; [reflexivity |].
    cbn [map]. now rewrite Hr, IH.
  - intros Hempty. apply concat_empty in Hempty.
    induction H as [| r s rs texts (_ & _ & Hr) _ IH]; [reflexivity |].
    inversion Hempty; subst. cbn [flat_map].
    rewrite Hr by reflexivity. now apply IH.
Qed.

Lemma mapFrom_TextOnly (keyOf : nat -> string) children :
  Forall
    (fun child =>
       forall keyPrefix i,
         exists r s,
           convertNode child keyPrefix i = Return (r, i)
           /\ extractFromNode child = VStr s
           /\ rendersText r s)
    children ->
  forall k i,
    exists rs texts,
      mapFrom (fun child j => convertNode child (keyOf j)) k children i
      = Return (rs, i)
      /\ map extractFromNode children = map VStr texts
      /\ Forall2 rendersText rs texts.
Proof.
  induction 1 as [| child children Hchild _ IH]; intros k i.
  - exists [], []. repeat split. constructor.
  - destruct (Hchild (keyOf k) i) as (r & s & Hr & Hs & Hrs).
    destruct (IH (S k) i) as (rs & texts & Hrest & Hmap & Hall).
    exists (r :: rs), (s :: texts).
    split; [| split].
    + cbn [mapFrom]. unfold bind at 1. rewrite Hr.
      unfold bind at 1. fold (@mapFrom value value). rewrite Hrest.
      reflexivity.
    + cbn [map]. now rewrite Hs, Hmap.
    + now constructor.
Qed.

Lemma convertNode_TextOnly node :
  TextOnly node ->
  forall keyPrefix i,
    exists r s,
      convertNode node keyPrefix i = Return (r, i)
      /\ extractFromNode node = VStr s
      /\ rendersText r s.
Proof.
  intros H.
  induction H as [fields s Htype Htext
                 | fields children Ht Hb Hi Hl Hchildren _ IH]
    using TextOnly_ind; intros keyPrefix i.
  - exists (VStr s), s. rewrite convertNode_text by exact Htype.
    rewrite extractFromNode_object, Htype, Htext.
    repeat split; try apply rendersText_string.
  - destruct (mapFrom_TextOnly
                (fun j => (keyPrefix ++ "-" ++ string_of_nat j)%string)
                children IH 0 i)
      as (rs & texts & Hmap & Hextract & Hall).
    exists (VArr (filter truthy rs)), (String.concat "" texts).
    rewrite (convertNode_container fields keyPrefix Ht Hb Hi Hl), Hchildren.
    rewrite extractFromNode_object, Ht, Hchildren, Hextract, join_strings.
    split; [| split; [reflexivity | now apply rendersText_array]].
    unfold bind, mapWithIndex. now rewrite Hmap.
Qed.

Lemma TextOnly_object node : TextOnly node -> exists fields, node = VObj fields.
Proof. intros H. inversion H; eauto. Qed.

(** C6, as first stated, fails on a document without text: the
    renderer falls back to the default label, and the extracted text
    is empty. *)
Lemma empty_document_label :
  let document := VObj [("type", VStr "root"); ("children", VArr [])] in
  TextOnly document
  /\ extractTextFromRichText document = VStr ""
  /\ exists out log',
       parseRichTextLabel document [] = Return (out, log')
       /\ join "" out = defaultLabel
       /\ VStr (join "" out) <> extractTextFromRichText document.
Proof.
  intros document. split; [| split].
  - apply (TextOnly_container _ []); try reflexivity. constructor.
  - reflexivity.
  - eexists. eexists. split; [reflexivity |]. split; [reflexivity |].
    discriminate.
Qed.

(** C6 (amended): on a document in which every leaf is a [text] node
    under plain containers, the renderer returns; when the text the
    settings accessor extracts from the document is not empty, the
    join of the fragments returned is that text, and when it is empty
    the renderer returns the default label. *)
Theorem text_only_label
    (document : value) (log : console) (Htext : TextOnly document) :
  exists text out log',
    extractTextFromRichText document = VStr text
    /\ parseRichTextLabel document log = Return (out, log')
    /\ (if String.eqb text "" then out = [VStr defaultLabel]
        else join "" out = text).
Proof.
  destruct (TextOnly_object document Htext) as [fields ->].
  destruct (convertNode_TextOnly _ Htext "label" 0)
    as (r & text & Hr & Hx & _ & Hjoin & Hempty).
  exists text. rewrite (parseRichTextLabel_object (VObj fields) log eq_refl).
  rewrite Hr. cbn [cbind]. eexists. eexists.
  split; [exact Hx |]. split; [reflexivity |].
  destruct (String.eqb_spec text "") as [-> | Hne].
  - now rewrite Hempty.
  - destruct (fragments r) eqn:F; [| exact Hjoin].
    now contradiction Hne.
Qed.

Lemma text_only_label_witness :
  let document :=
    VObj [("type", VStr "root");
          ("children",
           VArr [VObj [("type", VStr "paragraph");
                       ("children",
                        VArr [VObj [("type", VStr "text");
                                    ("value", VStr "I agree to ")];
                              VObj [("type", VStr "text");
                                    ("value", VStr "")];
                              VObj [("type", VStr "text");
                                    ("text", VStr "the terms")]])]])] in
  exists text out log',
    extractTextFromRichText document = VStr text
    /\ parseRichTextLabel document [] = Return (out, log')
    /\ (if String.eqb text "" then out = [VStr defaultLabel]
        else join "" out = text).
Proof.
  intros document. apply (text_only_label document []).
  apply (TextOnly_container _
           [VObj [("type", VStr "paragraph");
                  ("children",
                   VArr [VObj [("type", VStr "text");
                               ("value", VStr "I agree to ")];
                         VObj [("type", VStr "text"); ("value", VStr "")];
                         VObj [("type", VStr "text");
                               ("text", VStr "the terms")]])]]);
    try reflexivity.
  constructor; [| constructor].
  apply (TextOnly_container _
           [VObj [("type", VStr "text"); ("value", VStr "I agree to ")];
            VObj [("type", VStr "text"); ("value", VStr "")];
            VObj [("type", VStr "text"); ("text", VStr "the terms")]]);
    try reflexivity.
  repeat constructor.
  - apply (TextOnly_text _ "I agree to "); reflexivity.
  - apply (TextOnly_text _ ""); reflexivity.
  - apply (TextOnly_text _ "the terms"); reflexivity.
Defined.

(** ** The console *)

Lemma parseRichTextLabel_console richTextObj log log' :
  cmap fst (parseRichTextLabel richTextObj log)
  = cmap fst (parseRichTextLabel richTextObj log').
Proof.
  unfold parseRichTextLabel.
  destruct (negb (truthy richTextObj) || negb (isObject richTextObj));
    [reflexivity |].
  destruct (convertNode richTextObj "label" 0) as [[result n] |];
    reflexivity.
Qed.

Lemma cmap_fst_Return {A B} (c : completion (A * B)) a b :
  c = Return (a, b) -> cmap fst c = Return a.
Proof. now intros ->. Qed.

Lemma cmap_fst_inv {A B} (c : completion (A * B)) a :
  cmap fst c = Return a -> exists b, c = Return (a, b).
Proof.
  destruct c as [[a' b] |]; cbn; [| discriminate].
  intros [= ->]. now exists b.
Qed.

(** * Further properties *)

(** ** The toggle handler *)

Lemma get_hasOwn k fields :
  get k fields <> VUndef -> hasOwn k fields = true.
Proof.
  unfold hasOwn. induction fields as [| [k' v] fields IH]; cbn [get existsb fst].
  - congruence.
  - destruct (String.eqb k k'); [reflexivity | exact IH].
Qed.

Lemma hasOwn_boolean k fields :
  isBoolean (get k fields) = true -> hasOwn k fields = true.
Proof.
  intros H. apply get_hasOwn. intros E. rewrite E in H. discriminate.
Qed.

Lemma hasOwn_truthy k fields :
  truthy (get k fields) = true -> hasOwn k fields = true.
Proof.
  intros H. apply get_hasOwn. intros E. rewrite E in H. discriminate.
Qed.

Lemma isBoolean_true v : isBoolean v = true -> v = VBool (truthy v).
Proof. destruct v; cbn; intros H; try discriminate; reflexivity. Qed.

(** The value read from the fields of an event object. *)
Lemma eventChecked_object fields :
  eventChecked (VObj fields)
  = if isBoolean (get "checked" fields)
    then Return (truthy (get "checked" fields))
    else if truthy (get "target" fields)
    then
      targetHasChecked <- inOp "checked" (get "target" fields) ;;
      Return (targetHasChecked
              && isBoolean (getProp (get "target" fields) "checked")
              && truthy (getProp (get "target" fields) "checked"))
    else Return false.
Proof.
  unfold eventChecked. cbn [truthy inOp cbind getProp].
  destruct (isBoolean (get "checked" fields)) eqn:B.
  - now rewrite (hasOwn_boolean _ _ B).
  - rewrite andb_false_r.
    destruct (truthy (get "target" fields)) eqn:T.
    + rewrite (hasOwn_truthy _ _ T). cbn [andb].
      destruct (inOp "checked" (get "target" fields)) as [[] |];
        cbn [cbind andb]; try reflexivity.
      destruct (isBoolean (getProp (get "target" fields) "checked"));
        reflexivity.
    + now rewrite andb_false_r.
Qed.

Lemma eventChecked_not_object event :
  (forall fields, event <> VObj fields) ->
  eventChecked event
  = if truthy event && negb (isObject event) then Throw else Return false.
Proof.
  intros H. destruct event as [| | [] | n | s | | fields | |];
    try reflexivity.
  - unfold eventChecked. cbn. destruct (Z.eqb n 0); reflexivity.
  - unfold eventChecked. cbn. destruct (String.eqb s ""); reflexivity.
  - now contradiction (H fields).
Qed.

Lemma inOp_checked_target target :
  truthy target = true ->
  inOp "checked" target
  = if isObject target
    then Return (isBoolean (getProp target "checked")
                 || match target with
                    | VObj fields => hasOwn "checked" fields
                    | _ => false
                    end)
    else Throw.
Proof.
  destruct target as [| | [] | | | | fields | |]; cbn; try discriminate;
    try reflexivity.
  intros _. destruct (isBoolean (get "checked" fields)) eqn:B;
    [now rewrite (hasOwn_boolean _ _ B) | reflexivity].
Qed.

Lemma handleCheckboxChange_returns event st st' :
  handleCheckboxChange event st = Return st' ->
  exists checked, st' = setIsChecked checked st.
Proof.
  unfold handleCheckboxChange.
  destruct (eventChecked event) as [checked |]; [| discriminate].
  intros [= <-]. now exists checked.
Qed.

(** X1: when the toggle handler returns, only [isChecked] has changed,
    and the box is checked exactly when the event carries the boolean
    [true] under [checked], or carries no boolean there and its
    [target] carries the boolean [true] under [checked]; any other
    event, an absent one included, unchecks the box. *)
Theorem toggle_result (event : value) (st st' : state)
    (Hreturn : handleCheckboxChange event st = Return st') :
  showError st' = showError st
  /\ cartLines st' = cartLines st
  /\ countryCode st' = countryCode st
  /\ (isChecked st' = true <->
      getProp event "checked" = VBool true
      \/ (isBoolean (getProp event "checked") = false
          /\ getProp (getProp event "target") "checked" = VBool true)).
Proof.
  unfold handleCheckboxChange in Hreturn.
  destruct (eventChecked event) as [checked |] eqn:E; [| discriminate].
  cbn [cbind] in Hreturn. injection Hreturn as <-.
  do 3 (split; [reflexivity |]). cbn [isChecked setIsChecked].
  destruct event as [| | b | n | s | items | fields | key e c | key hr t c].
  7: {
    rewrite eventChecked_object in E. cbn [getProp].
    destruct (isBoolean (get "checked" fields)) eqn:B.
    - injection E as <-. rewrite (isBoolean_true _ B) at 2.
      split.
      + intros ->. now left.
      + intros [[= ->] | [H _]]; [reflexivity | discriminate].
    - destruct (truthy (get "target" fields)) eqn:T.
      + rewrite (inOp_checked_target _ T) in E.
        destruct (isObject (get "target" fields)); [| discriminate].
        cbn [cbind] in E. injection E as <-.
        destruct (isBoolean (getProp (get "target" fields) "checked")) eqn:B'.
        * cbn [orb andb]. rewrite (isBoolean_true _ B') at 2. split.
          -- intros ->. right. now split.
          -- intros [H | [_ [= ->]]]; [| reflexivity].
             rewrite H in B. discriminate.
        * rewrite andb_false_r. cbn [andb]. split; [discriminate |].
          intros [H | [_ H]]; [rewrite H in B | rewrite H in B'];
            discriminate.
      + injection E as <-. split; [discriminate |].
        intros [H | [_ H]]; [rewrite H in B; discriminate |].
        destruct (get "target" fields); try discriminate.
  }
  all: rewrite eventChecked_not_object in E by (intros fields; discriminate).
  all: destruct (truthy _ && negb (isObject _)); [discriminate |].
  all: injection E as <-; cbn; split; [discriminate |].
  all: intros [H | [_ H]]; try discriminate.
  all: try (destruct (String.eqb "type" "checked"); discriminate).
Qed.

Lemma toggle_result_witness :
  let st := {| isChecked := false; showError := true;
               cartLines := []; countryCode := "CA" |} in
  let event := VObj [("type", VStr "change");
                     ("target", VObj [("checked", VBool true)])] in
  showError (setIsChecked true st) = true
  /\ (isChecked (setIsChecked true st) = true <->
      getProp event "checked" = VBool true
      \/ (isBoolean (getProp event "checked") = false
          /\ getProp (getProp event "target") "checked" = VBool true)).
Proof.
  intros st event.
  destruct (toggle_result event st (setIsChecked true st) eq_refl)
    as (Herror & _ & _ & Hchecked).
  split; [exact Herror | exact Hchecked].
Defined.

(** X2: the toggle handler raises exactly when the event is a truthy
    value that is not an object (the [in] test on it fails), or when
    the event has no boolean [checked] and its [target] is such a
    value; in every other case it returns. *)
Theorem toggle_raises (event : value) (st : state) :
  handleCheckboxChange event st = Throw <->
  (truthy event = true /\ isObject event = false)
  \/ (isObject event = true
      /\ isBoolean (getProp event "checked") = false
      /\ truthy (getProp event "target") = true
      /\ isObject (getProp event "target") = false).
Proof.
  unfold handleCheckboxChange.
  destruct event as [| | b | n | s | items | fields | key e c | key hr t c].
  7: {
    rewrite eventChecked_object. cbn [getProp truthy isObject typeof].
    destruct (isBoolean (get "checked" fields)) eqn:B; cbn [cbind].
    - split; [discriminate |].
      intros [[_ H] | (_ & H & _)]; discriminate.
    - destruct (truthy (get "target" fields)) eqn:T; cbn [cbind].
      + rewrite (inOp_checked_target _ T).
        destruct (isObject (get "target" fields)); cbn [cbind].
        * split; [discriminate |].
          intros [[_ H] | (_ & _ & _ & H)]; discriminate.
        * split; [| reflexivity]. intros _. right. now repeat split.
      + split; [discriminate |].
        intros [[_ H] | (_ & _ & H & _)]; discriminate.
  }
  all: rewrite eventChecked_not_object by (intros fields; discriminate).
  all: cbn [getProp truthy isObject typeof negb andb].
  all: try (split; [discriminate |];
            intros [[H1 H2] | (H1 & H2 & H3 & H4)]; cbn in *; discriminate).
  - destruct b; cbn [cbind andb negb]; split; try discriminate; auto.
    intros [[H _] | (H & _)]; discriminate.
  - destruct (negb (Z.eqb n 0)); cbn [cbind andb negb]; split;
      try discriminate; auto.
    intros [[H _] | (H & _)]; discriminate.
  - destruct (negb (String.eqb s "")); cbn [cbind andb negb]; split;
      try discriminate; auto.
    intros [[H _] | (H & _)]; discriminate.
Qed.

(** ** Renders of the component *)

Lemma parseRichTextLabel_any_console richTextObj log log1 out :
  parseRichTextLabel richTextObj log = Return (out, log1) ->
  forall log', exists log2,
    parseRichTextLabel richTextObj log' = Return (out, log2).
Proof.
  intros H log'. apply cmap_fst_inv.
  rewrite (parseRichTextLabel_console richTextObj log' log).
  now apply cmap_fst_Return with (b := log1).
Qed.

(** What a render that registers a handler went through. *)
Lemma Extension_registered settings h st log out log' handler :
  Extension settings h st log = Return (out, log') ->
  intercept out = Some handler ->
  getBooleanSetting settings "hide_checkbox" false = false
  /\ canUpdateAttributes h = true
  /\ exists shouldShow variantSelection blockErrorMessage,
       getStringSetting settings "block_error_message"
         "Please accept the terms to continue" = Return blockErrorMessage
       /\ getStringSetting settings "variant_selection" ""
          = Return variantSelection
       /\ shouldShowCheckbox settings variantSelection
            (getBooleanSetting settings "match_any_variant" true)
            (cartLines st) (countryCode st) = Return shouldShow
       /\ handler
          = interceptHandler shouldShow
              (getBooleanSetting settings "checkbox_required" false)
              (isChecked st) blockErrorMessage
       /\ if shouldShow then
            exists label log2,
              parseRichTextLabel (get "checkbox_label" settings)
                (log ++ [("Raw checkbox label:",
                          [get "checkbox_label" settings])])
              = Return (label, log2)
              /\ view_of out
                 = CheckboxView (isChecked st)
                     (getBooleanSetting settings "checkbox_default_checked"
                        false)
                     (getBooleanSetting settings "checkbox_required" false)
                     (if showError st then Some blockErrorMessage else None)
                     label
          else view_of out = NoView.
Proof.
  unfold Extension.
  destruct (getStringSetting settings "block_error_message" _)
    as [blockErrorMessage |]; [| discriminate].
  destruct (getStringSetting settings "variant_selection" _)
    as [variantSelection |]; [| discriminate].
  cbn [cbind].
  destruct (getBooleanSetting settings "hide_checkbox" false).
  { intros [= <- _]. discriminate. }
  destruct (canUpdateAttributes h); cbn [negb].
  2: { intros [= <- _]. discriminate. }
  destruct (shouldShowCheckbox _ _ _ _ _) as [shouldShow |] eqn:Eshow;
    [| discriminate].
  cbn [cbind]. intros Hout Hhandler.
  do 2 (split; [reflexivity |]).
  exists shouldShow, variantSelection, blockErrorMessage.
  do 2 (split; [reflexivity |]). split; [exact Eshow |].
  destruct shouldShow; cbn [negb] in Hout.
  - destruct (parseRichTextLabel _ _) as [[label log2] |]; [| discriminate].
    cbn [cbind] in Hout. injection Hout as <- _.
    cbn in Hhandler. injection Hhandler as <-.
    split; [reflexivity |]. now exists label, log2.
  - injection Hout as <- _. cbn in Hhandler. injection Hhandler as <-.
    now split.
Qed.

(** The render of a shown checkbox. *)
Lemma Extension_shown settings h st log
    variantSelection blockErrorMessage label log2 :
  getBooleanSetting settings "hide_checkbox" false = false ->
  canUpdateAttributes h = true ->
  getStringSetting settings "block_error_message"
    "Please accept the terms to continue" = Return blockErrorMessage ->
  getStringSetting settings "variant_selection" "" = Return variantSelection ->
  shouldShowCheckbox settings variantSelection
    (getBooleanSetting settings "match_any_variant" true)
    (cartLines st) (countryCode st) = Return true ->
  parseRichTextLabel (get "checkbox_label" settings)
    (log ++ [("Raw checkbox label:", [get "checkbox_label" settings])])
  = Return (label, log2) ->
  Extension settings h st log
  = Return
      ({| view_of :=
            CheckboxView (isChecked st)
              (getBooleanSetting settings "checkbox_default_checked" false)
              (getBooleanSetting settings "checkbox_required" false)
              (if showError st then Some blockErrorMessage else None)
              label;
          intercept :=
            Some (interceptHandler true
                    (getBooleanSetting settings "checkbox_required" false)
                    (isChecked st) blockErrorMessage) |},
       log2 ++ [("Parsed label elements:", label)]).
Proof.
  intros Hhide Hcan Hmsg Hsel Hshow Hlabel. unfold Extension.
  rewrite Hmsg, Hsel, Hhide, Hcan. cbn [cbind negb].
  rewrite Hshow. cbn [cbind negb]. rewrite Hlabel. reflexivity.
Qed.

Lemma interceptHandler_block shouldShow required checked msg canBlock :
  behavior_of (interceptHandler shouldShow required checked msg canBlock)
  = block ->
  shouldShow = true /\ required = true /\ checked = false /\ canBlock = true.
Proof.
  unfold interceptHandler.
  destruct shouldShow, canBlock, required, checked; cbn; intros H;
    try discriminate; auto.
Qed.

Lemma getBooleanSetting_true settings key :
  getBooleanSetting settings key false = true -> get key settings = VBool true.
Proof.
  unfold getBooleanSetting.
  destruct (get key settings) as [| | [] | | | | | |]; intros H;
    try discriminate; reflexivity.
Qed.

Lemma progression_block settings h st log canBlockProgress :
  progression (Extension settings h st log) canBlockProgress = block ->
  canBlockProgress = true
  /\ isChecked st = false
  /\ getBooleanSetting settings "checkbox_required" false = true
  /\ exists out log' msg label,
       Extension settings h st log = Return (out, log')
       /\ getBooleanSetting settings "hide_checkbox" false = false
       /\ canUpdateAttributes h = true
       /\ intercept out
          = Some (interceptHandler true
                    (getBooleanSetting settings "checkbox_required" false)
                    (isChecked st) msg)
       /\ view_of out
          = CheckboxView (isChecked st)
              (getBooleanSetting settings "checkbox_default_checked" false)
              (getBooleanSetting settings "checkbox_required" false)
              (if showError st then Some msg else None) label.
Proof.
  unfold progression. intros Hblock.
  destruct (Extension settings h st log) as [[out log'] |] eqn:E;
    [| discriminate].
  destruct (intercept out) as [handler |] eqn:Ei; [| discriminate].
  destruct (Extension_registered _ _ _ _ _ _ _ E Ei)
    as (Hhide & Hcan & shouldShow & vsel & msg & Hmsg & Hsel & Hshow
        & -> & Hview).
  destruct (interceptHandler_block _ _ _ _ _ Hblock)
    as (-> & Hreq & Hchecked & ->).
  destruct Hview as (label & log2 & Hlabel & Hview).
  do 3 (split; [assumption || reflexivity |]).
  exists out, log', msg, label. repeat split; assumption.
Qed.

(** X3: a progression attempt is blocked after a render only when that
    render shows the checkbox, unchecked and marked as required: the
    host permits blocking, [checkbox_required] holds the boolean
    [true], [hide_checkbox] does not, the box is not checked, and the
    one error of the decision is the configured message, the one the
    checkbox shows once the error is visible. *)
Theorem block_shows_checkbox
    (settings : settings_t) (h : host) (st : state) (log : console)
    (canBlockProgress : bool)
    (Hblock : progression (Extension settings h st log) canBlockProgress
              = block) :
  canBlockProgress = true
  /\ isChecked st = false
  /\ get "checkbox_required" settings = VBool true
  /\ get "hide_checkbox" settings <> VBool true
  /\ canUpdateAttributes h = true
  /\ exists out log' handler defaultChecked label msg,
       Extension settings h st log = Return (out, log')
       /\ intercept out = Some handler
       /\ errors (handler canBlockProgress) = [msg]
       /\ view_of out
          = CheckboxView false defaultChecked true
              (if showError st then Some msg else None) label.
Proof.
  destruct (progression_block _ _ _ _ _ Hblock)
    as (-> & Hchecked & Hreq & out & log' & msg & label
        & E & Hhide & Hcan & Ei & Hview).
  split; [reflexivity |]. split; [exact Hchecked |].
  split; [now apply getBooleanSetting_true |].
  split.
  { intros Hh. unfold getBooleanSetting in Hhide. rewrite Hh in Hhide.
    discriminate. }
  split; [exact Hcan |].
  eexists out, log', _, _, label, msg.
  split; [exact E |]. split; [exact Ei |].
  rewrite Hview, Hreq, Hchecked. split; reflexivity.
Qed.

Lemma block_shows_checkbox_witness :
  let settings := [("checkbox_required", VBool true);
                   ("checkbox_label", VStr "I agree");
                   ("country_selection", VStr "US, CA")] in
  let h := {| canUpdateAttributes := true |} in
  let st := {| isChecked := false; showError := false;
               cartLines := []; countryCode := "ca" |} in
  isChecked st = false /\ get "checkbox_required" settings = VBool true.
Proof.
  intros settings h st.
  destruct (block_shows_checkbox settings h st [] true eq_refl)
    as (_ & Hchecked & Hrequired & _).
  split; [exact Hchecked | exact Hrequired].
Defined.

(** X4: from a blocked progression to an allowed one.  When a render
    registers a handler that blocks, finalising the block makes the
    next render show the configured message on the unchecked
    checkbox; once a toggle event has checked the box, the following
    render still shows the checkbox, its handler allows the
    progression whether or not blocking is permitted, and finalising
    that decision clears the error. *)
Theorem block_check_allow
    (settings : settings_t) (h : host) (st st2 : state)
    (log log1 logA logB : console) (out : rendered)
    (handler : bool -> decision) (event : value) (canBlockProgress : bool)
    (Hrender : Extension settings h st log = Return (out, log1))
    (Hhandler : intercept out = Some handler)
    (Hblock : behavior_of (handler true) = block)
    (Htoggle :
       handleCheckboxChange event (finalize (handler true) block st)
       = Return st2)
    (Hchecked : isChecked st2 = true) :
  let st1 := finalize (handler true) block st in
  showError st1 = true
  /\ (exists out1 logA' msg defaultChecked label,
        Extension settings h st1 logA = Return (out1, logA')
        /\ errors (handler true) = [msg]
        /\ view_of out1
           = CheckboxView false defaultChecked true (Some msg) label)
  /\ (exists out2 logB' handler2 msg defaultChecked label,
        Extension settings h st2 logB = Return (out2, logB')
        /\ view_of out2
           = CheckboxView true defaultChecked true (Some msg) label
        /\ intercept out2 = Some handler2
        /\ behavior_of (handler2 canBlockProgress) = allow
        /\ showError (finalize (handler2 canBlockProgress) allow st2)
           = false).
Proof.
  destruct (Extension_registered _ _ _ _ _ _ _ Hrender Hhandler)
    as (Hhide & Hcan & shouldShow & vsel & msg & Hmsg & Hsel & Hshow
        & -> & Hview).
  destruct (interceptHandler_block _ _ _ _ _ Hblock)
    as (-> & Hreq & Hunchecked & _).
  destruct Hview as (label & log2 & Hlabel & _).
  rewrite Hreq, Hunchecked in *.
  change (finalize (interceptHandler true true false msg true) block st)
    with (setShowError true st) in *.
  cbv zeta.
  destruct (handleCheckboxChange_returns _ _ _ Htoggle) as [checked ->].
  cbn [isChecked setIsChecked] in Hchecked. subst checked.
  assert (Herr : showError (setIsChecked true (setShowError true st)) = true)
    by reflexivity.
  assert (Hcart : cartLines (setIsChecked true (setShowError true st))
                  = cartLines st) by reflexivity.
  assert (Hcountry : countryCode (setIsChecked true (setShowError true st))
                     = countryCode st) by reflexivity.
  set (st2 := setIsChecked true (setShowError true st)) in *.
  assert (Hchecked : isChecked st2 = true) by reflexivity.
  split; [reflexivity |]. split.
  - destruct (parseRichTextLabel_any_console _ _ _ _ Hlabel
                (logA ++ [("Raw checkbox label:",
                           [get "checkbox_label" settings])]))
      as [logA' HlabelA].
    eexists _, _, msg, _, label.
    split.
    { apply (Extension_shown settings h (setShowError true st) logA
               vsel msg label logA' Hhide Hcan Hmsg Hsel);
        [exact Hshow | exact HlabelA]. }
    cbn [view_of isChecked showError setShowError].
    rewrite Hreq, Hunchecked. split; reflexivity.
  - destruct (parseRichTextLabel_any_console _ _ _ _ Hlabel
                (logB ++ [("Raw checkbox label:",
                           [get "checkbox_label" settings])]))
      as [logB' HlabelB].
    eexists _, _, _, msg, _, label.
    split.
    { apply (Extension_shown settings h st2 logB
               vsel msg label logB' Hhide Hcan Hmsg Hsel);
        [now rewrite Hcart, Hcountry | exact HlabelB]. }
    cbn [view_of intercept].
    rewrite Hreq, Hchecked, Herr.
    split; [reflexivity |]. split; [reflexivity |].
    unfold interceptHandler. cbn [negb andb].
    rewrite !andb_false_r. split; reflexivity.
Qed.

Lemma block_check_allow_witness :
  let settings := [("checkbox_required", VBool true);
                   ("checkbox_label", VStr "I agree");
                   ("block_error_message", VStr "Tick the box")] in
  let h := {| canUpdateAttributes := true |} in
  let st := initialState settings in
  let st1 := setShowError true st in
  let st2 := setIsChecked true st1 in
  exists out2 logB' handler2 msg defaultChecked label,
    Extension settings h st2 [] = Return (out2, logB')
    /\ view_of out2 = CheckboxView true defaultChecked true (Some msg) label
    /\ intercept out2 = Some handler2
    /\ behavior_of (handler2 true) = allow
    /\ showError (finalize (handler2 true) allow st2) = false.
Proof.
  intros settings h st st1 st2.
  exact (proj2 (proj2
           (block_check_allow settings h st st2 [] _ [] [] _
              (interceptHandler true true false "Tick the box")
              (VObj [("checked", VBool true)]) true
              eq_refl eq_refl eq_refl eq_refl eq_refl))).
Defined.

(** X5: when the host does not support attribute changes, a render
    never shows the checkbox and registers no intercept handler,
    whatever the settings: it shows the warning banner, or nothing
    when [hide_checkbox] is set, and a progression attempt is
    allowed even for a required, unchecked checkbox. *)
Theorem unsupported_host_never_blocks
    (settings : settings_t) (h : host) (st : state) (log : console)
    (canBlockProgress : bool)
    (Hcan : canUpdateAttributes h = false) :
  rendersCheckbox (Extension settings h st log) = false
  /\ progression (Extension settings h st log) canBlockProgress = allow
  /\ (forall out log',
        Extension settings h st log = Return (out, log') ->
        log' = log
        /\ intercept out = None
        /\ view_of out
           = if getBooleanSetting settings "hide_checkbox" false
             then NoView else WarningBanner).
Proof.
  unfold Extension.
  destruct (getStringSetting settings "block_error_message" _);
    cbn [cbind]; [| repeat split; discriminate].
  destruct (getStringSetting settings "variant_selection" _);
    cbn [cbind]; [| repeat split; discriminate].
  rewrite Hcan. cbn [negb].
  destruct (getBooleanSetting settings "hide_checkbox" false);
    (split; [reflexivity |]); (split; [reflexivity |]);
    intros out log' [= <- <-]; repeat split.
Qed.

Lemma unsupported_host_never_blocks_witness :
  let settings := [("checkbox_required", VBool true)] in
  let h := {| canUpdateAttributes := false |} in
  progression (Extension settings h (initialState settings) []) true = allow.
Proof.
  intros settings h.
  exact (proj1 (proj2
           (unsupported_host_never_blocks settings h (initialState settings)
              [] true eq_refl))).
Defined.

(** X6: with [checkbox_default_checked] set to [true], the first
    render, from the initial state of the hooks, never leads to a
    blocked progression, even when the checkbox is required. *)
Theorem default_checked_never_blocks
    (settings : settings_t) (h : host) (log : console)
    (canBlockProgress : bool)
    (Hdefault : get "checkbox_default_checked" settings = VBool true) :
  progression (Extension settings h (initialState settings) log)
    canBlockProgress = allow.
Proof.
  destruct (progression (Extension settings h (initialState settings) log)
              canBlockProgress) eqn:E; [reflexivity |].
  destruct (progression_block _ _ _ _ _ E) as (_ & Hchecked & _).
  cbn [isChecked initialState] in Hchecked.
  rewrite (getBooleanSetting_bool _ _ _ _ Hdefault) in Hchecked.
  discriminate.
Qed.

Lemma default_checked_never_blocks_witness :
  let settings := [("checkbox_default_checked", VBool true);
                   ("checkbox_required", VBool true)] in
  progression
    (Extension settings {| canUpdateAttributes := true |}
       (initialState settings) []) true = allow.
Proof.
  intros settings.
  exact (default_checked_never_blocks settings
           {| canUpdateAttributes := true |} [] true eq_refl).
Defined.

(** ** Errors and blanks of [getStringSetting] *)

Lemma nodeText_falsy fields :
  truthy (nodeText fields) = false -> nodeText fields = VStr "".
Proof.
  unfold nodeText, or_else.
  destruct (truthy (get "value" fields)) eqn:V; [congruence |].
  destruct (truthy (get "text" fields)) eqn:T; [congruence | reflexivity].
Qed.

Lemma extractFromNode_not_text fields :
  strictEqStr (get "type" fields) "text" = false ->
  exists s, extractFromNode (VObj fields) = VStr s.
Proof.
  intros Ht. rewrite extractFromNode_object, Ht.
  destruct (get "children" fields); eauto.
Qed.

Lemma getStringSetting_object settings key dflt fields :
  get key settings = VObj fields ->
  getStringSetting settings key dflt
  = match extractFromNode (VObj fields) with
    | VStr s =>
        Return (if negb (String.eqb s "") && negb (String.eqb (trim s) "")
                then s else dflt)
    | extracted => if truthy extracted then Throw else Return dflt
    end.
Proof.
  intros E. unfold getStringSetting. rewrite E.
  unfold extractTextFromRichText.
  cbn [isString typeof truthy negb isObject orb].
  destruct (extractFromNode (VObj fields)) as [| | b | n | s | | | |];
    cbn [truthy]; try reflexivity.
  destruct (negb (String.eqb s "")); reflexivity.
Qed.

Lemma getStringSetting_not_object settings key dflt :
  (forall fields, get key settings <> VObj fields) ->
  exists r,
    getStringSetting settings key dflt = Return r
    /\ (isObject (get key settings) = true -> r = dflt).
Proof.
  intros H. unfold getStringSetting.
  destruct (get key settings) as [| | b | n | s | items | fields | k e c
                                 | k hr t c];
    try (eexists; split; [reflexivity |]; cbn; intros; try discriminate;
         reflexivity).
  now contradiction (H fields).
Qed.

(** X8: on a stored object, array or [null], the string returned by
    [getStringSetting] is the default or holds a character that is not
    white space: an empty or blank extraction never comes back as the
    setting.  (A stored string is returned as it is, blank or not.) *)
Theorem getString_object_not_blank
    (settings : settings_t) (key dflt r : string)
    (Hobject : isObject (get key settings) = true)
    (Hreturn : getStringSetting settings key dflt = Return r) :
  r = dflt \/ allWhite r = false.
Proof.
  destruct (get key settings) as [| | b | n | s | items | fields | k e c
                                 | k hr t c] eqn:E;
    try discriminate.
  3: {
    rewrite (getStringSetting_object _ _ _ _ E) in Hreturn.
    destruct (extractFromNode (VObj fields)) as [| | b | n | s | | | |];
      cbn [truthy] in Hreturn; try discriminate Hreturn;
      try (injection Hreturn as <-; now left);
      try (match type of Hreturn with
           | (if ?c then Throw else _) = _ =>
               destruct c; [discriminate |];
               injection Hreturn as <-; now left
           end).
    injection Hreturn as <-.
    destruct (String.eqb s ""); cbn [negb andb]; [now left |].
    destruct (String.eqb_spec (trim s) "") as [Ht | Ht]; cbn [negb];
      [now left |].
    right. destruct (allWhite s) eqn:W; [| reflexivity].
    apply trim_empty_iff in W. contradiction.
  }
  all: destruct (getStringSetting_not_object settings key dflt) as (r' & Hr & Hd);
    [rewrite E; intros fields; discriminate |].
  all: rewrite Hr in Hreturn; injection Hreturn as <-.
  all: left; apply Hd; rewrite E; reflexivity.
Qed.

Lemma getString_object_not_blank_witness :
  let document :=
    VObj [("type", VStr "root");
          ("children",
           VArr [VObj [("type", VStr "text"); ("value", VStr " CA")]])] in
  " CA" = "US" \/ allWhite " CA" = false.
Proof.
  intros document.
  exact (getString_object_not_blank [("country_selection", document)]
           "country_selection" "US" " CA" eq_refl eq_refl).
Defined.

(** ** The renderer never raises on well-formed links *)

Lemma strictEqStr_true v s : strictEqStr v s = true -> v = VStr s.
Proof.
  destruct v; cbn; intros H; try discriminate.
  apply String.eqb_eq in H. now subst.
Qed.

Lemma mapFrom_returns (keyOf : nat -> string) children :
  Forall
    (fun child =>
       forall keyPrefix i,
         exists r i',
           convertNode child keyPrefix i = Return (r, i') /\ i <= i')
    children ->
  forall k i,
    exists rs i',
      mapFrom (fun child j => convertNode child (keyOf j)) k children i
      = Return (rs, i')
      /\ i <= i'.
Proof.
  induction 1 as [| child children Hchild _ IH]; intros k i.
  - exists [], i. split; [reflexivity | lia].
  - destruct (Hchild (keyOf k) i) as (r & i1 & Hr & Hle1).
    destruct (IH (S k) i1) as (rs & i2 & Hrest & Hle2).
    exists (r :: rs), i2. split; [| lia].
    cbn [mapFrom]. unfold bind at 1. rewrite Hr.
    unfold bind at 1. fold (@mapFrom value value). now rewrite Hrest.
Qed.

Lemma convertNode_object_returns fields :
  (strictEqStr (get "type" fields) "link" = true ->
   isUrl (get "url" fields) = true) ->
  (forall children,
     get "children" fields = VArr children ->
     Forall
       (fun child =>
          forall keyPrefix i,
            exists r i',
              convertNode child keyPrefix i = Return (r, i') /\ i <= i')
       children) ->
  forall keyPrefix i,
    exists r i',
      convertNode (VObj fields) keyPrefix i = Return (r, i') /\ i <= i'.
Proof.
  intros Hurl Hkids keyPrefix i.
  assert (Hmap : forall keyOf children,
             get "children" fields = VArr children ->
             exists rs i',
               mapWithIndex (fun child j => convertNode child (keyOf j))
                 children i = Return (rs, i') /\ i <= i').
  { intros keyOf children E.
    exact (mapFrom_returns keyOf children (Hkids children E) 0 i). }
  destruct (strictEqStr (get "type" fields) "text") eqn:Ht.
  { apply strictEqStr_true in Ht. rewrite (convertNode_text _ _ Ht).
    eexists _, i. split; [reflexivity | lia]. }
  destruct (strictEqStr (get "type" fields) "bold") eqn:Hb.
  { apply strictEqStr_true in Hb.
    rewrite (convertNode_styled _ keyPrefix "bold" (or_introl eq_refl) Hb).
    destruct (get "children" fields) as [| | | | | children | | |] eqn:E;
      try (eexists _, (S i); split; [reflexivity | lia]).
    destruct (Hmap (fun j => (keyPrefix ++ "-" ++ "bold" ++ "-"
                              ++ string_of_nat j)%string) children eq_refl)
      as (rs & i' & Hrs & Hle).
    unfold bind, ret, postIncr. rewrite Hrs.
    eexists _, (S i'). split; [reflexivity | lia]. }
  destruct (strictEqStr (get "type" fields) "italic") eqn:Hi.
  { apply strictEqStr_true in Hi.
    rewrite (convertNode_styled _ keyPrefix "italic" (or_intror eq_refl) Hi).
    destruct (get "children" fields) as [| | | | | children | | |] eqn:E;
      try (eexists _, (S i); split; [reflexivity | lia]).
    destruct (Hmap (fun j => (keyPrefix ++ "-" ++ "italic" ++ "-"
                              ++ string_of_nat j)%string) children eq_refl)
      as (rs & i' & Hrs & Hle).
    unfold bind, ret, postIncr. rewrite Hrs.
    eexists _, (S i'). split; [reflexivity | lia]. }
  destruct (strictEqStr (get "type" fields) "link") eqn:Hl.
  { specialize (Hurl eq_refl). apply strictEqStr_true in Hl.
    rewrite (convertNode_link _ keyPrefix Hl).
    assert (Hstarts : exists isExternal,
               optStartsWith (get "url" fields) "http" = Return isExternal).
    { destruct (get "url" fields); try discriminate; cbn; eauto. }
    destruct Hstarts as [isExternal Hstarts].
    destruct (get "children" fields) as [| | | | | children | | |] eqn:E;
      try (unfold bind, ret, postIncr, lift; rewrite Hstarts;
           eexists _, (S i); split; [reflexivity | lia]).
    destruct (Hmap (fun j => (keyPrefix ++ "-link-child-"
                              ++ string_of_nat j)%string) children eq_refl)
      as (rs & i' & Hrs & Hle).
    unfold bind, ret, postIncr, lift. rewrite Hrs, Hstarts.
    eexists _, (S i'). split; [reflexivity | lia]. }
  rewrite (convertNode_container _ keyPrefix Ht Hb Hi Hl).
  destruct (get "children" fields) as [| | | | | children | | |] eqn:E;
    try (eexists _, i; split; [reflexivity | lia]).
  destruct (Hmap (fun j => (keyPrefix ++ "-" ++ string_of_nat j)%string)
              children eq_refl) as (rs & i' & Hrs & Hle).
  unfold bind, ret. rewrite Hrs.
  eexists _, i'. split; [reflexivity | lia].
Qed.

Lemma convertNode_plain_returns v keyPrefix i :
  (forall fields, v <> VObj fields) ->
  exists r, convertNode v keyPrefix i = Return (r, i).
Proof.
  intros H. destruct v as [| | b | n | s | | fields | |];
    try (eexists; reflexivity).
  - destruct b; eexists; reflexivity.
  - cbn [convertNode truthy]. destruct (negb (negb (Z.eqb n 0)));
      eexists; reflexivity.
  - cbn [convertNode truthy]. destruct (negb (negb (String.eqb s "")));
      eexists; reflexivity.
  - now contradiction (H fields).
Qed.

Lemma convertNode_SafeLinks node :
  SafeLinks node ->
  forall keyPrefix i,
    exists r i', convertNode node keyPrefix i = Return (r, i') /\ i <= i'.
Proof.
  intros H.
  induction H as [v Hv | fields children Hurl Hchildren _ IH
                 | fields Hurl Hchildren] using SafeLinks_ind.
  - intros keyPrefix i.
    destruct (convertNode_plain_returns v keyPrefix i Hv) as [r Hr].
    exists r, i. split; [exact Hr | lia].
  - apply convertNode_object_returns; [exact Hurl |].
    intros children' E. rewrite Hchildren in E. now injection E as <-.
  - apply convertNode_object_returns; [exact Hurl |].
    intros children' E. rewrite E in Hchildren. discriminate.
Qed.

(** ** The fragments returned are flat *)

Lemma flatten_array_flat v :
  isArray v = true -> Forall (fun item => isArray item = false) (flatten v).
Proof.
  induction v as [| | | | | items IH | | |] using value_ind;
    try discriminate.
  intros _. rewrite flatten_array.
  induction IH as [| item items Hitem _ IHitems]; [constructor |].
  cbn [flat_map]. apply Forall_app. split; [| exact IHitems].
  destruct (isBlank item); [constructor |].
  destruct (isArray item) eqn:A; [now apply Hitem |].
  constructor; [exact A | constructor].
Qed.

Lemma flatten_flat v : Forall (fun item => isArray item = false) (flatten v).
Proof.
  destruct (isArray v) eqn:A; [now apply flatten_array_flat |].
  rewrite (flatten_not_array v A). constructor; [exact A | constructor].
Qed.

Lemma fragments_flat v :
  Forall (fun item => isArray item = false) (fragments v).
Proof.
  unfold fragments. apply Forall_forall. intros x Hx.
  apply filter_In in Hx as [Hx _].
  exact (proj1 (Forall_forall _ _) (flatten_flat v) x Hx).
Qed.

Lemma flatten_flat_list items :
  Forall (fun item => isBlank item = false) items ->
  Forall (fun item => isArray item = false) items ->
  flatten (VArr items) = items.
Proof.
  rewrite flatten_array.
  induction 1 as [| item items Hb _ IH]; intros Hflat; [reflexivity |].
  inversion Hflat as [| ? ? Ha Hrest]; subst.
  cbn [flat_map]. rewrite Hb, Ha. cbn [app]. f_equal. now apply IH.
Qed.

(** X10: the sequence [parseRichTextLabel] returns holds no array,
    however deeply the converted label nests them; for every label
    but the empty string, flattening the returned sequence again
    leaves it as it is. *)
Theorem label_fragments_flat
    (label : value) (log log' : console) (out : list value)
    (Hreturn : parseRichTextLabel label log = Return (out, log')) :
  Forall (fun item => isArray item = false) out
  /\ (label <> VStr "" -> flatten (VArr out) = out).
Proof.
  assert (Hflat : Forall (fun item => isArray item = false) out).
  { destruct (negb (truthy label) || negb (isObject label)) eqn:E.
    - rewrite (parseRichTextLabel_primitive _ _ E) in Hreturn.
      injection Hreturn as <- _.
      destruct (isString label) eqn:S; (constructor; [| constructor]);
        [| reflexivity].
      destruct label; try discriminate; reflexivity.
    - rewrite (parseRichTextLabel_object _ _ E) in Hreturn.
      destruct (convertNode label "label" 0) as [[result n] |];
        [| discriminate].
      cbn [cbind] in Hreturn. injection Hreturn as <- _.
      pose proof (fragments_flat result) as H.
      destruct (fragments result); [| exact H].
      constructor; [reflexivity | constructor]. }
  split; [exact Hflat |].
  intros Hne. apply flatten_flat_list; [| exact Hflat].
  exact (proj1 (proj2 (parseRichTextLabel_fragments _ _ _ _ Hreturn Hne))).
Qed.

Lemma label_fragments_flat_witness :
  let label :=
    VObj [("type", VStr "root");
          ("children",
           VArr [VObj [("type", VStr "paragraph");
                       ("children",
                        VArr [VObj [("type", VStr "text");
                                    ("value", VStr "I agree")];
                              VObj [("type", VStr "section");
                                    ("children",
                                     VArr [VObj [("type", VStr "text");
                                                 ("value", VStr "!")]])]])]])] in
  Forall (fun item => isArray item = false) [VStr "I agree"; VStr "!"].
Proof.
  intros label.
  exact (proj1 (label_fragments_flat label [] _ [VStr "I agree"; VStr "!"]
                  eq_refl)).
Defined.

(** ** More on the variant filter *)

Lemma every_head {A} (f : A -> completion bool) x items :
  every f (x :: items) = Return true ->
  f x = Return true /\ every f items = Return true.
Proof.
  cbn [every]. destruct (f x) as [[] |]; cbn [cbind]; intros H;
    try discriminate. now split.
Qed.

(** X11: whatever the cart lines hold, a selection that passes the
    variant filter under the all-selectors policy
    ([match_any_variant] false) passes it under the any-selector
    policy as well. *)
Theorem all_policy_implies_any
    (variantSelection : string) (lines : list value)
    (Hall : variantFilter variantSelection false lines = Return true) :
  variantFilter variantSelection true lines = Return true.
Proof.
  unfold variantFilter in *.
  destruct (negb (String.eqb variantSelection "")); [| reflexivity].
  destruct (selectedVariants variantSelection) as [| selector rest];
    [reflexivity |].
  cbn [List.length Nat.ltb Nat.leb] in *.
  apply every_head in Hall as [Hfirst _].
  cbn [some]. now rewrite Hfirst.
Qed.

Lemma all_policy_implies_any_witness :
  let lines := [VObj [("merchandise", VObj [("id", VStr "A1")])];
                VObj [("variant", VObj [("id", VStr "B2")])]] in
  variantFilter "A, B" true lines = Return true.
Proof.
  intros lines. exact (all_policy_implies_any "A, B" lines eq_refl).
Defined.

Lemma existsb_app_l {A} (p : A -> bool) l l' :
  existsb p l = true -> existsb p (l ++ l') = true.
Proof. rewrite existsb_app. now intros ->. Qed.

(** X12: over string variant ids the variant filter is monotone in the
    cart: when it passes for a cart, it passes for that cart with
    further lines added, under either policy. *)
Theorem variant_filter_monotone
    (variantSelection : string) (matchAny : bool)
    (lines more : list value) (ids moreIds : list string)
    (Hids : cartVariantIds lines = map VStr ids)
    (Hmore : cartVariantIds more = map VStr moreIds)
    (Hpass : variantFilter variantSelection matchAny lines = Return true) :
  variantFilter variantSelection matchAny (lines ++ more) = Return true.
Proof.
  destruct (selectedVariants variantSelection) as [| s l] eqn:E.
  { now apply variantFilter_empty. }
  assert (Hne : selectedVariants variantSelection <> []) by now rewrite E.
  assert (Hids' : cartVariantIds (lines ++ more) = map VStr (ids ++ moreIds)).
  { now rewrite cartVariantIds_app, Hids, Hmore, map_app. }
  rewrite (variantFilter_strings _ matchAny _ _ Hids Hne) in Hpass.
  rewrite (variantFilter_strings _ matchAny _ _ Hids' Hne).
  injection Hpass as Hpass. f_equal.
  destruct matchAny.
  - apply existsb_exists in Hpass as (selector & Hin & H).
    apply existsb_exists. exists selector.
    split; [exact Hin | now apply existsb_app_l].
  - apply forallb_forall. intros selector Hin.
    apply existsb_app_l.
    exact (proj1 (forallb_forall _ _) Hpass selector Hin).
Qed.

Lemma variant_filter_monotone_witness :
  let lines := [VObj [("merchandise", VObj [("id", VStr "A1")])];
                VObj [("variant", VObj [("id", VStr "B2")])]] in
  let more := [VObj [("merchandise", VObj [("id", VStr "C3")])]; VNull] in
  variantFilter "A, B" false (lines ++ more) = Return true.
Proof.
  intros lines more.
  exact (variant_filter_monotone "A, B" false lines more
           ["A1"; "B2"] ["C3"] eq_refl eq_refl eq_refl).
Defined.

(** ** Parsing the selections *)

Lemma split_not_nil sep s : split sep s <> [].
Proof.
  destruct s as [| c s]; cbn [split]; [discriminate |].
  destruct (Ascii.eqb c sep); [discriminate |].
  destruct (split sep s); discriminate.
Qed.

Lemma split_app sep s t :
  split sep (s ++ String sep t) = split sep s ++ split sep t.
Proof.
  induction s as [| c s IH]; cbn [append split].
  - now rewrite Ascii.eqb_refl.
  - rewrite IH. destruct (Ascii.eqb c sep); [reflexivity |].
    destruct (split sep s) as [| piece pieces] eqn:E; [| reflexivity].
    now contradiction (split_not_nil sep s).
Qed.

Lemma selectedVariants_app s t :
  selectedVariants (s ++ "," ++ t)
  = selectedVariants s ++ selectedVariants t.
Proof.
  unfold selectedVariants.
  change ("," ++ t)%string with (String "," t).
  now rewrite split_app, map_app, filter_app.
Qed.

Lemma selectedCountries_app s t :
  selectedCountries (s ++ "," ++ t)
  = selectedCountries s ++ selectedCountries t.
Proof.
  unfold selectedCountries.
  change ("," ++ t)%string with (String "," t).
  now rewrite split_app, map_app, filter_app.
Qed.

(** X14: the selectors read from two selections joined by a comma are
    the selectors of the first followed by those of the second, for
    [variant_selection] and for [country_selection] alike; so a comma
    at the end or at the start of a selection, or a doubled comma,
    adds no selector. *)
Theorem selection_parsing_distributes (s t : string) :
  selectedVariants (s ++ "," ++ t) = selectedVariants s ++ selectedVariants t
  /\ selectedCountries (s ++ "," ++ t)
     = selectedCountries s ++ selectedCountries t
  /\ selectedVariants (s ++ ",") = selectedVariants s
  /\ selectedVariants ("," ++ s) = selectedVariants s
  /\ selectedCountries (s ++ ",") = selectedCountries s
  /\ selectedCountries ("," ++ s) = selectedCountries s
  /\ selectedVariants (s ++ ",," ++ t) = selectedVariants (s ++ "," ++ t).
Proof.
  split; [apply selectedVariants_app |].
  split; [apply selectedCountries_app |].
  split.
  { change (s ++ ",")%string with (s ++ "," ++ "")%string.
    rewrite selectedVariants_app. apply app_nil_r. }
  split.
  { change ("," ++ s)%string with ("" ++ "," ++ s)%string.
    now rewrite selectedVariants_app. }
  split.
  { change (s ++ ",")%string with (s ++ "," ++ "")%string.
    rewrite selectedCountries_app. apply app_nil_r. }
  split.
  { change ("," ++ s)%string with ("" ++ "," ++ s)%string.
    now rewrite selectedCountries_app. }
  change (s ++ ",," ++ t)%string with (s ++ "," ++ ("" ++ "," ++ t))%string.
  now rewrite !selectedVariants_app.
Qed.

(** ** Letter case in the country filter *)

Lemma upperChar_comma c : Ascii.eqb (upperChar c) "," = Ascii.eqb c ",".
Proof. destruct c as [[] [] [] [] [] [] [] []]; reflexivity. Qed.

Lemma split_toUpperCase s :
  split "," (toUpperCase s) = map toUpperCase (split "," s).
Proof.
  induction s as [| c s IH]; [reflexivity |].
  cbn [toUpperCase split]. rewrite upperChar_comma, IH.
  destruct (Ascii.eqb c ","); [reflexivity |].
  destruct (split "," s); reflexivity.
Qed.

Lemma selectedCountries_toUpperCase s :
  selectedCountries (toUpperCase s) = selectedCountries s.
Proof.
  unfold selectedCountries. rewrite split_toUpperCase, map_map.
  f_equal. apply map_ext. intros piece.
  now rewrite toUpperCase_trim, toUpperCase_idem.
Qed.

Lemma toUpperCase_empty s : String.eqb (toUpperCase s) "" = String.eqb s "".
Proof. destruct s; reflexivity. Qed.

(** X15: the country filter does not see the letter case: two
    selections that agree up to case, with two country codes that
    agree up to case, give the same result. *)
Theorem country_filter_ignores_case
    (selection selection' code code' : string)
    (Hselection : toUpperCase selection = toUpperCase selection')
    (Hcode : toUpperCase code = toUpperCase code') :
  countryFilter selection code = countryFilter selection' code'.
Proof.
  assert (H : forall s c,
             countryFilter s c = countryFilter (toUpperCase s) (toUpperCase c)).
  { intros s c. unfold countryFilter.
    now rewrite !toUpperCase_empty, selectedCountries_toUpperCase,
      toUpperCase_idem. }
  now rewrite (H selection code), (H selection' code'), Hselection, Hcode.
Qed.

Lemma country_filter_ignores_case_witness :
  countryFilter "us, Ca" "cA" = countryFilter "US, CA" "CA".
Proof.
  exact (country_filter_ignores_case "us, Ca" "US, CA" "cA" "CA"
           eq_refl eq_refl).
Defined.

(** ** The shipping address *)

Lemma addressUpdate_known address st st' :
  addressUpdate address st = Some st' ->
  isChecked st' = isChecked st
  /\ showError st' = showError st
  /\ cartLines st' = cartLines st
  /\ (countryCode st <> "" -> countryCode st' <> "")
  /\ (truthy (optProp address "countryCode") = false -> st' = st).
Proof.
  unfold addressUpdate.
  destruct (truthy (optProp address "countryCode")) eqn:T.
  - destruct (optProp address "countryCode") as [| | | | c | | | |];
      try discriminate.
    intros [= <-]. cbn. repeat split; try discriminate.
    intros _ E. cbn in T. rewrite E in T. discriminate.
  - intros [= <-]. repeat split; auto.
Qed.

(** X16: a sequence of shipping-address updates changes nothing but
    the country code, and a country code once known stays known:
    an address without a country code (or with an empty one) leaves
    the last code in place, so the country filter does not return to
    its pass for an unknown country. *)
Theorem address_updates_keep_country
    (addresses : list value) (st st' : state)
    (Hupdates : addressUpdates addresses st = Some st')
    (Hknown : countryCode st <> "") :
  countryCode st' <> ""
  /\ isChecked st' = isChecked st
  /\ showError st' = showError st
  /\ cartLines st' = cartLines st
  /\ (Forall (fun address => truthy (optProp address "countryCode") = false)
        addresses ->
      st' = st).
Proof.
  revert st Hupdates Hknown.
  induction addresses as [| address rest IH]; intros st Hupdates Hknown;
    cbn [addressUpdates] in Hupdates.
  - injection Hupdates as <-. repeat split; auto.
  - destruct (addressUpdate address st) as [st1 |] eqn:E; [| discriminate].
    destruct (addressUpdate_known _ _ _ E) as (Hc & He & Hl & Hk & Hsame).
    destruct (IH st1 Hupdates (Hk Hknown)) as (Hk' & Hc' & He' & Hl' & Hsame').
    split; [exact Hk' |]. split; [congruence |]. split; [congruence |].
    split; [congruence |].
    intros Hall. inversion Hall as [| ? ? Hfirst Hrest]; subst.
    rewrite (Hsame' Hrest). now apply Hsame.
Qed.

Lemma address_updates_keep_country_witness :
  let st := {| isChecked := true; showError := false;
               cartLines := []; countryCode := "US" |} in
  countryCode
    (setCountryCode "CA" st) <> "".
Proof.
  intros st.
  exact (proj1 (address_updates_keep_country
                  [VObj [("countryCode", VStr "")]; VNull;
                   VObj [("countryCode", VStr "CA")]; VObj []]
                  st (setCountryCode "CA" st) eq_refl
                  ltac:(discriminate))).
Defined.

(** ** Keys of the elements *)

Lemma digits_no_dash d before after :
  NilEmpty.string_of_uint d <> (before ++ String "-" after)%string.
Proof.
  revert before.
  induction d as [| d IH | d IH | d IH | d IH | d IH | d IH | d IH | d IH
                 | d IH | d IH];
    intros [| c before]; cbn; try discriminate;
    intros [= _ H]; exact (IH before H).
Qed.

Lemma string_of_nat_no_dash n before after :
  string_of_nat n <> (before ++ String "-" after)%string.
Proof.
  unfold string_of_nat, string_of_Z.
  destruct (Z.of_nat n) as [| p | p] eqn:E; cbn [Z.to_int].
  - destruct before as [| c [| c' before]]; cbn; discriminate.
  - cbn [NilZero.string_of_int NilZero.string_of_uint].
    pose proof (DecimalPos.Unsigned.to_uint_nonnil p) as Hnil.
    destruct (Pos.to_uint p) eqn:U; try now contradiction Hnil.
    all: match goal with
         | |- NilZero.string_of_uint ?d <> _ =>
             exact (digits_no_dash d before after)
         end.
  - pose proof (Zle_0_nat n). rewrite E in *. now contradiction H.
Qed.

Lemma string_of_Z_inj a b : string_of_Z a = string_of_Z b -> a = b.
Proof.
  unfold string_of_Z. intros H.
  apply DecimalZ.to_int_inj.
  assert (Hnz : forall z, Z.to_int z <> Decimal.Pos Decimal.Nil
                          /\ Z.to_int z <> Decimal.Neg Decimal.Nil).
  { intros [| p | p]; cbn; split; try discriminate;
      intros [= E]; exact (DecimalPos.Unsigned.to_uint_nonnil p E). }
  apply (f_equal NilZero.int_of_string) in H.
  rewrite !NilZero.isi in H by apply Hnz.
  now injection H.
Qed.

Lemma string_of_nat_inj n m : string_of_nat n = string_of_nat m -> n = m.
Proof.
  unfold string_of_nat. intros H. apply string_of_Z_inj in H.
  now apply Nat2Z.inj.
Qed.

Lemma dash_suffix_unique a1 a2 d1 d2 :
  (a1 ++ String "-" d1)%string = (a2 ++ String "-" d2)%string ->
  (forall before after, d1 <> (before ++ String "-" after)%string) ->
  (forall before after, d2 <> (before ++ String "-" after)%string) ->
  d1 = d2.
Proof.
  revert a2. induction a1 as [| c a1 IH]; intros [| c' a2]; cbn;
    intros H H1 H2.
  - now injection H.
  - injection H as _ H. now contradiction (H1 a2 d2).
  - injection H as _ H. symmetry in H. now contradiction (H2 a1 d1).
  - injection H as _ H. exact (IH a2 H H1 H2).
Qed.

Lemma key_index_unique a1 a2 n m :
  (a1 ++ "-" ++ string_of_nat n)%string = (a2 ++ "-" ++ string_of_nat m)%string ->
  n = m.
Proof.
  intros H. apply string_of_nat_inj.
  apply (dash_suffix_unique a1 a2); [exact H | |];
    intros before after; apply string_of_nat_no_dash.
Qed.

Lemma keysWithin_nil i i' : keysWithin i i' [].
Proof. split; constructor. Qed.

Lemma keysWithin_app i i1 i2 keys1 keys2 :
  keysWithin i i1 keys1 -> keysWithin i1 i2 keys2 ->
  i <= i1 -> i1 <= i2 ->
  keysWithin i i2 (keys1 ++ keys2).
Proof.
  intros [Hd1 Hr1] [Hd2 Hr2] Hle1 Hle2. split.
  - apply NoDup_app; [exact Hd1 | exact Hd2 |].
    intros key Hin1 Hin2.
    destruct (proj1 (Forall_forall _ _) Hr1 key Hin1) as (a1 & n & E1 & Hn).
    destruct (proj1 (Forall_forall _ _) Hr2 key Hin2) as (a2 & m & E2 & Hm).
    rewrite E1 in E2. apply key_index_unique in E2. lia.
  - apply Forall_app. split.
    + eapply Forall_impl; [| exact Hr1].
      intros key (a & n & E & Hn). exists a, n. split; [exact E | lia].
    + eapply Forall_impl; [| exact Hr2].
      intros key (a & n & E & Hn). exists a, n. split; [exact E | lia].
Qed.

Lemma keysWithin_cons i i1 before keys :
  keysWithin i i1 keys -> i <= i1 ->
  keysWithin i (S i1) ((before ++ "-" ++ string_of_nat i1)%string :: keys).
Proof.
  intros [Hd Hr] Hle. split.
  - constructor; [| exact Hd]. intros Hin.
    destruct (proj1 (Forall_forall _ _) Hr _ Hin) as (a & n & E & Hn).
    apply key_index_unique in E. lia.
  - constructor.
    + exists before, i1. split; [reflexivity | lia].
    + eapply Forall_impl; [| exact Hr].
      intros key (a & n & E & Hn). exists a, n. split; [exact E | lia].
Qed.

Lemma keysWithin_element i i1 kind keyPrefix keys :
  keysWithin i i1 keys -> i <= i1 ->
  keysWithin i (S i1)
    ((kind ++ "-" ++ keyPrefix ++ "-" ++ string_of_nat i1)%string :: keys).
Proof.
  intros Hk Hle.
  replace (kind ++ "-" ++ keyPrefix ++ "-" ++ string_of_nat i1)%string
    with ((kind ++ "-" ++ keyPrefix) ++ "-" ++ string_of_nat i1)%string
    by (now rewrite !append_assoc).
  now apply keysWithin_cons.
Qed.

Lemma plain_keysOf v : plain v = true -> keysOf v = [].
Proof.
  induction v as [| | | | | items IH | | |] using value_ind;
    cbn [plain keysOf]; try reflexivity; try discriminate.
  intros H. induction IH as [| item items Hitem _ IHitems]; [reflexivity |].
  cbn [forallb] in H. apply andb_true_iff in H as [H1 H2].
  cbn [flat_map]. now rewrite (Hitem H1), (IHitems H2).
Qed.

Lemma plain_get k fields :
  forallb (fun kv => plain (snd kv)) fields = true ->
  plain (get k fields) = true.
Proof.
  induction fields as [| [k' v] fields IH]; cbn [forallb get snd];
    [reflexivity |].
  intros H. apply andb_true_iff in H as [H1 H2].
  destruct (String.eqb k k'); auto.
Qed.

Lemma plain_or_else a b :
  plain a = true -> plain b = true -> plain (or_else a b) = true.
Proof. unfold or_else. now destruct (truthy a). Qed.

Lemma falsy_keysOf r : truthy r = false -> keysOf r = [].
Proof. destruct r; cbn; intros H; try discriminate; reflexivity. Qed.

Lemma keysOf_filter_truthy rs :
  flat_map keysOf (filter truthy rs) = flat_map keysOf rs.
Proof.
  induction rs as [| r rs IH]; [reflexivity |].
  cbn [filter flat_map]. destruct (truthy r) eqn:T.
  - cbn [flat_map]. now rewrite IH.
  - now rewrite (falsy_keysOf r T), IH.
Qed.

Lemma mapFrom_keys (keyOf : nat -> string) children :
  Forall
    (fun child =>
       plain child = true ->
       forall keyPrefix i r i',
         convertNode child keyPrefix i = Return (r, i') ->
         i <= i' /\ keysWithin i i' (keysOf r))
    children ->
  forallb plain children = true ->
  forall k i rs i',
    mapFrom (fun child j => convertNode child (keyOf j)) k children i
    = Return (rs, i') ->
    i <= i' /\ keysWithin i i' (flat_map keysOf rs).
Proof.
  induction 1 as [| child children Hchild _ IH]; intros Hplain k i rs i' H.
  - injection H as <- <-. split; [lia | apply keysWithin_nil].
  - cbn [forallb] in Hplain. apply andb_true_iff in Hplain as [Hp1 Hp2].
    cbn [mapFrom] in H. unfold bind at 1 in H.
    destruct (convertNode child (keyOf k) i) as [[r i1] |] eqn:Hr;
      [| discriminate].
    unfold bind at 1 in H. fold (@mapFrom value value) in H.
    destruct (mapFrom _ (S k) children i1) as [[rs' i2] |] eqn:Hrest;
      [| discriminate].
    injection H as <- <-.
    destruct (Hchild Hp1 _ _ _ _ Hr) as [Hle1 Hk1].
    destruct (IH Hp2 _ _ _ _ Hrest) as [Hle2 Hk2].
    split; [lia |]. cbn [flat_map].
    now apply (keysWithin_app i i1 i2).
Qed.

Lemma get_Forall (Q : value -> Prop) k fields :
  Forall (fun kv => Q (snd kv)) fields -> Q VUndef -> Q (get k fields).
Proof.
  induction 1 as [| [k' v] fields Hv _ IH]; intros Hundef; cbn [get];
    [exact Hundef |].
  destruct (String.eqb k k'); [exact Hv | now apply IH].
Qed.

(** Induction on a value as a node: the hypothesis is available on the
    elements of the [children] array of an object. *)
Lemma value_children_ind (P : value -> Prop) :
  (forall v, (forall fields, v <> VObj fields) -> P v) ->
  (forall fields,
     (forall children,
        get "children" fields = VArr children -> Forall P children) ->
     P (VObj fields)) ->
  forall v, P v.
Proof.
  intros Hplain Hobj v.
  enough (H : P v /\ forall items, v = VArr items -> Forall P items)
    by apply H.
  induction v as [| | b | n | s | items IH | fields IH | key e c IH
                 | key hr t c _ _] using value_ind;
    try (split; [apply Hplain; intros fields'; discriminate
                | intros items'; discriminate]).
  - split; [apply Hplain; intros fields'; discriminate |].
    intros items' [= <-].
    eapply Forall_impl; [| exact IH]. now intros x [Hx _].
  - split; [| intros items'; discriminate].
    apply Hobj. intros children E.
    assert (H : P (get "children" fields)
                /\ forall items,
                     get "children" fields = VArr items -> Forall P items).
    { apply (get_Forall
               (fun v => P v /\ forall items, v = VArr items -> Forall P items));
        [exact IH |].
      split; [apply Hplain; intros fields'; discriminate
             | intros items'; discriminate]. }
    now apply H.
Qed.

Lemma convertNode_plain_keys v keyPrefix i r i' :
  (forall fields, v <> VObj fields) ->
  plain v = true ->
  convertNode v keyPrefix i = Return (r, i') ->
  i <= i' /\ keysWithin i i' (keysOf r).
Proof.
  intros Hv Hplain H.
  assert (E : i' = i /\ keysOf r = []).
  { destruct v as [| | b | n | s | | fields | |]; try discriminate;
      try (injection H as <- <-; now split).
    - destruct b; injection H as <- <-; now split.
    - cbn [convertNode truthy] in H.
      destruct (negb (negb (Z.eqb n 0))); injection H as <- <-; now split.
    - cbn [convertNode truthy] in H.
      destruct (negb (negb (String.eqb s ""))); injection H as <- <-;
        now split.
    - now contradiction (Hv fields). }
  destruct E as [-> ->]. split; [lia | apply keysWithin_nil].
Qed.

Lemma convertNode_object_keys fields :
  (forall children,
     get "children" fields = VArr children ->
     Forall
       (fun child =>
          plain child = true ->
          forall keyPrefix i r i',
            convertNode child keyPrefix i = Return (r, i') ->
            i <= i' /\ keysWithin i i' (keysOf r))
       children) ->
  plain (VObj fields) = true ->
  forall keyPrefix i r i',
    convertNode (VObj fields) keyPrefix i = Return (r, i') ->
    i <= i' /\ keysWithin i i' (keysOf r).
Proof.
  intros Hkids Hplain keyPrefix i r i' H. cbn [plain] in Hplain.
  assert (Hget : forall k, plain (get k fields) = true)
    by (intros k; now apply plain_get).
  assert (Htext : keysOf (nodeText fields) = []).
  { apply plain_keysOf. unfold nodeText.
    repeat apply plain_or_else; auto. }
  assert (Hmap : forall keyOf children rs i1,
             get "children" fields = VArr children ->
             mapWithIndex (fun child j => convertNode child (keyOf j))
               children i = Return (rs, i1) ->
             i <= i1 /\ keysWithin i i1 (flat_map keysOf (filter truthy rs))).
  { intros keyOf children rs i1 E M.
    rewrite keysOf_filter_truthy.
    apply (mapFrom_keys keyOf children (Hkids children E)) with (k := 0);
      [| exact M].
    specialize (Hget "children"). now rewrite E in Hget. }
  destruct (strictEqStr (get "type" fields) "text") eqn:Ht.
  { apply strictEqStr_true in Ht. rewrite (convertNode_text _ _ Ht) in H.
    injection H as <- <-. rewrite Htext.
    split; [lia | apply keysWithin_nil]. }
  assert (Hstyled : forall emphasis,
             emphasis = "bold" \/ emphasis = "italic" ->
             get "type" fields = VStr emphasis ->
             i <= i' /\ keysWithin i i' (keysOf r)).
  { intros emphasis Hem Hty.
    rewrite (convertNode_styled _ keyPrefix emphasis Hem Hty) in H.
    destruct (get "children" fields) as [| | | | | children | | |] eqn:E.
    6: {
      unfold bind, ret, postIncr in H.
      destruct (mapWithIndex _ children i) as [[rs i1] |] eqn:M;
        [| discriminate].
      injection H as <- <-.
      destruct (Hmap _ children rs i1 eq_refl M) as [Hle Hk].
      split; [lia |]. cbn [keysOf].
      now apply keysWithin_element. }
    all: injection H as <- <-; cbn [keysOf flat_map]; rewrite Htext;
      cbn [app]; (split; [lia |]);
      apply keysWithin_element; [apply keysWithin_nil | lia]. }
  destruct (strictEqStr (get "type" fields) "bold") eqn:Hb.
  { apply (Hstyled "bold"); [now left | now apply strictEqStr_true]. }
  destruct (strictEqStr (get "type" fields) "italic") eqn:Hi.
  { apply (Hstyled "italic"); [now right | now apply strictEqStr_true]. }
  clear Hstyled.
  destruct (strictEqStr (get "type" fields) "link") eqn:Hl.
  { apply strictEqStr_true in Hl.
    rewrite (convertNode_link _ keyPrefix Hl) in H.
    destruct (get "children" fields) as [| | | | | children | | |] eqn:E.
    6: {
      unfold bind, ret, postIncr, lift in H.
      destruct (mapWithIndex _ children i) as [[rs i1] |] eqn:M;
        [| discriminate].
      destruct (optStartsWith (get "url" fields) "http"); [| discriminate].
      cbn [cbind] in H. injection H as <- <-.
      destruct (Hmap _ children rs i1 eq_refl M) as [Hle _].
      split; [lia |]. cbn [keysOf].
      replace (keysOf (or_else (VStr (join "" (filter truthy rs)))
                         (or_else (get "url" fields) (VStr "link"))))
        with (@nil string)
        by (symmetry; apply plain_keysOf; apply plain_or_else;
            [reflexivity | now apply plain_or_else]).
      apply (keysWithin_element i i1 "link" keyPrefix);
        [apply keysWithin_nil | exact Hle]. }
    all: unfold bind, ret, postIncr, lift in H.
    all: destruct (optStartsWith (get "url" fields) "http"); [| discriminate].
    all: cbn [cbind] in H; injection H as <- <-.
    all: split; [lia |]; cbn [keysOf].
    all: match goal with
         | |- keysWithin _ _ (_ :: keysOf ?c) =>
             replace (keysOf c) with (@nil string)
               by (symmetry; apply plain_keysOf;
                   repeat apply plain_or_else; auto)
         end.
    all: apply (keysWithin_element i i "link" keyPrefix);
      [apply keysWithin_nil | lia]. }
  rewrite (convertNode_container _ keyPrefix Ht Hb Hi Hl) in H.
  destruct (get "children" fields) as [| | | | | children | | |] eqn:E.
  6: {
    unfold bind, ret in H.
    destruct (mapWithIndex _ children i) as [[rs i1] |] eqn:M;
      [| discriminate].
    injection H as <- <-. cbn [keysOf].
    exact (Hmap _ children rs i1 eq_refl M). }
  all: injection H as <- <-; split; [lia | apply keysWithin_nil].
Qed.

Lemma convertNode_keys node :
  plain node = true ->
  forall keyPrefix i r i',
    convertNode node keyPrefix i = Return (r, i') ->
    i <= i' /\ keysWithin i i' (keysOf r).
Proof.
  induction node as [v Hv | fields IH] using value_children_ind.
  - intros Hplain keyPrefix i r i' H.
    exact (convertNode_plain_keys v keyPrefix i r i' Hv Hplain H).
  - now apply convertNode_object_keys.
Qed.

Lemma flat_map_flat_map {A B C} (f : A -> list B) (g : B -> list C) l :
  flat_map g (flat_map f l) = flat_map (fun x => flat_map g (f x)) l.
Proof.
  induction l as [| x l IH]; [reflexivity |].
  cbn [flat_map]. now rewrite flat_map_app, IH.
Qed.

Lemma blank_keysOf v : isBlank v = true -> keysOf v = [].
Proof. destruct v; cbn; intros H; try discriminate; reflexivity. Qed.

Lemma keysOf_fragments v : flat_map keysOf (fragments v) = keysOf v.
Proof.
  induction v as [| | | | | items IH | | |] using value_ind.
  6: {
    rewrite fragments_array, flat_map_flat_map. cbn [keysOf].
    induction IH as [| item items Hitem _ IHitems]; [reflexivity |].
    cbn [flat_map]. now rewrite Hitem, IHitems. }
  all: unfold fragments; cbn [flatten filter].
  all: match goal with
       | |- flat_map keysOf (if negb (isBlank ?v) then _ else _) = _ =>
           destruct (isBlank v) eqn:B; cbn [negb flat_map];
           [now rewrite (blank_keysOf v B) | apply app_nil_r]
       end.
Qed.

(** X17: the keys of the JSX elements are pairwise distinct.  For a
    label that is a JSON value, the [s-text] and [s-link] elements in
    the fragments [parseRichTextLabel] returns, at any depth, carry keys
    that differ from one another: each key ends with the value
    [nodeIndex] had when the element was built, and [nodeIndex] is
    increased after each use. *)
Theorem label_keys_distinct
    (label : value) (log log' : console) (out : list value)
    (Hplain : plain label = true)
    (Hreturn : parseRichTextLabel label log = Return (out, log')) :
  NoDup (flat_map keysOf out).
Proof.
  destruct (negb (truthy label) || negb (isObject label)) eqn:E.
  - rewrite (parseRichTextLabel_primitive _ _ E) in Hreturn.
    injection Hreturn as <- _.
    destruct (isString label); cbn [flat_map];
      [rewrite (plain_keysOf label Hplain) |]; constructor.
  - rewrite (parseRichTextLabel_object _ _ E) in Hreturn.
    destruct (convertNode label "label" 0) as [[result n] |] eqn:C;
      [| discriminate].
    cbn [cbind] in Hreturn. injection Hreturn as <- _.
    destruct (convertNode_keys label Hplain _ _ _ _ C) as [_ [Hdistinct _]].
    destruct (fragments result) eqn:F; [constructor |].
    rewrite <- F, keysOf_fragments. exact Hdistinct.
Qed.

Lemma label_keys_distinct_witness :
  let text s := VObj [("type", VStr "text"); ("value", VStr s)] in
  let label :=
    VObj [("type", VStr "root");
          ("children",
           VArr [VObj [("type", VStr "paragraph");
                       ("children",
                        VArr [VObj [("type", VStr "bold");
                                    ("children",
                                     VArr [VObj [("type", VStr "italic");
                                                 ("children",
                                                  VArr [text "I agree"])]])];
                              text " to the ";
                              VObj [("type", VStr "link");
                                    ("url", VStr "https://example.com");
                                    ("children", VArr [text "terms"])]])]])] in
  NoDup ["bold-label-0-0-1"; "italic-label-0-0-bold-0-0"; "link-label-0-2-2"].
Proof.
  intros text label.
  exact (label_keys_distinct label [] _ _ eq_refl eq_refl).
Defined.

(** ** Blank selections *)

Lemma allWhite_split s :
  forallb allWhite (split "," s) = blankSelection s.
Proof.
  induction s as [| c s IH]; [reflexivity |].
  cbn [split blankSelection].
  destruct (Ascii.eqb c ",") eqn:E.
  - cbn [forallb allWhite]. rewrite IH. now rewrite orb_true_r.
  - rewrite orb_false_r, <- IH.
    destruct (split "," s) as [| piece pieces] eqn:S.
    + now contradiction (split_not_nil "," s).
    + cbn [forallb allWhite]. now rewrite andb_assoc.
Qed.

Lemma allWhite_trim s : allWhite s = String.eqb (trim s) "".
Proof.
  destruct (String.eqb_spec (trim s) "") as [H | H].
  - now apply trim_empty_iff.
  - destruct (allWhite s) eqn:W; [| reflexivity].
    apply trim_empty_iff in W. contradiction.
Qed.

Lemma filter_nil_forallb {A} (p : A -> bool) l :
  filter p l = [] <-> forallb (fun x => negb (p x)) l = true.
Proof.
  induction l as [| x l IH]; cbn; [tauto |].
  destruct (p x); cbn; [split; discriminate | exact IH].
Qed.

Lemma forallb_map_ext {A B} (p : B -> bool) (q : A -> bool) (f : A -> B) l :
  (forall x, p (f x) = q x) -> forallb p (map f l) = forallb q l.
Proof.
  intros E. induction l as [| x l IH]; [reflexivity |].
  cbn. now rewrite E, IH.
Qed.

Lemma selectedVariants_blank s :
  selectedVariants s = [] <-> blankSelection s = true.
Proof.
  unfold selectedVariants. rewrite filter_nil_forallb, <- allWhite_split.
  rewrite (forallb_map_ext _ allWhite); [reflexivity |].
  intros piece. rewrite allWhite_trim. now destruct (trim piece).
Qed.

Lemma selectedCountries_blank s :
  selectedCountries s = [] <-> blankSelection s = true.
Proof.
  unfold selectedCountries. rewrite filter_nil_forallb, <- allWhite_split.
  rewrite (forallb_map_ext _ allWhite); [reflexivity |].
  intros piece.
  now rewrite negb_involutive, toUpperCase_empty, allWhite_trim.
Qed.

(** ** Labels with well-formed links *)

Lemma parseRichTextLabel_returns label log :
  SafeLinks label ->
  exists out log', parseRichTextLabel label log = Return (out, log').
Proof.
  intros Hsafe. unfold parseRichTextLabel.
  destruct (negb (truthy label) || negb (isObject label)); [eauto |].
  destruct (convertNode_SafeLinks label Hsafe "label" 0)
    as (r & i' & Hr & _).
  rewrite Hr. cbn [cbind]. eauto.
Qed.

(** At mount, an address that is absent or has no country code leaves
    the state as it is. *)
Lemma mountAddress_absent shippingAddress st :
  truthy (optProp (optProp shippingAddress "value") "countryCode") = false ->
  mountAddress shippingAddress st = Some st.
Proof.
  unfold mountAddress, addressUpdate. now intros ->.
Qed.

(** * The code on every string and every value *)

(** ** ASCII strings *)

Lemma isWhite_isAsciiChar c : isWhite c = true -> isAsciiChar c = true.
Proof.
  destruct c as [[] [] [] [] [] [] [] []]; cbv; intros H;
    first [reflexivity | discriminate H].
Qed.

Lemma isAscii_split sep s :
  isAscii s = true -> Forall (fun piece => isAscii piece = true) (split sep s).
Proof.
  induction s as [| c s IH]; cbn [split isAscii]; intros H.
  - repeat constructor.
  - apply andb_true_iff in H as [Hc Hs]. specialize (IH Hs).
    destruct (Ascii.eqb c sep).
    + constructor; [reflexivity | exact IH].
    + destruct (split sep s) as [| piece pieces].
      * constructor; [| constructor]. cbn [isAscii]. now rewrite Hc.
      * inversion IH as [| ? ? Hpiece Hpieces]; subst.
        constructor; [| exact Hpieces]. cbn [isAscii]. now rewrite Hc.
Qed.

Lemma isAscii_trimStart s : isAscii s = true -> isAscii (trimStart s) = true.
Proof.
  induction s as [| c s IH]; cbn [trimStart]; [reflexivity |].
  intros H. destruct (isWhite c); [| exact H].
  cbn [isAscii] in H. apply andb_true_iff in H as [_ Hs]. now apply IH.
Qed.

Lemma isAscii_trimEnd s : isAscii s = true -> isAscii (trimEnd s) = true.
Proof.
  induction s as [| c s IH]; cbn [trimEnd isAscii]; [reflexivity |].
  intros H. apply andb_true_iff in H as [Hc Hs]. specialize (IH Hs).
  destruct (trimEnd s) as [| d r].
  - destruct (isWhite c); [reflexivity |]. cbn [isAscii]. now rewrite Hc.
  - cbn [isAscii] in *. now rewrite Hc, IH.
Qed.

Lemma isAscii_trim s : isAscii s = true -> isAscii (trim s) = true.
Proof.
  intros H. unfold trim. now apply isAscii_trimEnd, isAscii_trimStart.
Qed.

Lemma allWhite_isAscii s : allWhite s = true -> isAscii s = true.
Proof.
  induction s as [| c s IH]; cbn [allWhite isAscii]; [reflexivity |].
  intros H. apply andb_true_iff in H as [Hc Hs].
  now rewrite (isWhite_isAsciiChar c Hc), IH.
Qed.

Lemma blankSelection_isAscii s : blankSelection s = true -> isAscii s = true.
Proof.
  induction s as [| c s IH]; cbn [blankSelection isAscii]; [reflexivity |].
  intros H. apply andb_true_iff in H as [Hc Hs]. rewrite (IH Hs), andb_true_r.
  apply orb_true_iff in Hc as [Hc | Hc].
  - now apply isWhite_isAsciiChar.
  - apply Ascii.eqb_eq in Hc. now subst.
Qed.

(** ** Printable values *)

Lemma mapC_Return {A B} (f : A -> completion B) (g : A -> B) items :
  Forall (fun x => f x = Return (g x)) items ->
  mapC f items = Return (map g items).
Proof.
  induction 1 as [| x items Hx _ IH]; [reflexivity |].
  cbn [mapC map]. rewrite Hx. cbn [cbind].
  fold (@mapC A B f). now rewrite IH.
Qed.

Lemma mapC_Forall2 {A B C} (f : A -> completion B) (g : C -> B) items items' :
  Forall2 (fun x y => f x = Return (g y)) items items' ->
  mapC f items = Return (map g items').
Proof.
  induction 1 as [| x y items items' Hx _ IH]; [reflexivity |].
  cbn [mapC map]. rewrite Hx. cbn [cbind].
  fold (@mapC A B f). now rewrite IH.
Qed.

(** On printable values [ToStringC] and [joinC] return what [ToString]
    and [join] give. *)
Lemma ToStringC_printable v :
  printable v = true -> ToStringC v = Return (ToString v).
Proof.
  induction v as [| | b | n | s | items IH | fields _ | k e c _ | k h t c _ _]
    using value_ind; try reflexivity.
  - cbn [printable ToStringC ToString]. intros Hall.
    rewrite (mapC_Return _ (fun x => match x with
                                     | VUndef | VNull => ""
                                     | _ => ToString x
                                     end)); [reflexivity |].
    rewrite forallb_forall in Hall. rewrite Forall_forall in *.
    intros x Hin. specialize (IH x Hin (Hall x Hin)).
    destruct x; try reflexivity; exact IH.
  - cbn [printable ToStringC ToString]. intros H.
    apply andb_true_iff in H as [H _]. apply negb_true_iff in H.
    now rewrite H.
Qed.

Lemma joinC_printable sep items :
  forallb printable items = true -> joinC sep items = Return (join sep items).
Proof.
  intros Hall. unfold joinC, join.
  rewrite (mapC_Return _ joinItem); [reflexivity |].
  rewrite forallb_forall in Hall. rewrite Forall_forall.
  intros x Hin. specialize (Hall x Hin).
  destruct x; try reflexivity; now apply ToStringC_printable.
Qed.

Lemma get_printable k fields :
  forallb (fun kv => printable (snd kv)) fields = true ->
  printable (get k fields) = true.
Proof.
  induction fields as [| [k' v] fields IH]; cbn [get forallb snd];
    [reflexivity |].
  intros H. apply andb_true_iff in H as [Hv Hrest].
  destruct (String.eqb k k'); [exact Hv | now apply IH].
Qed.

Lemma printable_get k fields :
  printable (VObj fields) = true -> printable (get k fields) = true.
Proof.
  cbn [printable]. intros H. apply andb_true_iff in H as [_ H].
  now apply get_printable.
Qed.

Lemma printable_children fields children :
  printable (VObj fields) = true ->
  get "children" fields = VArr children ->
  forallb printable children = true.
Proof.
  intros H E. apply (printable_get "children") in H.
  now rewrite E in H.
Qed.

Lemma nodeText_printable fields :
  printable (VObj fields) = true -> printable (nodeText fields) = true.
Proof.
  intros H. unfold nodeText, or_else.
  destruct (truthy (get "value" fields)); [now apply printable_get |].
  destruct (truthy (get "text" fields)); [now apply printable_get |].
  reflexivity.
Qed.

(** ** The settings accessor on every value *)

Lemma Exact_extractFromNode_object fields :
  Exact.extractFromNode (VObj fields)
  = if strictEqStr (get "type" fields) "text" then Return (nodeText fields)
    else match get "children" fields with
         | VArr children =>
             texts <- mapC Exact.extractFromNode children ;;
             text <- joinC "" texts ;;
             Return (VStr text)
         | _ => Return (VStr "")
         end.
Proof.
  cbn [Exact.extractFromNode truthy negb]. rewrite !withChildrenArray_get.
  destruct (strictEqStr (get "type" fields) "text"); [reflexivity |].
  destruct (strictEqStr (get "type" fields) "root"
            && truthy (get "children" fields)); reflexivity.
Qed.

Lemma extractFromNode_printable node :
  printable node = true -> printable (extractFromNode node) = true.
Proof.
  intros H.
  destruct node as [| | b | n | s | items | fields | k e c | k h t c];
    try reflexivity.
  - cbn [extractFromNode]. now destruct (negb (truthy (VBool b))).
  - cbn [extractFromNode]. now destruct (negb (truthy (VNum n))).
  - cbn [extractFromNode]. now destruct (negb (truthy (VStr s))).
  - rewrite extractFromNode_object.
    destruct (strictEqStr (get "type" fields) "text");
      [now apply nodeText_printable |].
    now destruct (get "children" fields).
Qed.

Lemma Exact_extractFromNode_plain node :
  (forall fields, node <> VObj fields) ->
  Exact.extractFromNode node = Return (extractFromNode node).
Proof.
  intros H.
  destruct node as [| | b | n | s | items | fields | k e c | k h t c];
    try reflexivity.
  - cbn [Exact.extractFromNode extractFromNode].
    now destruct (negb (truthy (VBool b))).
  - cbn [Exact.extractFromNode extractFromNode].
    now destruct (negb (truthy (VNum n))).
  - cbn [Exact.extractFromNode extractFromNode].
    now destruct (negb (truthy (VStr s))).
  - now contradiction (H fields).
Qed.

(** On a printable value the extraction returns, and what it returns
    is [extractFromNode]. *)
Lemma Exact_extractFromNode_printable node :
  printable node = true ->
  Exact.extractFromNode node = Return (extractFromNode node).
Proof.
  induction node as [node Hplain | fields IH] using value_children_ind;
    intros Hp.
  - now apply Exact_extractFromNode_plain.
  - rewrite Exact_extractFromNode_object, extractFromNode_object.
    destruct (strictEqStr (get "type" fields) "text"); [reflexivity |].
    destruct (get "children" fields) as [| | | | | children | | |] eqn:E;
      try reflexivity.
    pose proof (printable_children fields children Hp E) as Hkids.
    specialize (IH children eq_refl).
    rewrite (mapC_Return _ extractFromNode).
    2: { rewrite forallb_forall in Hkids. rewrite Forall_forall in *.
         intros child Hin. exact (IH child Hin (Hkids child Hin)). }
    cbn [cbind]. rewrite joinC_printable; [reflexivity |].
    rewrite forallb_forall in *. intros text Hin.
    apply in_map_iff in Hin as (child & <- & Hin).
    apply extractFromNode_printable. now apply Hkids.
Qed.

Lemma Exact_extractFromNode_RichText node s :
  RichText node s -> Exact.extractFromNode node = Return (VStr s).
Proof.
  intros H.
  induction H as [fields s Htype Htext
                 | fields children texts Htype Hchildren _ IH
                 | fields Htype Hchildren] using RichText_ind;
    rewrite Exact_extractFromNode_object.
  - rewrite Htype. cbn [strictEqStr]. rewrite String.eqb_refl.
    now rewrite Htext.
  - rewrite Htype, Hchildren.
    rewrite (mapC_Forall2 _ VStr _ texts IH). cbn [cbind].
    rewrite joinC_printable.
    + now rewrite join_strings.
    + apply forallb_forall. intros x Hin.
      apply in_map_iff in Hin as (t & <- & _). reflexivity.
  - rewrite Htype. destruct (get "children" fields); try reflexivity.
    discriminate.
Qed.

Lemma Exact_getStringSetting_RichText trimFn settings key dflt s :
  RichText (get key settings) s ->
  Exact.getStringSetting trimFn settings key dflt
  = Return (if String.eqb s "" || String.eqb (trimFn s) "" then dflt else s).
Proof.
  intros H.
  pose proof (Exact_extractFromNode_RichText _ _ H) as Hx.
  destruct (RichText_object _ _ H) as [fields E].
  unfold Exact.getStringSetting. rewrite E in *.
  unfold Exact.extractTextFromRichText.
  cbn [isString typeof truthy negb isObject orb]. rewrite Hx.
  cbn [cbind truthy].
  destruct (String.eqb s ""); cbn [negb orb]; [reflexivity |].
  destruct (String.eqb (trimFn s) ""); reflexivity.
Qed.

(** For an ASCII text the two tests of line 43 say that the text has a
    character that is not white space. *)
Lemma blank_allWhite trimFn s :
  trimsAscii trimFn -> isAscii s = true ->
  String.eqb s "" || String.eqb (trimFn s) "" = allWhite s.
Proof.
  intros Ht Hs. rewrite (Ht s Hs).
  destruct (String.eqb_spec s "") as [-> | _]; [reflexivity |].
  cbn [orb]. destruct (String.eqb_spec (trim s) "") as [E | E].
  - symmetry. now apply trim_empty_iff.
  - destruct (allWhite s) eqn:W; [| reflexivity].
    apply trim_empty_iff in W. contradiction.
Qed.

Lemma Exact_getStringSetting_object trimFn settings key dflt fields :
  get key settings = VObj fields ->
  printable (VObj fields) = true ->
  Exact.getStringSetting trimFn settings key dflt
  = match extractFromNode (VObj fields) with
    | VStr s =>
        Return (if negb (String.eqb s "") && negb (String.eqb (trimFn s) "")
                then s else dflt)
    | extracted => if truthy extracted then Throw else Return dflt
    end.
Proof.
  intros E Hp. unfold Exact.getStringSetting. rewrite E.
  unfold Exact.extractTextFromRichText.
  cbn [isString typeof truthy negb isObject orb].
  rewrite (Exact_extractFromNode_printable _ Hp). cbn [cbind].
  destruct (extractFromNode (VObj fields)) as [| | b | n | s | | | |];
    cbn [truthy]; try reflexivity.
  destruct (negb (String.eqb s "")); reflexivity.
Qed.

Lemma Exact_getStringSetting_not_object trimFn settings key dflt :
  (forall fields, get key settings <> VObj fields) ->
  exists r, Exact.getStringSetting trimFn settings key dflt = Return r.
Proof.
  intros H. unfold Exact.getStringSetting.
  destruct (get key settings) as [| | b | n | s | items | fields | k e c
                                 | k hr t c];
    try (eexists; reflexivity).
  now contradiction (H fields).
Qed.

(** On a printable stored value, and with [Str.trim] for [trim], the
    accessor is [getStringSetting]. *)
Lemma Exact_getStringSetting_printable settings key dflt :
  printable (get key settings) = true ->
  Exact.getStringSetting trim settings key dflt
  = getStringSetting settings key dflt.
Proof.
  intros Hp.
  destruct (get key settings) as [| | b | n | s | items | fields | k e c
                                 | k hr t c] eqn:E;
    try (unfold Exact.getStringSetting, getStringSetting; rewrite E;
         reflexivity).
  rewrite (Exact_getStringSetting_object _ _ _ _ _ E Hp).
  now rewrite (getStringSetting_object _ _ _ _ E).
Qed.

(** C7, as first stated, fails on a boolean and on a number stored
    under the key: [getStringSetting] returns the printed value, not
    the default. *)
Lemma getString_boolean_not_default :
  Exact.getStringSetting trim [("block_error_message", VBool true)]
    "block_error_message" "Please accept the terms to continue"
  = Return "true"
  /\ Exact.getStringSetting trim [("block_error_message", VNum 7)]
       "block_error_message" "Please accept the terms to continue"
     = Return "7".
Proof. split; reflexivity. Qed.

(** C7 (amended): [getStringSetting], whatever [trim] does outside
    ASCII, returns the stored value when it is a string, and the
    default when the key is absent or holds [null] or an array; on a
    boolean it returns "true" or "false", and on a number it returns a
    string, which for a safe integer is its decimal form; on a
    rich-text document, and on an object that has neither the type
    'text' nor a [children] array (its text is empty), it returns the
    concatenation of the values of the [text] nodes in document order,
    or the default when that text is empty or [trim] leaves nothing of
    it, which for an ASCII text is to say that it is made of white
    space only.  In each of these cases it returns and does not
    raise. *)
Theorem getString_cases
    (trimFn : string -> string) (settings : settings_t) (key dflt : string) :
  let result := Exact.getStringSetting trimFn settings key dflt in
  match get key settings with
  | VUndef | VNull => result = Return dflt
  | VStr s => result = Return s
  | VBool b => result = Return (if b then "true" else "false")
  | VNum n =>
      exists printed,
        result = Return printed
        /\ (safeInteger n = true -> printed = string_of_Z n)
  | VArr _ => result = Return dflt
  | _ =>
      forall s,
        RichText (get key settings) s ->
        result
        = Return (if String.eqb s "" || String.eqb (trimFn s) ""
                  then dflt else s)
        /\ (trimsAscii trimFn -> isAscii s = true ->
            result = Return (if allWhite s then dflt else s))
  end.
Proof.
  intros result. subst result.
  destruct (get key settings) as [| | [] | n | | | | |] eqn:E;
    try (unfold Exact.getStringSetting; rewrite E; reflexivity).
  { exists (string_of_Z n). split; [| reflexivity].
    unfold Exact.getStringSetting. now rewrite E. }
  all: intros s H; rewrite <- E in H;
    pose proof (Exact_getStringSetting_RichText trimFn settings key dflt s H)
      as Hr;
    split; [exact Hr |];
    intros Ht Hs; now rewrite Hr, (blank_allWhite trimFn s Ht Hs).
Qed.

Lemma getString_cases_witness :
  let document text :=
    VObj [("type", VStr "root");
          ("children",
           VArr [VObj [("type", VStr "paragraph");
                       ("children",
                        VArr [VObj [("type", VStr "text");
                                    ("value", VStr text)];
                              VObj [("type", VStr "linebreak")]])]])] in
  let get value :=
    Exact.getStringSetting trim [("block_error_message", value)]
      "block_error_message" "Please accept" in
  get (document "Tick the box") = Return "Tick the box"
  /\ get (document "   ") = Return "Please accept"
  /\ get (VObj [("id", VNum 3)]) = Return "Please accept"
  /\ get (VArr [VStr "Tick"]) = Return "Please accept"
  /\ exists printed,
       get (VNum 42) = Return printed
       /\ (safeInteger 42 = true -> printed = "42").
Proof.
  intros document get.
  assert (Hdoc : forall text, RichText (document text) text).
  { intros text.
    change text with (String.concat "" [text]) at 2.
    apply (RichText_children _
             [VObj [("type", VStr "paragraph");
                    ("children",
                     VArr [VObj [("type", VStr "text"); ("value", VStr text)];
                           VObj [("type", VStr "linebreak")]])]]
             [text]); [reflexivity | reflexivity |].
    constructor; [| constructor].
    replace text with (String.concat "" [text; ""]) at 2
      by (cbn; apply append_empty_r).
    apply (RichText_children _
             [VObj [("type", VStr "text"); ("value", VStr text)];
              VObj [("type", VStr "linebreak")]]
             [text; ""]); [reflexivity | reflexivity |].
    constructor; [| constructor; [| constructor]].
    - apply RichText_text; [reflexivity |].
      unfold nodeText, or_else. cbn.
      destruct (String.eqb_spec text "") as [-> | _]; reflexivity.
    - apply RichText_leaf; reflexivity. }
  split.
  { exact (proj2 (getString_cases trim
                    [("block_error_message", document "Tick the box")]
                    "block_error_message" "Please accept" "Tick the box"
                    (Hdoc "Tick the box"))
             (fun s _ => eq_refl) eq_refl). }
  split.
  { exact (proj2 (getString_cases trim
                    [("block_error_message", document "   ")]
                    "block_error_message" "Please accept" "   " (Hdoc "   "))
             (fun s _ => eq_refl) eq_refl). }
  split.
  { exact (proj1 (getString_cases trim
                    [("block_error_message", VObj [("id", VNum 3)])]
                    "block_error_message" "Please accept" ""
                    (RichText_leaf [("id", VNum 3)] eq_refl eq_refl))). }
  split.
  { exact (getString_cases trim
             [("block_error_message", VArr [VStr "Tick"])]
             "block_error_message" "Please accept"). }
  exact (getString_cases trim [("block_error_message", VNum 42)]
           "block_error_message" "Please accept").
Defined.

(** X7: on a printable stored value [getStringSetting] raises in one
    case only: the value stored under the key is an object whose own
    [type] is 'text' and whose text ([value], or else [text]) is a
    truthy value that is not a string, on which [trim] cannot be
    called.  On every other printable stored value, of whatever shape,
    it returns. *)
Theorem getString_raises
    (trimFn : string -> string) (settings : settings_t) (key dflt : string)
    (Hprintable : printable (get key settings) = true) :
  Exact.getStringSetting trimFn settings key dflt = Throw <->
  exists fields,
    get key settings = VObj fields
    /\ get "type" fields = VStr "text"
    /\ truthy (nodeText fields) = true
    /\ isString (nodeText fields) = false.
Proof.
  split.
  - intros Hthrow.
    destruct (get key settings) as [| | b | n | s | items | fields | k e c
                                   | k hr t c] eqn:E;
      try (unfold Exact.getStringSetting in Hthrow; rewrite E in Hthrow;
           discriminate).
    rewrite (Exact_getStringSetting_object _ _ _ _ _ E Hprintable) in Hthrow.
    exists fields. split; [reflexivity |].
    destruct (strictEqStr (get "type" fields) "text") eqn:Ht.
    + rewrite extractFromNode_object, Ht in Hthrow.
      split.
      { destruct (get "type" fields); try discriminate.
        cbn in Ht. apply String.eqb_eq in Ht. now subst. }
      destruct (nodeText fields) as [| | b | n | s | | | |];
        cbn [truthy] in Hthrow; cbn [truthy isString typeof];
        try discriminate Hthrow.
      all: split; [| reflexivity].
      all: match goal with
           | H : (if ?c then _ else _) = Throw |- _ =>
               destruct c; [reflexivity | discriminate H]
           | _ => reflexivity
           end.
    + destruct (extractFromNode_not_text fields Ht) as [s Hs].
      rewrite Hs in Hthrow. discriminate.
  - intros (fields & E & Ht & Htruthy & Hstr).
    rewrite E in Hprintable.
    rewrite (Exact_getStringSetting_object _ _ _ _ _ E Hprintable).
    rewrite extractFromNode_object, Ht.
    change (strictEqStr (VStr "text") "text") with true. cbv iota.
    destruct (nodeText fields) as [| | b | n | s | | | |];
      cbn [truthy isString typeof] in *; try discriminate;
      try reflexivity; now rewrite Htruthy.
Qed.

Lemma getString_raises_witness :
  Exact.getStringSetting trim
    [("block_error_message",
      VObj [("type", VStr "text"); ("value", VArr [VStr "Tick the box"])])]
    "block_error_message" "Please accept" = Throw.
Proof.
  apply (getString_raises trim
           [("block_error_message",
             VObj [("type", VStr "text");
                   ("value", VArr [VStr "Tick the box"])])]
           "block_error_message" "Please accept" eq_refl).
  exists [("type", VStr "text"); ("value", VArr [VStr "Tick the box"])].
  repeat split.
Defined.

(** ** The country filter on every string *)

Lemma Exact_selectedCountries_In trimFn upperFn countrySelection c :
  In c (Exact.selectedCountries trimFn upperFn countrySelection) <->
  c <> "" /\
  exists piece,
    In piece (split "," countrySelection) /\ c = upperFn (trimFn piece).
Proof.
  unfold Exact.selectedCountries.
  rewrite filter_In, in_map_iff, negb_true_iff.
  rewrite String.eqb_neq. split.
  - intros [(piece & <- & Hin) Hne]. split; [exact Hne | now exists piece].
  - intros [Hne (piece & Hin & ->)]. split; [now exists piece | exact Hne].
Qed.

(** On ASCII strings the filters over the library functions are the
    filters over [Str.trim] and [Str.toUpperCase]. *)
Lemma Exact_selectedCountries_ascii trimFn upperFn s :
  trimsAscii trimFn -> uppercasesAscii upperFn -> isAscii s = true ->
  Exact.selectedCountries trimFn upperFn s = selectedCountries s.
Proof.
  intros Ht Hu Hs. unfold Exact.selectedCountries, selectedCountries.
  f_equal. apply map_ext_in. intros piece Hin.
  pose proof (isAscii_split "," s Hs) as Hall.
  rewrite Forall_forall in Hall. specialize (Hall piece Hin).
  rewrite (Ht piece Hall). apply Hu. now apply isAscii_trim.
Qed.

Lemma Exact_countryFilter_iff trimFn upperFn countrySelection countryCode :
  trimsAscii trimFn -> uppercasesAscii upperFn ->
  Exact.countryFilter trimFn upperFn countrySelection countryCode = true <->
  Exact.selectedCountries trimFn upperFn countrySelection = []
  \/ countryCode = ""
  \/ In (upperFn countryCode)
       (Exact.selectedCountries trimFn upperFn countrySelection).
Proof.
  intros Ht Hu. unfold Exact.countryFilter.
  destruct (String.eqb_spec countrySelection "") as [-> | Hsel];
    cbn [negb andb].
  { split; [intros _; left | reflexivity].
    now rewrite (Exact_selectedCountries_ascii _ _ "" Ht Hu eq_refl). }
  destruct (String.eqb_spec countryCode "") as [-> | Hcode]; cbn [negb andb].
  { split; [now right; left | reflexivity]. }
  rewrite orb_true_iff, arrayIncludes_In, Nat.eqb_eq, length_zero_iff_nil.
  tauto.
Qed.

Lemma Exact_countryFilter_ascii trimFn upperFn s c :
  trimsAscii trimFn -> uppercasesAscii upperFn ->
  isAscii s = true -> isAscii c = true ->
  Exact.countryFilter trimFn upperFn s c = countryFilter s c.
Proof.
  intros Ht Hu Hs Hc. unfold Exact.countryFilter, countryFilter.
  now rewrite (Exact_selectedCountries_ascii _ _ s Ht Hu Hs), (Hu c Hc).
Qed.

Lemma countryFilter_exact :
  countryFilter = Exact.countryFilter trim toUpperCase.
Proof. reflexivity. Qed.

(** C3: the country filter, for every [country_selection] and every
    country code, whatever [trim] and [toUpperCase] do outside ASCII.
    It reads [country_selection] as the list of its comma-separated
    pieces, trimmed and uppercased, without the empty ones; it passes
    when that list is empty or when no country code is known, and
    otherwise exactly when the uppercased country code is in the list.
    The codes read from an ASCII selection are not empty and are left
    unchanged by [trim] and by [toUpperCase].  With the selection
    "US,CA" the filter passes for "us" and for "Ca" and fails for "FR";
    with the empty selection it passes for every country. *)
Theorem country_filter_policy
    (trimFn upperFn : string -> string)
    (Htrim : trimsAscii trimFn) (Hupper : uppercasesAscii upperFn)
    (countrySelection countryCode : string) :
  let selected := Exact.selectedCountries trimFn upperFn in
  let passes := Exact.countryFilter trimFn upperFn in
  (passes countrySelection countryCode = true <->
   selected countrySelection = []
   \/ countryCode = ""
   \/ In (upperFn countryCode) (selected countrySelection))
  /\ (forall c,
        In c (selected countrySelection) <->
        c <> "" /\
        exists piece,
          In piece (split "," countrySelection)
          /\ c = upperFn (trimFn piece))
  /\ (isAscii countrySelection = true ->
      forall c,
        In c (selected countrySelection) ->
        c <> "" /\ trim c = c /\ toUpperCase c = c)
  /\ selected " us, CA ,," = ["US"; "CA"]
  /\ passes "US,CA" "us" = true
  /\ passes "US,CA" "Ca" = true
  /\ passes "US,CA" "FR" = false
  /\ passes "" countryCode = true
  /\ passes countrySelection "" = true.
Proof.
  intros selected passes. subst selected passes.
  split; [now apply Exact_countryFilter_iff |].
  split; [apply Exact_selectedCountries_In |].
  split.
  { intros Hascii c.
    rewrite (Exact_selectedCountries_ascii _ _ _ Htrim Hupper Hascii).
    apply selectedCountries_normal. }
  split.
  { now rewrite (Exact_selectedCountries_ascii _ _ " us, CA ,,"
                    Htrim Hupper eq_refl). }
  split.
  { now rewrite (Exact_countryFilter_ascii _ _ "US,CA" "us" Htrim Hupper
                   eq_refl eq_refl). }
  split.
  { now rewrite (Exact_countryFilter_ascii _ _ "US,CA" "Ca" Htrim Hupper
                   eq_refl eq_refl). }
  split.
  { now rewrite (Exact_countryFilter_ascii _ _ "US,CA" "FR" Htrim Hupper
                   eq_refl eq_refl). }
  split; [reflexivity |].
  unfold Exact.countryFilter. now rewrite andb_false_r.
Qed.

Lemma country_filter_policy_witness :
  countryFilter "US,CA" "us" = true
  /\ countryFilter "US,CA" "FR" = false
  /\ (countryFilter "de , at" "AT" = true <->
      selectedCountries "de , at" = []
      \/ "AT" = ""
      \/ In (toUpperCase "AT") (selectedCountries "de , at")).
Proof.
  destruct (country_filter_policy trim toUpperCase
              (fun s _ => eq_refl) (fun s _ => eq_refl) "de , at" "AT")
    as (Hiff & _ & _ & _ & Hus & _ & Hfr & _).
  split; [exact Hus |]. split; [exact Hfr | exact Hiff].
Defined.

(** ** The variant filter on every string *)

Lemma Exact_selectedVariants_ascii trimFn s :
  trimsAscii trimFn -> isAscii s = true ->
  Exact.selectedVariants trimFn s = selectedVariants s.
Proof.
  intros Ht Hs. unfold Exact.selectedVariants, selectedVariants.
  f_equal. apply map_ext_in. intros piece Hin.
  pose proof (isAscii_split "," s Hs) as Hall.
  rewrite Forall_forall in Hall. exact (Ht piece (Hall piece Hin)).
Qed.

Lemma Exact_variantFilter_empty trimFn variantSelection matchAny lines :
  Exact.selectedVariants trimFn variantSelection = [] ->
  Exact.variantFilter trimFn variantSelection matchAny lines = Return true.
Proof.
  unfold Exact.variantFilter. intros ->. cbn.
  destruct (negb (String.eqb variantSelection "")); reflexivity.
Qed.

(** X13: the variant filter raises when a selector is left after
    parsing, whatever [trim] removes outside ASCII, and the first
    variant id of the cart is neither a string nor an array (a number,
    a boolean, an object): [includes] is called on it, under either
    policy. *)
Theorem variant_filter_raises
    (trimFn : string -> string) (Htrim : trimsAscii trimFn)
    (variantSelection : string) (matchAny : bool)
    (lines : list value) (id : value) (ids : list value)
    (Hselected : Exact.selectedVariants trimFn variantSelection <> [])
    (Hids : cartVariantIds lines = id :: ids)
    (Hstring : isString id = false)
    (Harray : isArray id = false) :
  Exact.variantFilter trimFn variantSelection matchAny lines = Throw.
Proof.
  unfold Exact.variantFilter. rewrite Hids.
  destruct (String.eqb_spec variantSelection "") as [-> | _].
  { contradiction Hselected.
    now rewrite (Exact_selectedVariants_ascii _ "" Htrim eq_refl). }
  destruct (Exact.selectedVariants trimFn variantSelection)
    as [| selector rest]; [now contradiction Hselected |].
  cbn [negb List.length Nat.ltb Nat.leb].
  assert (Hfirst : Exact.variantMatches id selector = Throw).
  { destruct id; try discriminate; reflexivity. }
  destruct matchAny; cbn [some every]; now rewrite Hfirst.
Qed.

Lemma variant_filter_raises_witness :
  Exact.variantFilter trim "41" true
    [VNull; VObj [("merchandise", VObj [("id", VNum 41)])]] = Throw.
Proof.
  exact (variant_filter_raises trim (fun s _ => eq_refl) "41" true
           [VNull; VObj [("merchandise", VObj [("id", VNum 41)])]]
           (VNum 41) [] ltac:(discriminate) eq_refl eq_refl eq_refl).
Defined.

(** ** Selections that select nothing *)

(** X18: a selection made only of commas and ASCII white space (tab,
    line feed, vertical tab, form feed, carriage return, space) selects
    nothing.  When [variant_selection] is such a string and
    [country_selection] is absent or such a string, the checkbox is to
    be shown for every cart, whatever its lines hold, and for every
    country code, whatever [trim] and [toUpperCase] do outside
    ASCII. *)
Theorem blank_selections_always_show
    (trimFn upperFn : string -> string)
    (Htrim : trimsAscii trimFn) (Hupper : uppercasesAscii upperFn)
    (settings : settings_t) (variantSelection countrySelection : string)
    (matchAny : bool) (lines : list value) (countryCode : string)
    (Hvariants : blankSelection variantSelection = true)
    (Hcountries : get "country_selection" settings = VUndef
                  \/ get "country_selection" settings = VStr countrySelection
                     /\ blankSelection countrySelection = true) :
  isAscii variantSelection = true
  /\ Exact.selectedVariants trimFn variantSelection = []
  /\ Exact.shouldShowCheckbox trimFn upperFn settings variantSelection
       matchAny lines countryCode
     = Return true.
Proof.
  pose proof (blankSelection_isAscii _ Hvariants) as Hascii.
  assert (Hnone : Exact.selectedVariants trimFn variantSelection = []).
  { rewrite (Exact_selectedVariants_ascii _ _ Htrim Hascii).
    now apply selectedVariants_blank. }
  split; [exact Hascii |]. split; [exact Hnone |].
  unfold Exact.shouldShowCheckbox.
  rewrite (Exact_variantFilter_empty _ _ matchAny lines Hnone).
  destruct Hcountries as [E | [E Hblank]];
    unfold Exact.getStringSetting; rewrite E; cbn [cbind andb];
    [reflexivity |].
  f_equal. apply (Exact_countryFilter_iff _ _ _ _ Htrim Hupper). left.
  rewrite (Exact_selectedCountries_ascii _ _ _ Htrim Hupper
             (blankSelection_isAscii _ Hblank)).
  now apply selectedCountries_blank.
Qed.

Lemma blank_selections_always_show_witness :
  Exact.shouldShowCheckbox trim toUpperCase
    [("country_selection", VStr " ,")] ", ,, " false
    [VObj [("merchandise", VObj [("id", VNum 41)])]] "FR"
  = Return true.
Proof.
  exact (proj2 (proj2 (blank_selections_always_show trim toUpperCase
                         (fun s _ => eq_refl) (fun s _ => eq_refl)
                         [("country_selection", VStr " ,")] ", ,, " " ," false
                         [VObj [("merchandise", VObj [("id", VNum 41)])]] "FR"
                         eq_refl (or_intror (conj eq_refl eq_refl))))).
Defined.

(** ** The renderer on printable nodes *)

Lemma mapFrom_cons {A B} (f : A -> nat -> M B) k x rest i :
  mapFrom f k (x :: rest) i
  = match f x k i with
    | Return (y, i1) =>
        match mapFrom f (S k) rest i1 with
        | Return (ys, i2) => Return (y :: ys, i2)
        | Throw => Throw
        end
    | Throw => Throw
    end.
Proof. reflexivity. Qed.

Lemma mapFrom_ext {A B} (f g : A -> nat -> M B) items :
  Forall (fun x => forall j i, f x j i = g x j i) items ->
  forall k i, mapFrom f k items i = mapFrom g k items i.
Proof.
  induction 1 as [| x items Hx _ IH]; intros k i; [reflexivity |].
  rewrite !mapFrom_cons, Hx.
  destruct (g x k i) as [[y i1] |]; [| reflexivity].
  now rewrite IH.
Qed.

Lemma mapFrom_printable (keyOf : nat -> string) children :
  Forall
    (fun child =>
       forall keyPrefix i r i',
         convertNode child keyPrefix i = Return (r, i') ->
         printable r = true)
    children ->
  forall k i rs i',
    mapFrom (fun child j => convertNode child (keyOf j)) k children i
    = Return (rs, i') ->
    forallb printable rs = true.
Proof.
  induction 1 as [| child children Hchild _ IH]; intros k i rs i'.
  - intros [= <- _]. reflexivity.
  - rewrite mapFrom_cons.
    destruct (convertNode child (keyOf k) i) as [[y i1] |] eqn:Ey;
      [| discriminate].
    destruct (mapFrom _ (S k) children i1) as [[ys i2] |] eqn:Eys;
      [| discriminate].
    intros [= <- _]. cbn [forallb].
    now rewrite (Hchild _ _ _ _ Ey), (IH _ _ _ _ Eys).
Qed.

Lemma forallb_filter {A} (p q : A -> bool) l :
  forallb p l = true -> forallb p (filter q l) = true.
Proof.
  induction l as [| x l IH]; cbn [forallb filter]; [reflexivity |].
  intros H. apply andb_true_iff in H as [Hx Hl].
  destruct (q x); cbn [forallb]; [rewrite Hx |]; now apply IH.
Qed.

(** What the conversion of a printable node returns is printable. *)
Lemma convertNode_printable node :
  printable node = true ->
  forall keyPrefix i r i',
    convertNode node keyPrefix i = Return (r, i') -> printable r = true.
Proof.
  induction node as [node Hplain | fields IH] using value_children_ind;
    intros Hp keyPrefix i r i'.
  - destruct node as [| | b | n | s | items | fields | k e c | k h t c];
      try (intros [= <- _]; reflexivity).
    + destruct b; intros [= <- _]; reflexivity.
    + cbn [convertNode truthy]. destruct (negb (negb (Z.eqb n 0)));
        intros [= <- _]; reflexivity.
    + cbn [convertNode truthy]. destruct (negb (negb (String.eqb s "")));
        intros [= <- _]; reflexivity.
    + now contradiction (Hplain fields).
  - destruct (strictEqStr (get "type" fields) "text") eqn:Ht.
    { apply strictEqStr_true in Ht. rewrite (convertNode_text _ _ Ht).
      intros [= <- _]. now apply nodeText_printable. }
    destruct (strictEqStr (get "type" fields) "bold") eqn:Hb.
    { apply strictEqStr_true in Hb.
      rewrite (convertNode_styled _ keyPrefix "bold" (or_introl eq_refl) Hb).
      unfold bind, ret, postIncr.
      destruct (get "children" fields);
        try (intros [= <- _]; reflexivity).
      destruct (mapWithIndex _ _ _) as [[rs i1] |]; [| discriminate].
      intros [= <- _]; reflexivity. }
    destruct (strictEqStr (get "type" fields) "italic") eqn:Hi.
    { apply strictEqStr_true in Hi.
      rewrite (convertNode_styled _ keyPrefix "italic" (or_intror eq_refl) Hi).
      unfold bind, ret, postIncr.
      destruct (get "children" fields);
        try (intros [= <- _]; reflexivity).
      destruct (mapWithIndex _ _ _) as [[rs i1] |]; [| discriminate].
      intros [= <- _]; reflexivity. }
    destruct (strictEqStr (get "type" fields) "link") eqn:Hl.
    { apply strictEqStr_true in Hl.
      rewrite (convertNode_link _ keyPrefix Hl).
      unfold bind, ret, postIncr, lift.
      destruct (get "children" fields);
        try (destruct (optStartsWith (get "url" fields) "http");
             cbn [cbind]; [intros [= <- _]; reflexivity | discriminate]).
      destruct (mapWithIndex _ _ _) as [[rs i1] |]; [| discriminate].
      destruct (optStartsWith (get "url" fields) "http");
        cbn [cbind]; [intros [= <- _]; reflexivity | discriminate]. }
    rewrite (convertNode_container _ keyPrefix Ht Hb Hi Hl).
    destruct (get "children" fields) as [| | | | | children | | |] eqn:E;
      try (intros [= <- _]; reflexivity).
    pose proof (printable_children fields children Hp E) as Hkids.
    specialize (IH children eq_refl).
    unfold bind, ret.
    destruct (mapWithIndex _ _ _) as [[rs i1] |] eqn:Em; [| discriminate].
    intros [= <- _]. cbn [printable]. apply forallb_filter.
    refine (mapFrom_printable
              (fun j => (keyPrefix ++ "-" ++ string_of_nat j)%string)
              children _ 0 i rs i1 Em).
    rewrite forallb_forall in Hkids. rewrite Forall_forall in *.
    intros child Hin. exact (IH child Hin (Hkids child Hin)).
Qed.

(** On a printable node the conversion is [convertNode]. *)
Lemma Exact_convertNode_printable node :
  printable node = true ->
  forall keyPrefix i,
    Exact.convertNode node keyPrefix i = convertNode node keyPrefix i.
Proof.
  induction node as [node Hplain | fields IH] using value_children_ind;
    intros Hp keyPrefix i.
  - destruct node as [| | b | n | s | items | fields | k e c | k h t c];
      try reflexivity.
    now contradiction (Hplain fields).
  - cbn [Exact.convertNode convertNode truthy negb].
    rewrite !withChildrenArray_get.
    destruct (strictEqStr (get "type" fields) "text"); [reflexivity |].
    destruct (get "children" fields) as [| | | | | children | | |] eqn:E;
      try reflexivity.
    pose proof (printable_children fields children Hp E) as Hkids.
    specialize (IH children eq_refl).
    rewrite forallb_forall in Hkids.
    assert (Hmap : forall (keyOf : nat -> string) i,
               mapWithIndex
                 (fun child j => Exact.convertNode child (keyOf j)) children i
               = mapWithIndex
                   (fun child j => convertNode child (keyOf j)) children i).
    { intros keyOf i0. apply mapFrom_ext.
      rewrite Forall_forall in *. intros child Hin j i1.
      exact (IH child Hin (Hkids child Hin) (keyOf j) i1). }
    assert (Hout : forall (keyOf : nat -> string) i rs i',
               mapWithIndex
                 (fun child j => convertNode child (keyOf j)) children i
               = Return (rs, i') ->
               forallb printable rs = true).
    { intros keyOf i0 rs i'. apply mapFrom_printable.
      rewrite Forall_forall. intros child Hin.
      apply convertNode_printable. now apply Hkids. }
    destruct (strictEqStr (get "type" fields) "bold").
    { unfold bind.
      pose proof (Hmap (fun j => (keyPrefix ++ "-bold-" ++ string_of_nat j)%string)
                    i) as H.
      cbv beta in H. now rewrite H. }
    destruct (strictEqStr (get "type" fields) "italic").
    { unfold bind.
      pose proof (Hmap (fun j => (keyPrefix ++ "-italic-"
                                  ++ string_of_nat j)%string) i) as H.
      cbv beta in H. now rewrite H. }
    destruct (strictEqStr (get "type" fields) "link").
    { unfold bind.
      pose proof (Hmap (fun j => (keyPrefix ++ "-link-child-"
                                  ++ string_of_nat j)%string) i) as H.
      cbv beta in H. rewrite H. clear H.
      destruct (mapWithIndex _ children i) as [[converted i1] |] eqn:Em;
        [| reflexivity].
      unfold lift.
      rewrite joinC_printable; [reflexivity |].
      apply forallb_filter.
      exact (Hout (fun j => (keyPrefix ++ "-link-child-"
                             ++ string_of_nat j)%string) i converted i1 Em). }
    unfold bind.
    pose proof (Hmap (fun j => (keyPrefix ++ "-" ++ string_of_nat j)%string) i)
      as H.
    cbv beta in H. now rewrite H.
Qed.

Lemma Exact_parseRichTextLabel_printable label log :
  printable label = true ->
  Exact.parseRichTextLabel label log = parseRichTextLabel label log.
Proof.
  intros Hp. unfold Exact.parseRichTextLabel, parseRichTextLabel.
  now rewrite (Exact_convertNode_printable label Hp).
Qed.






(** X9: on a printable label in which every [link] node has a url that
    is absent, [null] or a string, the renderer returns: the conversion
    of the label returns from any key prefix and any value of
    [nodeIndex], which it never decreases, and [parseRichTextLabel]
    returns the fragments. *)
Theorem renderer_returns_on_safe_links
    (label : value) (log : console)
    (Hsafe : SafeLinks label) (Hprintable : printable label = true) :
  (forall keyPrefix nodeIndex,
     exists result nodeIndex',
       Exact.convertNode label keyPrefix nodeIndex
       = Return (result, nodeIndex')
       /\ nodeIndex <= nodeIndex')
  /\ exists out log', Exact.parseRichTextLabel label log = Return (out, log').
Proof.
  split.
  - intros keyPrefix nodeIndex.
    rewrite (Exact_convertNode_printable label Hprintable).
    now apply convertNode_SafeLinks.
  - rewrite (Exact_parseRichTextLabel_printable label log Hprintable).
    now apply parseRichTextLabel_returns.
Qed.

Lemma renderer_returns_on_safe_links_witness :
  let label :=
    VObj [("type", VStr "root");
          ("children",
           VArr [VObj [("type", VStr "link"); ("url", VNull);
                       ("children", VArr [VStr "terms"; VNum 7])];
                 VObj [("type", VStr "bold"); ("value", VStr "now")]])] in
  exists out log', Exact.parseRichTextLabel label [] = Return (out, log').
Proof.
  intros label.
  refine (proj2 (renderer_returns_on_safe_links label [] _ eq_refl)).
  apply (SafeLinks_children _
           [VObj [("type", VStr "link"); ("url", VNull);
                  ("children", VArr [VStr "terms"; VNum 7])];
            VObj [("type", VStr "bold"); ("value", VStr "now")]]);
    [discriminate | reflexivity |].
  constructor; [| constructor; [| constructor]].
  - apply (SafeLinks_children _ [VStr "terms"; VNum 7]);
      [reflexivity | reflexivity |].
    repeat constructor; intros fields; discriminate.
  - apply SafeLinks_leaf; [discriminate | reflexivity].
Defined.

(** ** Renders that return *)

Lemma Exact_getStringSetting_returns trimFn settings key dflt :
  printable (get key settings) = true ->
  strictEqStr (getProp (get key settings) "type") "text" = false ->
  exists r, Exact.getStringSetting trimFn settings key dflt = Return r.
Proof.
  intros Hp Ht.
  destruct (get key settings) as [| | b | n | s | items | fields | k e c
                                 | k hr t c] eqn:E.
  7: {
    rewrite (Exact_getStringSetting_object _ _ _ _ _ E Hp).
    cbn [getProp] in Ht.
    destruct (extractFromNode_not_text fields Ht) as [s ->]. eauto. }
  all: apply Exact_getStringSetting_not_object; rewrite E;
    intros fields; discriminate.
Qed.

Lemma Exact_some_strings selector ids :
  some (fun cartVariantId => Exact.variantMatches cartVariantId selector)
    (map VStr ids)
  = Return (existsb
              (fun id => String.eqb id selector
                         || includes id selector || includes selector id)
              ids).
Proof.
  induction ids as [| id ids IH]; cbn [map some existsb]; [reflexivity |].
  assert (E : Exact.variantMatches (VStr id) selector
              = Return (String.eqb id selector
                        || includes id selector || includes selector id)).
  { unfold Exact.variantMatches. cbn [strictEqStr].
    destruct (String.eqb id selector); reflexivity. }
  rewrite E. cbn [cbind].
  destruct (String.eqb id selector
            || includes id selector || includes selector id);
    [reflexivity | exact IH].
Qed.

Lemma Exact_variantFilter_returns trimFn variantSelection matchAny lines ids :
  cartVariantIds lines = map VStr ids ->
  exists pass,
    Exact.variantFilter trimFn variantSelection matchAny lines = Return pass.
Proof.
  intros Hids. unfold Exact.variantFilter. rewrite Hids.
  destruct (negb (String.eqb variantSelection "")); [| eauto].
  destruct (0 <? List.length (Exact.selectedVariants trimFn variantSelection))%nat;
    [| eauto].
  destruct matchAny; eexists.
  - apply some_Return. intros selector. apply Exact_some_strings.
  - apply every_Return. intros selector. apply Exact_some_strings.
Qed.

(** X19: a render returns, and does not raise, as soon as the stored
    settings are printable, none of [block_error_message],
    [variant_selection] and [country_selection] holds a node whose own
    [type] is 'text', the variant ids of the cart lines are strings,
    and every [link] of the label has a url that is absent, [null] or a
    string; strings, absent values and documents from the rich-text
    editor are all of that kind. *)
Theorem render_returns
    (trimFn upperFn : string -> string)
    (settings : settings_t) (h : host) (st : state) (log : console)
    (ids : list string)
    (Hprintable : forallb (fun kv => printable (snd kv)) settings = true)
    (Hmessage :
       strictEqStr (getProp (get "block_error_message" settings) "type") "text"
       = false)
    (Hvariants :
       strictEqStr (getProp (get "variant_selection" settings) "type") "text"
       = false)
    (Hcountries :
       strictEqStr (getProp (get "country_selection" settings) "type") "text"
       = false)
    (Hids : cartVariantIds (cartLines st) = map VStr ids)
    (Hlabel : SafeLinks (get "checkbox_label" settings)) :
  exists out log',
    Exact.Extension trimFn upperFn settings h st log = Return (out, log').
Proof.
  assert (Hp : forall key, printable (get key settings) = true)
    by (intros key; now apply get_printable).
  unfold Exact.Extension.
  destruct (Exact_getStringSetting_returns trimFn settings
              "block_error_message" "Please accept the terms to continue"
              (Hp _) Hmessage) as [msg ->].
  destruct (Exact_getStringSetting_returns trimFn settings
              "variant_selection" "" (Hp _) Hvariants) as [vsel ->].
  cbn [cbind].
  destruct (getBooleanSetting settings "hide_checkbox" false); [eauto |].
  destruct (negb (canUpdateAttributes h)); [eauto |].
  unfold Exact.shouldShowCheckbox.
  destruct (Exact_getStringSetting_returns trimFn settings
              "country_selection" "" (Hp _) Hcountries) as [csel ->].
  destruct (Exact_variantFilter_returns trimFn vsel
              (getBooleanSetting settings "match_any_variant" true)
              (cartLines st) ids Hids) as [pass ->].
  cbn [cbind].
  destruct (pass && Exact.countryFilter trimFn upperFn csel (countryCode st));
    cbn [negb]; [| eauto].
  rewrite (Exact_parseRichTextLabel_printable _ _ (Hp "checkbox_label")).
  destruct (parseRichTextLabel_returns (get "checkbox_label" settings)
              (log ++ [("Raw checkbox label:",
                        [get "checkbox_label" settings])]) Hlabel)
    as (out & log2 & ->).
  cbn [cbind]. eauto.
Qed.

Lemma render_returns_witness :
  let settings :=
    [("variant_selection", VStr "41");
     ("checkbox_label",
      VObj [("type", VStr "root");
            ("children",
             VArr [VObj [("type", VStr "link"); ("url", VStr "/terms");
                         ("children", VArr [])]])])] in
  let st := {| isChecked := false; showError := false;
               cartLines := [VObj [("merchandise", VObj [("id", VStr "41")])]];
               countryCode := "" |} in
  exists out log',
    Exact.Extension trim toUpperCase settings
      {| canUpdateAttributes := true |} st []
    = Return (out, log').
Proof.
  intros settings st.
  apply (render_returns trim toUpperCase settings
           {| canUpdateAttributes := true |} st []
           ["41"] eq_refl eq_refl eq_refl eq_refl eq_refl).
  apply (SafeLinks_children _
           [VObj [("type", VStr "link"); ("url", VStr "/terms");
                  ("children", VArr [])]]);
    [discriminate | reflexivity |].
  constructor; [| constructor].
  apply (SafeLinks_children _ []); [reflexivity | reflexivity | constructor].
Defined.
